(** * playground-elements: bare-module resolution and typings layout

    A shallow embedding of the TypeScript worker of playground-elements:
    - [CachingCdn]              (caching-cdn.ts)
    - [BareModuleTransformer]   (bare-module-transformer.ts)
    - [TypesFetcher]            (types-fetcher.ts, the variant that lays the
                                 typings out as nested node_modules)

    JavaScript strings are modelled as [string]; character offsets are
    offsets into that string.  Objects used as maps from names are [gmap]s
    where only lookups matter and association lists where the insertion
    order is observable.  Exceptions are an explicit [Throw] result, and the
    mutable fields of each class are threaded as explicit state. *)

From Stdlib Require Import String Ascii List ZArith Lia Bool DecimalString.
From Stdlib Require DecimalNat DecimalFacts.
From stdpp Require Import base option gmap strings list.

Import ListNotations.
Local Open Scope string_scope.

(** ** JavaScript string primitives *)

Module Js.

(** [s.startsWith(p)] *)
Definition startsWith (s p : string) : bool := String.prefix p s.

(** [s.slice(n)] for [0 <= n] *)
Definition slice (n : nat) (s : string) : string :=
  String.substring n (String.length s - n) s.

(** [s.endsWith(p)] *)
Definition endsWith (s p : string) : bool :=
  (String.length p <=? String.length s)%nat &&
  String.eqb (slice (String.length s - String.length p) s) p.

(** [s.slice(0, -1)] *)
Definition dropLast (s : string) : string :=
  String.substring 0 (String.length s - 1) s.

(** [s.substring(a, b)] for [0 <= a <= b]; indices past the end are
    clamped, as in JavaScript. *)
Definition substring (a b : nat) (s : string) : string :=
  String.substring a (b - a) s.

(** The decimal rendering of a number inside a template literal. *)
Definition ofNat (n : nat) : string :=
  NilEmpty.string_of_uint (Nat.to_uint n).

(** [s.toLowerCase()] on ASCII text *)
Definition lowerChar (c : ascii) : ascii :=
  let n := nat_of_ascii c in
  if (65 <=? n)%nat && (n <=? 90)%nat then ascii_of_nat (n + 32) else c.

Fixpoint toLowerCase (s : string) : string :=
  match s with
  | EmptyString => EmptyString
  | String c r => String (lowerChar c) (toLowerCase r)
  end.

(** The text of a double quote character. *)
Definition quote : string := String (ascii_of_nat 34) EmptyString.

(** [x ?? d] *)
Definition orElse {A} (x : option A) (d : A) : A :=
  match x with Some a => a | None => d end.

(** [x ?? y] where [y] may itself be undefined *)
Definition orElseOpt {A} (x y : option A) : option A :=
  match x with Some a => Some a | None => y end.

(** What reading a property of an object of strings gives when it is not
    undefined: a string, or a value that is not one (a function or an
    object the object inherits), kept as the text a template literal
    renders it to. *)
Inductive Value :=
| Str (s : string)
| NotString (rendered : string).

(** [`${v}`] *)
Definition text (v : Value) : string :=
  match v with Str s => s | NotString rendered => rendered end.

(** The message of the TypeError [s.match(...)] throws when [s] is not a
    string. *)
Definition matchIsNotAFunction : string := "s.match is not a function".

Definition native (name : string) : string :=
  "function " ++ name ++ "() { [native code] }".

(** The members every object inherits from [Object.prototype], each with
    the text V8 renders it to in a template literal. *)
Definition objectPrototype : list (string * string) :=
  [ ("constructor", native "Object");
    ("__defineGetter__", native "__defineGetter__");
    ("__defineSetter__", native "__defineSetter__");
    ("hasOwnProperty", native "hasOwnProperty");
    ("__lookupGetter__", native "__lookupGetter__");
    ("__lookupSetter__", native "__lookupSetter__");
    ("isPrototypeOf", native "isPrototypeOf");
    ("propertyIsEnumerable", native "propertyIsEnumerable");
    ("toString", native "toString");
    ("valueOf", native "valueOf");
    ("__proto__", "[object Object]");
    ("toLocaleString", native "toLocaleString") ].

Fixpoint lookup (name : string) (members : list (string * string))
  : option string :=
  match members with
  | [] => None
  | (k, rendered) :: rest =>
      if String.eqb k name then Some rendered else lookup name rest
  end.

(** The member of that name an object literal inherits, if any. *)
Definition inherited (name : string) : option string :=
  lookup name objectPrototype.

End Js.

(** ** Shared data types (util.ts, worker-api.ts) *)

Record NpmFileLocation := mkLoc {
  pkg : string;
  version : string;
  path : string
}.

Record PackageJson := mkPackageJson {
  dependencies : option (gmap string string);
  main : option string;
  module : option string;
  types : option string;
  typings : option string
}.

Definition emptyPackageJson : PackageJson :=
  mkPackageJson None None None None None.

Record CdnFile := mkCdnFile {
  content : string;
  contentType : string
}.

(** What [await fetch(url)] gives: a response (status, final URL after
    redirects, body, content-type header) or a rejection. *)
Record Response := mkResponse {
  status : nat;
  res_url : string;
  text : string;
  header_contentType : option string
}.

Inductive FetchOutcome :=
| Responded (r : Response)
| Rejected (message : string).

(** Outcome of a computation that may throw; [Throw] carries [e.message]. *)
Inductive Res (A : Type) :=
| Ok (a : A)
| Throw (message : string).
Arguments Ok {A} a.
Arguments Throw {A} message.

Inductive SpecifierKind := KUrl | KBare | KRelative.

Record Position := mkPos { line : nat; character : nat }.

(** The helpers of util.ts the three classes import.  util.ts is not part
    of the sources at hand, so the classes are verified against any
    implementation of this interface; [SpecUtil] below gives the one the
    specification describes. *)
Class UtilOps := {
  parseNpmStyleSpecifier : string -> option NpmFileLocation;
  fileExtension : string -> string;
  changeFileExtension : string -> string -> string;
  classifySpecifier : string -> SpecifierKind;
  resolveUrlPath : string -> string -> string;
  relativeUrlPath : string -> string -> string;
  charToLineAndChar : string -> nat -> Position
}.

(** ** caching-cdn.ts *)

Module Semver.

Definition isDigit (c : ascii) : bool :=
  let n := nat_of_ascii c in (48 <=? n)%nat && (n <=? 57)%nat.

Definition isLetter (c : ascii) : bool :=
  let n := nat_of_ascii c in
  ((65 <=? n)%nat && (n <=? 90)%nat) || ((97 <=? n)%nat && (n <=? 122)%nat).

(** A digit, an ASCII letter or a hyphen. *)
Definition isIdentChar (c : ascii) : bool :=
  isDigit c || isLetter c || Ascii.eqb c "-"%char.

(** Split at the first occurrence of [c]: the text before it and, when
    [c] occurs, the text after it. *)
Fixpoint splitFirst (c : ascii) (s : list ascii)
  : list ascii * option (list ascii) :=
  match s with
  | [] => ([], None)
  | x :: r =>
      if Ascii.eqb x c then ([], Some r)
      else let '(a, b) := splitFirst c r in (x :: a, b)
  end.

(** All the fields between the separators [c] (at least one field). *)
Fixpoint splitAll (c : ascii) (s : list ascii) : list (list ascii) :=
  match s with
  | [] => [[]]
  | x :: r =>
      match splitAll c r with
      | f :: fs => if Ascii.eqb x c then [] :: f :: fs else (x :: f) :: fs
      | [] => [[]]
      end
  end.

(** Zero, or a non-zero digit followed by digits. *)
Definition isNumeric (s : list ascii) : bool :=
  match s with
  | [] => false
  | c :: r =>
      if Ascii.eqb c "0"%char then match r with [] => true | _ => false end
      else isDigit c && forallb isDigit r
  end.

(** A numeric identifier, or identifier characters with at least one
    non-digit among them. *)
Definition isPrereleaseIdent (s : list ascii) : bool :=
  isNumeric s ||
  (negb (forallb isDigit s) && forallb isIdentChar s).

(** One or more identifier characters. *)
Definition isBuildIdent (s : list ascii) : bool :=
  match s with [] => false | _ => forallb isIdentChar s end.

(** The semver.org regular expression of [isExactVersion]: a core of
    three numeric identifiers separated by dots, then optionally a hyphen
    and dot-separated prerelease identifiers, then optionally a plus sign
    and dot-separated build identifiers, anchored at both ends.  No
    identifier may contain a plus sign and the core may contain neither a
    hyphen nor a plus sign, so the first plus sign starts the build part
    and the first hyphen before it starts the prerelease part. *)
Definition matches (s : list ascii) : bool :=
  let '(front, build) := splitFirst "+"%char s in
  let '(core, pre) := splitFirst "-"%char front in
  (match splitAll "."%char core with
   | [a; b; c] => isNumeric a && isNumeric b && isNumeric c
   | _ => false
   end)
  && (match pre with
      | None => true
      | Some p => forallb isPrereleaseIdent (splitAll "."%char p)
      end)
  && (match build with
      | None => true
      | Some b => forallb isBuildIdent (splitAll "."%char b)
      end).

End Semver.

Definition isExactVersion (s : string) : bool :=
  Semver.matches (list_ascii_of_string s).

Definition pkgVersion (pkg version : string) : string :=
  pkg ++ "@" ++ (if String.eqb version EmptyString then "latest" else version).

Definition trimLeadingSlash (s : string) : string :=
  if Js.startsWith s "/" then Js.slice 1 s else s.

Definition trimTrailingSlash (s : string) : string :=
  if Js.endsWith s "/" then Js.dropLast s else s.

Definition pkgVersionPath (l : NpmFileLocation) : string :=
  trimTrailingSlash
    (pkgVersion (pkg l) (version l) ++ "/" ++ trimLeadingSlash (path l)).


(** A cache entry of [_fileCache], which is also what [_fetch] returns. *)
Record FetchResult := mkFetchResult {
  url : string;
  file : CdnFile
}.

(** The fields of a [CachingCdn].  [requests] is not a field of the class:
    it logs, oldest first, every URL handed to the network [fetch]. *)
Record CachingCdn := mkCdn {
  _urlPrefix : string;
  _versionCache : gmap string string;
  _fileCache : gmap string FetchResult;
  requests : list string
}.

Definition newCachingCdn (urlPrefix : string) : CachingCdn :=
  mkCdn urlPrefix ∅ ∅ [].

(** An entry of the array es-module-lexer returns: the specifier text [n]
    (undefined when it is not a string literal), its start and end offsets
    [s] and [e], and [d], which is -1 unless the import is dynamic. *)
Module Lexer.
Record ImportSpecifier := mk {
  n : option string;
  s : nat;
  e : nat;
  d : Z
}.
End Lexer.

Record PreProcessedFileInfo := mkFileInfo {
  importedFiles : list string;
  libReferenceDirectives : list string
}.

(** What the code takes from outside the repository: the network [fetch],
    [JSON.parse] (read at the type [PackageJson]; [None] when it throws),
    [esModuleLexer.parse] and TypeScript's [ts.preProcessFile] with its
    arguments [readImportFiles] and [detectJavaScriptImports]. *)
Class Platform := {
  fetch : string -> FetchOutcome;
  JSON_parse : string -> option PackageJson;
  esModuleLexer_parse : string -> Res (list Lexer.ImportSpecifier);
  ts_preProcessFile : string -> option bool -> bool -> PreProcessedFileInfo
}.

(** ** Computations over mutable state that may throw *)

Definition M (S A : Type) : Type := S -> Res A * S.

Definition ret {S A} (a : A) : M S A := fun st => (Ok a, st).

Definition throw {S A} (message : string) : M S A :=
  fun st => (Throw message, st).

Definition bind {S A B} (c : M S A) (k : A -> M S B) : M S B :=
  fun st =>
    match c st with
    | (Ok a, st') => k a st'
    | (Throw m, st') => (Throw m, st')
    end.

(** [try { c } catch (e) { h e.message }] *)
Definition tryCatch {S A} (c : M S A) (h : string -> M S A) : M S A :=
  fun st =>
    match c st with
    | (Ok a, st') => (Ok a, st')
    | (Throw m, st') => h m st'
    end.

Definition getState {S} : M S S := fun st => (Ok st, st).
Definition modifyState {S} (f : S -> S) : M S unit := fun st => (Ok tt, f st).

Declare Scope js_scope.
Delimit Scope js_scope with js.
Notation "x <- c ;; k" := (bind c (fun x => k))
  (at level 100, c at next level, right associativity) : js_scope.
Notation "c ;;; k" := (bind c (fun _ => k))
  (at level 100, right associativity) : js_scope.
Local Open Scope js_scope.

Section CachingCdn.
Context {U : UtilOps} {P : Platform}.

Definition _parseUnpkgUrl (cdn : CachingCdn) (u : string)
  : Res NpmFileLocation :=
  match
    (if Js.startsWith u (_urlPrefix cdn)
     then parseNpmStyleSpecifier
            (Js.slice (String.length (_urlPrefix cdn)) u)
     else None)
  with
  | Some parsed => Ok parsed
  | None => Throw ("Unexpected unpkg.com URL format: " ++ u)
  end.

(** The opening lines shared by [canonicalize] and [_fetch]: an inexact
    version that the version cache knows is replaced by its resolution.
    Returns the location and the flag [exact]. *)
Definition resolveFromCache (cdn : CachingCdn) (location : NpmFileLocation)
  : NpmFileLocation * bool :=
  if isExactVersion (version location) then (location, true)
  else
    match _versionCache cdn !! pkgVersion (pkg location) (version location) with
    | Some resolved =>
        (mkLoc (pkg location) resolved (path location), true)
    | None => (location, false)
    end.

(** [_fetch] up to its [await fetch(url)]: either the cached entry, or the
    request to issue together with the locals the rest of the body uses. *)
Inductive FetchStart :=
| Cached (r : FetchResult)
| Request (u : string) (location : NpmFileLocation) (exact : bool).

Definition _fetch_start (location : NpmFileLocation) (cdn : CachingCdn)
  : FetchStart * CachingCdn :=
  let '(location, exact) := resolveFromCache cdn location in
  let pvp := pkgVersionPath location in
  match _fileCache cdn !! pvp with
  | Some cached => (Cached cached, cdn)
  | None =>
      let u := _urlPrefix cdn ++ pvp in
      (Request u location exact,
       mkCdn (_urlPrefix cdn) (_versionCache cdn) (_fileCache cdn)
             (requests cdn ++ [u]))
  end.

(** [_fetch] from the moment the response [res] of its request arrives. *)
Definition _fetch_finish (location : NpmFileLocation) (exact : bool)
    (res : FetchOutcome) : M CachingCdn FetchResult :=
  fun cdn =>
    match res with
    | Rejected m => (Throw m, cdn)
    | Responded res =>
        if negb (Nat.eqb (status res) 200) then
          (Throw ("Unpkg " ++ Js.ofNat (status res) ++ " error: " ++ text res),
           cdn)
        else
          let result :=
            mkFetchResult (res_url res)
              (mkCdnFile (text res)
                 (Js.orElse (header_contentType res) "text/plain")) in
          if exact then
            (Ok result,
             mkCdn (_urlPrefix cdn) (_versionCache cdn)
                   (<[pkgVersionPath location := result]> (_fileCache cdn))
                   (requests cdn))
          else
            match _parseUnpkgUrl cdn (res_url res) with
            | Throw m => (Throw m, cdn)
            | Ok canonical =>
                (Ok result,
                 mkCdn (_urlPrefix cdn)
                   (<[pkgVersion (pkg location) (version location)
                      := version canonical]> (_versionCache cdn))
                   (<[pkgVersionPath canonical := result]> (_fileCache cdn))
                   (requests cdn))
            end
    end.

(** [_fetch] when nothing else runs between its request and the
    response. *)
Definition _fetch (location : NpmFileLocation) : M CachingCdn FetchResult :=
  fun cdn =>
    match _fetch_start location cdn with
    | (Cached r, cdn') => (Ok r, cdn')
    | (Request u location' exact, cdn') =>
        _fetch_finish location' exact (fetch u) cdn'
    end.

Definition cdn_fetch (location : NpmFileLocation) : M CachingCdn CdnFile :=
  r <- _fetch location ;; ret (file r).

Definition canonicalize (location : NpmFileLocation)
  : M CachingCdn NpmFileLocation :=
  fun cdn =>
    let '(location, exact) := resolveFromCache cdn location in
    if negb exact || String.eqb (fileExtension (path location)) EmptyString then
      match _fetch location cdn with
      | (Ok r, cdn') => (_parseUnpkgUrl cdn' (url r), cdn')
      | (Throw m, cdn') => (Throw m, cdn')
      end
    else (Ok location, cdn).

Definition fetchPackageJson (pkg version : string)
  : M CachingCdn PackageJson :=
  r <- _fetch (mkLoc pkg version "package.json") ;;
  match JSON_parse (content (file r)) with
  | Some json => ret json
  | None =>
      throw ("JSON error from " ++ url r ++ ": " ++ content (file r))
  end.

End CachingCdn.

(** ** worker-api.ts: build outputs *)

(** Line and character of a diagnostic; integers, since [_makeDiagnostic]
    subtracts one from whatever numbers the lexer's message carries. *)
Module Out.
Record Pos := mkPos { line : Z; character : Z }.
Record Range := mkRange { start : Pos; end_ : Pos }.
Record Diagnostic := mkDiagnostic { message : string; range : Range }.
Record File := mkFile {
  name : string;
  content : string;
  contentType : option string
}.
End Out.

Inductive BuildOutput :=
| FileBuildOutput (file : Out.File)
| DiagnosticBuildOutput (filename : string) (diagnostic : Out.Diagnostic).

Definition posOf {U : UtilOps} (js : string) (offset : nat) : Out.Pos :=
  let p := charToLineAndChar js offset in
  Out.mkPos (Z.of_nat (line p)) (Z.of_nat (character p)).

(** ** bare-module-transformer.ts *)

(** The three [getPackageJson] functions the transformer passes around:
    the one of [_process], which awaits the project's deferred package.json
    and so yields the value that deferred settles to; the closure of
    [_handleDependency], which fetches the dependency's own package.json on
    first use and remembers the outcome in its local variable; and
    [async () => undefined]. *)
Inductive GetPackageJson :=
| ProjectPackageJson (settled : option PackageJson)
| DependencyPackageJson (location : NpmFileLocation)
| NoPackageJson.

(** What [merged.add] is given. *)
Inductive Producer :=
| ProcessProducer (results : list BuildOutput)
| TransformProducer (file : Out.File) (getPackageJson : GetPackageJson)
| DependencyProducer (location : NpmFileLocation).

(** The state of one [BareModuleTransformer.process] run: the fields [_cdn]
    and [_alreadyHandled]; the producers added to [merged] and not yet
    drained; the local variable [packageJson] of the [_handleDependency]
    call being run ([None] is its initial [null]); and [fetchLog], which is
    not in the source: it records, oldest first, each key for which
    [_handleDependency] called [_cdn.fetch] and whether that call
    returned. *)
Record Transformer := mkTransformer {
  _cdn : CachingCdn;
  _alreadyHandled : gset string;
  merged : list Producer;
  packageJson_local : option (option PackageJson);
  fetchLog : list (string * bool)
}.

Definition newTransformer (cdn : CachingCdn) : Transformer :=
  mkTransformer cdn ∅ [] None [].

Definition dependencyKey (l : NpmFileLocation) : string :=
  pkg l ++ "@" ++ version l ++ "/" ++ path l.

(** The regular expression of [_makeDiagnostic]: the message ends with
    [@:], digits, [:], digits.  Returns the two numbers. *)
Module LexerError.

Fixpoint takeDigits (s : list ascii) : list ascii * list ascii :=
  match s with
  | c :: r =>
      if Semver.isDigit c
      then let '(ds, rest) := takeDigits r in (c :: ds, rest)
      else ([], s)
  | [] => ([], [])
  end.

(** [Number] of a string of decimal digits given last digit first. *)
Fixpoint numberRev (ds : list ascii) : nat :=
  match ds with
  | [] => 0
  | c :: r => (nat_of_ascii c - 48) + 10 * numberRev r
  end.

Definition position (message : string) : option (nat * nat) :=
  let '(d2, r1) := takeDigits (rev (list_ascii_of_string message)) in
  match d2, r1 with
  | _ :: _, ":"%char :: r2 =>
      let '(d1, r3) := takeDigits r2 in
      match d1, r3 with
      | _ :: _, ":"%char :: "@"%char :: _ => Some (numberRev d1, numberRev d2)
      | _, _ => None
      end
  | _, _ => None
  end.

End LexerError.

Section BareModuleTransformer.
Context {U : UtilOps} {P : Platform}.

Definition liftCdn {A} (c : M CachingCdn A) : M Transformer A :=
  fun st =>
    let '(r, cdn') := c (_cdn st) in
    (r, mkTransformer cdn' (_alreadyHandled st) (merged st)
          (packageJson_local st) (fetchLog st)).

(** [merged.add(producer)] *)
Definition merged_add (p : Producer) : M Transformer unit :=
  modifyState (fun st =>
    mkTransformer (_cdn st) (_alreadyHandled st) (merged st ++ [p])
      (packageJson_local st) (fetchLog st)).

Definition set_packageJson_local (v : option (option PackageJson))
  : M Transformer unit :=
  modifyState (fun st =>
    mkTransformer (_cdn st) (_alreadyHandled st) (merged st) v (fetchLog st)).

(** [await getPackageJson()] *)
Definition callGetPackageJson (g : GetPackageJson)
  : M Transformer (option PackageJson) :=
  match g with
  | ProjectPackageJson settled => ret settled
  | NoPackageJson => ret None
  | DependencyPackageJson location =>
      st <- getState ;;
      match packageJson_local st with
      | Some known => ret known
      | None =>
          fetched <- tryCatch
            (json <- liftCdn (fetchPackageJson (pkg location) (version location)) ;;
             ret (Some json))
            (fun _ => ret None) ;;
          set_packageJson_local (Some fetched) ;;;
          ret fetched
      end
  end.

(** [packageJson?.dependencies?.[pkg]]: the property read finds the
    entry of the object itself and, failing that, the member of that name
    every object inherits. *)
Definition declaredDependency (json : option PackageJson) (name : string)
  : option Js.Value :=
  match json with
  | Some j =>
      match dependencies j with
      | Some deps =>
          match deps !! name with
          | Some v => Some (Js.Str v)
          | None =>
              match Js.inherited name with
              | Some rendered => Some (Js.NotString rendered)
              | None => None
              end
          end
      | None => None
      end
  | None => None
  end.

(** Lines 206-209 of [_transformBareSpecifier]: the version to use.  With
    a version that is not a string, the first [isExactVersion] to run on
    it (the first statement of [_fetch] and of [canonicalize], or the test
    of line 214) throws a TypeError; no state changes before that, so the
    throw is placed here, with the message of [CachingCdn]'s
    [isExactVersion]. *)
Definition _transformBareSpecifier_version (location : NpmFileLocation)
    (getPackageJson : GetPackageJson) : M Transformer string :=
  if String.eqb (version location) EmptyString then
    json <- callGetPackageJson getPackageJson ;;
    match Js.orElse (declaredDependency json (pkg location)) (Js.Str "latest")
    with
    | Js.Str v => ret v
    | Js.NotString _ => throw Js.matchIsNotAFunction
    end
  else ret (version location).

(** Lines 210-213 of [_transformBareSpecifier]: the path to use. *)
Definition _transformBareSpecifier_path (pkg version path : string)
  : M Transformer string :=
  if String.eqb path EmptyString then
    packageJson <- liftCdn (fetchPackageJson pkg version) ;;
    ret (Js.orElse (Js.orElseOpt (module packageJson) (main packageJson))
           "index.js")
  else ret path.

Definition _transformBareSpecifier (specifier referrer : string)
    (getPackageJson : GetPackageJson) : M Transformer string :=
  match parseNpmStyleSpecifier specifier with
  | None => throw ("Invalid specifier: " ++ specifier)
  | Some location =>
      v <- _transformBareSpecifier_version location getPackageJson ;;
      p <- _transformBareSpecifier_path (pkg location) v (path location) ;;
      let location := mkLoc (pkg location) v p in
      location <-
        (if String.eqb (fileExtension (path location)) EmptyString
            || negb (isExactVersion (version location))
         then liftCdn (canonicalize location)
         else ret location) ;;
      merged_add (DependencyProducer location) ;;;
      let absolute :=
        "node_modules/" ++ pkg location ++ "@" ++ version location
          ++ "/" ++ path location in
      ret (relativeUrlPath referrer absolute)
  end.

Definition _transformSpecifier (specifier referrer : string)
    (getPackageJson : GetPackageJson) : M Transformer string :=
  match classifySpecifier specifier with
  | KUrl => ret specifier
  | KBare => _transformBareSpecifier specifier referrer getPackageJson
  | KRelative =>
      if negb (Js.startsWith referrer "node_modules/") then ret specifier
      else
        let absolute := resolveUrlPath referrer specifier in
        let bare := Js.slice (String.length "/node_modules/") absolute in
        if String.eqb (fileExtension specifier) EmptyString then
          _transformBareSpecifier bare referrer NoPackageJson
        else
          match parseNpmStyleSpecifier bare with
          | None => throw "wtf"
          | Some location =>
              merged_add (DependencyProducer location) ;;;
              ret specifier
          end
  end.

Definition _makeDiagnostic (message filename : string)
  : option BuildOutput :=
  match LexerError.position message with
  | None => None
  | Some (l, c) =>
      let line := (Z.of_nat l - 1)%Z in
      let character := (Z.of_nat c - 1)%Z in
      Some (DiagnosticBuildOutput filename
              (Out.mkDiagnostic ("es-module-lexer error: " ++ message)
                 (Out.mkRange (Out.mkPos line character)
                              (Out.mkPos line (character + 1)%Z))))
  end.

(** The first loop of [_transformBareModuleSpecifiers], over the
    specifiers it visits, in the order it visits them: each specifier
    with a literal text starts a [_transformSpecifier] call, and the
    entry pushed on [transforms] pairs the specifier with how that call's
    promise settles.  The calls are run one after the other, in the order
    they are started. *)
Fixpoint startTransforms (visited : list Lexer.ImportSpecifier)
    (referrer : string) (getPackageJson : GetPackageJson)
    (st : Transformer)
  : list (Lexer.ImportSpecifier * Res string) * Transformer :=
  match visited with
  | [] => ([], st)
  | info :: rest =>
      match Lexer.n info with
      | None => startTransforms rest referrer getPackageJson st
      | Some oldSpecifier =>
          let '(settled, st') :=
            _transformSpecifier oldSpecifier referrer getPackageJson st in
          let '(transforms, st'') :=
            startTransforms rest referrer getPackageJson st' in
          ((info, settled) :: transforms, st'')
      end
  end.

(** One iteration of the second loop: [js] is the text so far; the
    result is the new text and what the iteration yields. *)
Definition applyTransform (filename : string)
    (t : Lexer.ImportSpecifier * Res string) (js : string)
  : string * list BuildOutput :=
  let '(info, settled) := t in
  let oldSpecifier := Js.orElse (Lexer.n info) EmptyString in
  match settled with
  | Throw m =>
      (js,
       [DiagnosticBuildOutput filename
          (Out.mkDiagnostic
             ("Could not resolve module " ++ Js.quote ++ oldSpecifier
                ++ Js.quote ++ ": " ++ m)
             (Out.mkRange (posOf js (Lexer.s info))
                          (posOf js (Lexer.e info))))])
  | Ok newSpecifier =>
      if String.eqb newSpecifier oldSpecifier then (js, [])
      else
        let isDynamic := negb (Z.eqb (Lexer.d info) (-1)) in
        let replacement :=
          if isDynamic then "'" ++ newSpecifier ++ "'" else newSpecifier in
        (Js.substring 0 (Lexer.s info) js ++ replacement
           ++ Js.slice (Lexer.e info) js,
         [])
  end.

(** The second loop, over the entries in the order it visits them. *)
Fixpoint applyTransforms (filename : string)
    (visited : list (Lexer.ImportSpecifier * Res string)) (js : string)
  : string * list BuildOutput :=
  match visited with
  | [] => (js, [])
  | t :: rest =>
      let '(js', out) := applyTransform filename t js in
      let '(js'', outs) := applyTransforms filename rest js' in
      (js'', (out ++ outs)%list)
  end.

(** [_transformBareModuleSpecifiers]: what it yields, in order.  The
    first loop runs [i] from [specifiers.length - 1] down to 0 and pushes,
    so it visits [rev specifiers]; the second loop runs [i] from
    [transforms.length - 1] down to 0, so it visits [rev transforms]. *)
Definition _transformBareModuleSpecifiers (file : Out.File)
    (getPackageJson : GetPackageJson) (st : Transformer)
  : list BuildOutput * Transformer :=
  let js := Out.content file in
  match esModuleLexer_parse js with
  | Throw m =>
      (FileBuildOutput file ::
         match _makeDiagnostic m (Out.name file) with
         | Some diagnostic => [diagnostic]
         | None => []
         end,
       st)
  | Ok specifiers =>
      let '(transforms, st') :=
        startTransforms (rev specifiers) (Out.name file) getPackageJson st in
      let '(js', diagnostics) :=
        applyTransforms (Out.name file) (rev transforms) js in
      ((diagnostics ++
          [FileBuildOutput
             (Out.mkFile (Out.name file) js' (Out.contentType file))])%list,
       st')
  end.

Definition _handleDependency (location : NpmFileLocation)
    (st : Transformer) : list BuildOutput * Transformer :=
  let key := dependencyKey location in
  if decide (key ∈ _alreadyHandled st) then ([], st)
  else
    let handled := _alreadyHandled st ∪ {[key]} in
    match cdn_fetch location (_cdn st) with
    | (Throw _, cdn') =>
        ([], mkTransformer cdn' handled (merged st) (packageJson_local st)
               (fetchLog st ++ [(key, false)]))
    | (Ok asset, cdn') =>
        _transformBareModuleSpecifiers
          (Out.mkFile
             ("node_modules/" ++ pkg location ++ "@" ++ version location
                ++ "/" ++ path location)
             (content asset) (Some (contentType asset)))
          (DependencyPackageJson location)
          (mkTransformer cdn' handled (merged st) None
             (fetchLog st ++ [(key, true)]))
    end.

(** [Deferred<PackageJson | undefined>] of deferred.ts: unresolved, or
    resolved with the value of the first [resolve] (a promise settles
    once). *)
Definition Deferred_resolve {A} (v : A) (d : option A) : option A :=
  match d with
  | None => Some v
  | Some first => Some first
  end.

Definition isJsFile (result : BuildOutput) : option Out.File :=
  match result with
  | FileBuildOutput f =>
      if Js.endsWith (Out.name f) ".js" then Some f else None
  | DiagnosticBuildOutput _ _ => None
  end.

Definition isPackageJsonFile (result : BuildOutput) : option Out.File :=
  match result with
  | FileBuildOutput f =>
      if String.eqb (Out.name f) "package.json" then Some f else None
  | DiagnosticBuildOutput _ _ => None
  end.

Definition notJs (result : BuildOutput) : bool :=
  match isJsFile result with Some _ => false | None => true end.

(** No package.json artifact among [results] parses as JSON. *)
Definition unparsable (results : list BuildOutput) : Prop :=
  forall f, In (FileBuildOutput f) results ->
            Out.name f = "package.json" ->
            JSON_parse (Out.content f) = None.

(** The loop of [_process]: what it yields, the JavaScript files it hands
    to [_transformBareModuleSpecifiers], and the deferred [packageJson]. *)
Fixpoint _process_loop (results : list BuildOutput)
    (packageJson : option (option PackageJson))
  : list BuildOutput * list Out.File * option (option PackageJson) :=
  match results with
  | [] => ([], [], packageJson)
  | result :: rest =>
      match isJsFile result with
      | Some f =>
          let '(ys, js, d) := _process_loop rest packageJson in
          (ys, f :: js, d)
      | None =>
          let packageJson' :=
            match isPackageJsonFile result with
            | Some f =>
                match JSON_parse (Out.content f) with
                | Some json => Deferred_resolve (Some json) packageJson
                | None => packageJson
                end
            | None => packageJson
            end in
          let '(ys, js, d) := _process_loop rest packageJson' in
          (result :: ys, js, d)
      end
  end.

(** The value every [await getPackageJson()] of a project file obtains:
    the deferred is resolved with [undefined] after the loop when no
    package.json resolved it. *)
Definition _process_packageJson (results : list BuildOutput)
  : option PackageJson :=
  match _process_loop results None with
  | (_, _, Some v) => v
  | (_, _, None) => None
  end.

Definition _process (results : list BuildOutput) (st : Transformer)
  : list BuildOutput * Transformer :=
  let '(ys, js, _) := _process_loop results None in
  let getPackageJson := ProjectPackageJson (_process_packageJson results) in
  (ys,
   mkTransformer (_cdn st) (_alreadyHandled st)
     (merged st ++ map (fun f => TransformProducer f getPackageJson) js)
     (packageJson_local st) (fetchLog st)).

Definition runProducer (p : Producer) (st : Transformer)
  : list BuildOutput * Transformer :=
  match p with
  | ProcessProducer results => _process results st
  | TransformProducer f g => _transformBareModuleSpecifiers f g st
  | DependencyProducer location => _handleDependency location st
  end.

(** The merged stream.  Each producer added to [merged] is drained in one
    go; [yielded] lists, in the order they were drained, the producers
    and what each yielded. *)
Record Run := mkRun {
  this : Transformer;
  yielded : list (Producer * list BuildOutput)
}.

Definition with_merged (st : Transformer) (m : list Producer) : Transformer :=
  mkTransformer (_cdn st) (_alreadyHandled st) m (packageJson_local st)
    (fetchLog st).

(** One step drains any one of the pending producers. *)
Inductive step : Run -> Run -> Prop :=
| step_drain (run : Run) (before after : list Producer) (p : Producer)
    (outs : list BuildOutput) (st' : Transformer) :
    merged (this run) = (before ++ p :: after)%list ->
    runProducer p (with_merged (this run) (before ++ after)) = (outs, st') ->
    step run (mkRun st' (yielded run ++ [(p, outs)])).

Inductive steps : Run -> Run -> Prop :=
| steps_refl run : steps run run
| steps_next run1 run2 run3 : steps run1 run2 -> step run2 run3 -> steps run1 run3.

(** [process(results)] just after [merged.add(this._process(results,
    merged))]. *)
Definition process_start (cdn : CachingCdn) (results : list BuildOutput)
  : Run :=
  mkRun (with_merged (newTransformer cdn) [ProcessProducer results]) [].

(** The schedule that always drains the oldest pending producer. *)
Fixpoint drain (fuel : nat) (run : Run) : Run :=
  match fuel with
  | 0 => run
  | S fuel' =>
      match merged (this run) with
      | [] => run
      | p :: after =>
          let '(outs, st') := runProducer p (with_merged (this run) after) in
          drain fuel' (mkRun st' (yielded run ++ [(p, outs)]))
      end
  end.

(** The names of the files among some outputs. *)
Definition fileNames (outs : list BuildOutput) : list string :=
  omap (fun o => match o with
                 | FileBuildOutput f => Some (Out.name f)
                 | DiagnosticBuildOutput _ _ => None
                 end) outs.

(** The names of the files the [_handleDependency] producers have
    yielded, in the order they were yielded. *)
Definition dependencyFiles (run : Run) : list string :=
  flat_map (fun entry : Producer * list BuildOutput =>
              match fst entry with
              | DependencyProducer _ => fileNames (snd entry)
              | _ => []
              end)
           (yielded run).

(** The keys [_handleDependency] fetched successfully, oldest first. *)
Definition fetchedKeys (st : Transformer) : list string :=
  map fst (List.filter snd (fetchLog st)).

(** The specifier has a literal text, so a transform is started for it. *)
Definition isLiteral (info : Lexer.ImportSpecifier) : bool :=
  match Lexer.n info with Some _ => true | None => false end.

(** A computation that leaves [_alreadyHandled] and [fetchLog] alone. *)
Definition keepsHandled {A} (c : M Transformer A) : Prop :=
  forall st,
    _alreadyHandled (snd (c st)) = _alreadyHandled st
    /\ fetchLog (snd (c st)) = fetchLog st.

(** Every dependency [_handleDependency] was run on so far is handled. *)
Definition reachedHandled (run : Run) : Prop :=
  forall location outs,
    In (DependencyProducer location, outs) (yielded run) ->
    dependencyKey location ∈ _alreadyHandled (this run).

(** What holds of every run: no key was fetched twice, the handled keys
    are the fetched ones, and the dependency files yielded are those of
    the keys fetched successfully, in that order. *)
Definition handledOnce (run : Run) : Prop :=
  NoDup (map fst (fetchLog (this run)))
  /\ (forall key, key ∈ _alreadyHandled (this run)
                  <-> In key (map fst (fetchLog (this run))))
  /\ dependencyFiles run
     = map (fun key => "node_modules/" ++ key) (fetchedKeys (this run)).

(** Everything the merged stream has yielded. *)
Definition outputs (run : Run) : list BuildOutput :=
  concat (map snd (yielded run)).

Definition process (fuel : nat) (cdn : CachingCdn)
    (results : list BuildOutput) : Run :=
  drain fuel (process_start cdn results).

End BareModuleTransformer.

(** ** JavaScript objects and [Map]s whose iteration order is observable:
    entries in insertion order, a key occurring once. *)

Module Obj.

Fixpoint get {V} (k : string) (o : list (string * V)) : option V :=
  match o with
  | [] => None
  | (k', v) :: rest => if String.eqb k' k then Some v else get k rest
  end.

(** [o[k] = v], [map.set(k, v)]: an existing key keeps its place. *)
Fixpoint set {V} (k : string) (v : V) (o : list (string * V))
  : list (string * V) :=
  match o with
  | [] => [(k, v)]
  | (k', v') :: rest =>
      if String.eqb k' k then (k, v) :: rest else (k', v') :: set k v rest
  end.

(** [o[k] = v] on an object literal, for a string [v]: as [set], except
    that assigning a string to [__proto__] changes nothing. *)
Definition assign (k v : string) (o : list (string * string))
  : list (string * string) :=
  if String.eqb k "__proto__" then o else set k v o.

End Obj.

(** ** node-modules-layout-maker.ts *)

(** [NodeModulesDirectory]: an object from package names to
    [{version, nodeModules}].  [Entry pkg version nodeModules rest] is the
    object whose first entry is [pkg] and whose other entries are [rest]. *)
Inductive NodeModulesDirectory :=
| Empty
| Entry (pkg version : string) (nodeModules rest : NodeModulesDirectory).

Module Layout.

(** Modelled from the spec: a placement.  The directory, given by the
    packages one descends through, innermost first (the top-level directory is [[]]); the
    package placed there; and its version. *)
Definition Placement : Type := list string * string * string.

Definition PackageDependencies : Type := list (string * string).
Definition DependencyGraph : Type :=
  list (string * list (string * PackageDependencies)).

(** Modelled from the spec: two placements are in one directory. *)
Definition sameDir (a b : list string) : bool :=
  bool_decide (a = b).

(** Modelled from the spec: the version [D] is placed at in directory
    [dir], if any. *)
Fixpoint placedIn (L : list Placement) (dir : list string) (D : string)
  : option string :=
  match L with
  | [] => None
  | (dir', p, v) :: rest =>
      if sameDir dir' dir && String.eqb p D then Some v
      else placedIn rest dir D
  end.

(** Modelled from the spec: the version of [D] found walking upward from
    directory [dir] to the top-level directory. *)
Fixpoint placedAbove (L : list Placement) (dir : list string) (D : string)
  : option string :=
  match placedIn L dir D with
  | Some v => Some v
  | None =>
      match dir with
      | [] => None
      | _ :: parent => placedAbove L parent D
      end
  end.

(** The dependencies the graph records for [P@v]. *)
Definition edges (graph : DependencyGraph) (P v : string)
  : PackageDependencies :=
  match Obj.get P graph with
  | Some versions => Js.orElse (Obj.get v versions) []
  | None => []
  end.

(** Modelled from the spec: a root dependency is placed in the top-level
    directory. *)
Definition placeRoot (L : list Placement) (d : string * string)
  : list Placement :=
  match placedIn L [] (fst d) with
  | Some _ => L
  | None => (L ++ [([], fst d, snd d)])%list
  end.

(** Modelled from the spec: the hoist-or-nest pass of
    [NodeModulesLayoutMaker.layout] (node-modules-layout-maker.ts is not
    among the sources).  [visit fuel graph dir P v L] handles the edges of
    [P@v], which is placed in directory [dir].  For an edge to [D@dv]: when
    [D] is placed on the path from the root to [P] at version [dv],
    nothing is placed; when it is placed there at another version, [D@dv]
    is nested directly under [P]; when it is not placed there at all, it
    is hoisted to the top-level directory.  A newly placed package has its
    own edges handled in turn; [fuel] bounds that descent. *)
Fixpoint visit (fuel : nat) (graph : DependencyGraph) (dir : list string)
    (P v : string) (L : list Placement) : list Placement :=
  match fuel with
  | 0 => L
  | S fuel' =>
      fold_left
        (fun L (edge : string * string) =>
           let '(D, dv) := edge in
           match placedAbove L dir D with
           | None => visit fuel' graph [] D dv (L ++ [([], D, dv)])%list
           | Some placed =>
               if String.eqb placed dv then L
               else visit fuel' graph (P :: dir) D dv
                      (L ++ [(P :: dir, D, dv)])%list
           end)
        (edges graph P v) L
  end.

(** Modelled from the spec: every root dependency is placed in the
    top-level directory, then the edges are followed from each of them. *)
Definition placements (fuel : nat) (rootDependencies : PackageDependencies)
    (graph : DependencyGraph) : list Placement :=
  fold_left
    (fun L (d : string * string) => visit fuel graph [] (fst d) (snd d) L)
    rootDependencies
    (fold_left placeRoot rootDependencies []).

(** Modelled from the spec: the directory tree of a list of placements,
    down to [depth] levels. *)
Fixpoint toDirectory (depth : nat) (L : list Placement) (dir : list string)
  : NodeModulesDirectory :=
  match depth with
  | 0 => Empty
  | S depth' =>
      fold_right
        (fun (pl : Placement) rest =>
           let '(dir', p, v) := pl in
           if sameDir dir' dir
           then Entry p v (toDirectory depth' L (p :: dir)) rest
           else rest)
        Empty L
  end.

(** Modelled from the spec: [NodeModulesLayoutMaker.layout].  A placement
    [n] levels deep needs [n] placements above it, so [length L] levels
    hold every placement. *)
Definition layout (fuel : nat) (rootDependencies : PackageDependencies)
    (graph : DependencyGraph) : NodeModulesDirectory :=
  let L := placements fuel rootDependencies graph in
  toDirectory (length L) L [].

End Layout.

(** ** types-fetcher.ts *)

Module Types.

(** [Result<string, number>] of shared/util.ts *)
Inductive Result :=
| Fetched (result : string)
| Failed (error : nat).

(** The [getPackageJson] functions the fetcher passes around: the one its
    caller supplies, whose promise resolves to a fixed value or rejects
    with a fixed message, and the closure [getPackageJson2] of a
    [_handleBareSpecifier] call, which owns the local variable
    [packageJson2], here the cell [cell] of the store
    [packageJson2_locals]. *)
Inductive GetPackageJson :=
| Supplied (value : option PackageJson)
| Rejecting (message : string)
| GetPackageJson2 (cell : nat) (pkg version : string).

(** The fields of a [TypesFetcher].  [_specifierToFetchResult] holds, per
    specifier and in insertion order, what its deferred result settles
    to; [_entrypointTasks] holds how each task settles;
    [packageJson2_locals] holds the [packageJson2] variables of the
    [_handleBareSpecifier] calls made so far, [None] standing for the
    initial [null]. *)
Record TypesFetcher := mkTypesFetcher {
  _cdn : CachingCdn;
  _entrypointTasks : list (Res unit);
  _handledSpecifiers : gset string;
  _specifierToFetchResult : list (string * Result);
  _rootDependencies : Layout.PackageDependencies;
  _dependencyGraph : Layout.DependencyGraph;
  packageJson2_locals : list (option (option PackageJson))
}.

Definition newTypesFetcher (cdn : CachingCdn) : TypesFetcher :=
  mkTypesFetcher cdn [] ∅ [] [] [] [].

(** A computation of the crawl: [None] when the bound on the depth of the
    crawl is reached before it finishes. *)
Definition Crawl (A : Type) : Type :=
  TypesFetcher -> option (Res A * TypesFetcher).

Definition cret {A} (a : A) : Crawl A := fun st => Some (Ok a, st).

Definition cbind {A B} (c : Crawl A) (k : A -> Crawl B) : Crawl B :=
  fun st =>
    match c st with
    | None => None
    | Some (Ok a, st') => k a st'
    | Some (Throw m, st') => Some (Throw m, st')
    end.

Definition ctryCatch {A} (c : Crawl A) (h : string -> Crawl A) : Crawl A :=
  fun st =>
    match c st with
    | None => None
    | Some (Ok a, st') => Some (Ok a, st')
    | Some (Throw m, st') => h m st'
    end.

Definition lift {A} (c : M TypesFetcher A) : Crawl A :=
  fun st => Some (c st).

(** How a promise settles: the outcome of a task as a value. *)
Definition settle (c : Crawl unit) : Crawl (Res unit) :=
  fun st =>
    match c st with
    | None => None
    | Some (r, st') => Some (Ok r, st')
    end.

Notation "x <~ c ;; k" := (cbind c (fun x => k))
  (at level 100, c at next level, right associativity) : js_scope.

Section TypesFetcher.
Context {U : UtilOps} {P : Platform}.

Definition liftCdn {A} (c : M CachingCdn A) : M TypesFetcher A :=
  fun st =>
    let '(r, cdn') := c (_cdn st) in
    (r, mkTypesFetcher cdn' (_entrypointTasks st) (_handledSpecifiers st)
          (_specifierToFetchResult st) (_rootDependencies st)
          (_dependencyGraph st) (packageJson2_locals st)).

Definition specifierOf (l : NpmFileLocation) : string :=
  pkg l ++ "@" ++ version l ++ "/" ++ path l.

(** [_addDependency(from, to)] on the two objects it updates.  The reads
    [this._dependencyGraph[from.pkg]] and [fromVersions[from.version]]
    find the entry of the object itself and, failing that, the member of
    that name every object inherits; what is found then is not undefined,
    nothing is created in its place, and the writes that follow land on
    the inherited member (where they are not followed here), not on the
    graph. *)
Definition addDependency (from : option NpmFileLocation)
    (to : NpmFileLocation)
    (root : Layout.PackageDependencies) (graph : Layout.DependencyGraph)
  : Layout.PackageDependencies * Layout.DependencyGraph :=
  match from with
  | None => (Obj.assign (pkg to) (version to) root, graph)
  | Some from =>
      match Obj.get (pkg from) graph, Js.inherited (pkg from) with
      | None, Some _ => (root, graph)
      | found, _ =>
          let fromVersions := Js.orElse found [] in
          match
            Obj.get (version from) fromVersions,
            Js.inherited (version from)
          with
          | None, Some _ => (root, Obj.set (pkg from) fromVersions graph)
          | found, _ =>
              let deps := Js.orElse found [] in
              (root,
               Obj.set (pkg from)
                 (Obj.set (version from)
                    (Obj.assign (pkg to) (version to) deps) fromVersions)
                 graph)
          end
      end
  end.

Definition _addDependency (from : option NpmFileLocation)
    (to : NpmFileLocation) : M TypesFetcher unit :=
  modifyState (fun st =>
    let '(root, graph) :=
      addDependency from to (_rootDependencies st) (_dependencyGraph st) in
    mkTypesFetcher (_cdn st) (_entrypointTasks st) (_handledSpecifiers st)
      (_specifierToFetchResult st) root graph (packageJson2_locals st)).

Definition setFetchResult (specifier : string) (r : Result)
  : M TypesFetcher unit :=
  modifyState (fun st =>
    mkTypesFetcher (_cdn st) (_entrypointTasks st) (_handledSpecifiers st)
      (Obj.set specifier r (_specifierToFetchResult st))
      (_rootDependencies st) (_dependencyGraph st)
      (packageJson2_locals st)).

(** [if (referrerSpecifier !== null) referrerSpecifier = await
this._cdn.canonicalize(referrerSpecifier)] *)
Definition canonicalizeReferrer (referrerSpecifier : option NpmFileLocation)
  : M TypesFetcher (option NpmFileLocation) :=
  match referrerSpecifier with
  | Some r => r' <- liftCdn (canonicalize r) ;; ret (Some r')
  | None => ret None
  end.

Definition _fetchAndAddToOutputFiles (location : NpmFileLocation)
    (referrerSpecifier : option NpmFileLocation) : M TypesFetcher Result :=
  location <- liftCdn (canonicalize location) ;;
  referrerSpecifier <- canonicalizeReferrer referrerSpecifier ;;
  let specifier := specifierOf location in
  st <- getState ;;
  match Obj.get specifier (_specifierToFetchResult st) with
  | Some settled => ret settled
  | None =>
      _addDependency referrerSpecifier location ;;;
      r <- tryCatch
             (f <- liftCdn (cdn_fetch location) ;; ret (Fetched (content f)))
             (fun _ => ret (Failed 404)) ;;
      setFetchResult specifier r ;;;
      ret r
  end.

(** [this._handledSpecifiers.has(key)], and [add(key)] when it is not. *)
Definition claim (key : string) : M TypesFetcher bool :=
  fun st =>
    if decide (key ∈ _handledSpecifiers st) then (Ok false, st)
    else
      (Ok true,
       mkTypesFetcher (_cdn st) (_entrypointTasks st)
         (_handledSpecifiers st ∪ {[key]}) (_specifierToFetchResult st)
         (_rootDependencies st) (_dependencyGraph st)
         (packageJson2_locals st)).

(** A fresh [packageJson2] variable, initially [null]. *)
Definition newPackageJson2 : M TypesFetcher nat :=
  fun st =>
    (Ok (length (packageJson2_locals st)),
     mkTypesFetcher (_cdn st) (_entrypointTasks st) (_handledSpecifiers st)
       (_specifierToFetchResult st) (_rootDependencies st)
       (_dependencyGraph st) (packageJson2_locals st ++ [None])).

Definition setPackageJson2 (cell : nat) (v : option PackageJson)
  : M TypesFetcher unit :=
  modifyState (fun st =>
    mkTypesFetcher (_cdn st) (_entrypointTasks st) (_handledSpecifiers st)
      (_specifierToFetchResult st) (_rootDependencies st)
      (_dependencyGraph st)
      (<[cell := Some v]> (packageJson2_locals st))).

Definition pushEntrypointTask (r : Res unit) : M TypesFetcher unit :=
  modifyState (fun st =>
    mkTypesFetcher (_cdn st) (_entrypointTasks st ++ [r])
      (_handledSpecifiers st) (_specifierToFetchResult st)
      (_rootDependencies st) (_dependencyGraph st)
      (packageJson2_locals st)).

(** [await getPackageJson()] *)
Definition callGetPackageJson (g : GetPackageJson)
  : M TypesFetcher (option PackageJson) :=
  match g with
  | Supplied value => ret value
  | Rejecting message => throw message
  | GetPackageJson2 cell pkg version =>
      st <- getState ;;
      match packageJson2_locals st !! cell with
      | Some (Some known) => ret known
      | _ =>
          fetched <- tryCatch
            (json <- liftCdn (fetchPackageJson pkg version) ;;
             ret (Some json))
            (fun _ => ret None) ;;
          setPackageJson2 cell fetched ;;;
          ret fetched
      end
  end.

(** [packageJson?.dependencies?.[pkg]]: the property read finds the
    entry of the object itself and, failing that, the member of that name
    every object inherits. *)
Definition declaredDependency (json : option PackageJson) (name : string)
  : option Js.Value :=
  match json with
  | Some j =>
      match dependencies j with
      | Some deps =>
          match deps !! name with
          | Some v => Some (Js.Str v)
          | None =>
              match Js.inherited name with
              | Some rendered => Some (Js.NotString rendered)
              | None => None
              end
          end
      | None => None
      end
  | None => None
  end.

(** [isExactVersion(location.version)], the first statement of
    [canonicalize] and so of [_fetchAndAddToOutputFiles], throws a
    TypeError on a version that is not a string. *)
Definition requireString (v : Js.Value) : M TypesFetcher unit :=
  match v with
  | Js.Str _ => ret tt
  | Js.NotString _ => throw Js.matchIsNotAFunction
  end.

(** [packageJson?.typings ?? packageJson?.types ?? (main with a d.ts
    extension) ?? 'index.d.ts'] *)
Definition discoverDtsPath (packageJson : option PackageJson) : string :=
  match packageJson with
  | Some j =>
      Js.orElse
        (Js.orElseOpt (typings j)
           (Js.orElseOpt (types j)
              (match main j with
               | Some m => Some (changeFileExtension m "d.ts")
               | None => None
               end)))
        "index.d.ts"
  | None => "index.d.ts"
  end.

(** The body of [_handleBareSpecifier], given what its call of
    [_handleBareAndRelativeSpecifiers] does. *)
Definition _handleBareSpecifier_with
    (recurse : string -> option NpmFileLocation -> GetPackageJson -> Crawl unit)
    (bare : string) (referrerSpecifier : option NpmFileLocation)
    (getPackageJson : GetPackageJson) : Crawl unit :=
  match parseNpmStyleSpecifier bare with
  | None => cret tt
  | Some npm =>
      found <~ lift
        (if String.eqb (version npm) EmptyString then
           json <- callGetPackageJson getPackageJson ;;
           ret (Js.orElse (declaredDependency json (pkg npm))
                  (Js.Str "latest"))
         else ret (Js.Str (version npm))) ;;
      let pkg := pkg npm in
      let v := Js.text found in
      let key := pkg ++ "@" ++ v ++ "/" ++ path npm in
      fresh <~ lift (claim key) ;;
      if negb fresh then cret tt
      else
        (* [None] when the catch clause returns *)
        dtsPath <~ lift
          (if String.eqb (path npm) EmptyString then
             tryCatch
               (requireString found ;;;
                res <- _fetchAndAddToOutputFiles
                         (mkLoc pkg v "package.json") referrerSpecifier ;;
                packageJson <-
                  match res with
                  | Fetched text =>
                      match JSON_parse text with
                      | Some j => ret (Some j)
                      | None => throw "JSON.parse"
                      end
                  | Failed _ => ret None
                  end ;;
                ret (Some (discoverDtsPath packageJson)))
               (fun _ => ret None)
           else ret (Some (changeFileExtension (path npm) "d.ts"))) ;;
        match dtsPath with
        | None => cret tt
        | Some dtsPath =>
            let dtsSpecifier := pkg ++ "@" ++ v ++ "/" ++ dtsPath in
            fresh <~ lift (claim dtsSpecifier) ;;
            if negb fresh then cret tt
            else
              dtsResult <~ lift
                (tryCatch
                   (requireString found ;;;
                    r <- _fetchAndAddToOutputFiles
                           (mkLoc pkg v dtsPath) referrerSpecifier ;;
                    ret (Some r))
                   (fun _ => ret None)) ;;
              match dtsResult with
              | None => cret tt
              | Some (Failed _) => cret tt
              | Some (Fetched text) =>
                  cell <~ lift newPackageJson2 ;;
                  recurse text (Some (mkLoc pkg v dtsPath))
                    (GetPackageJson2 cell pkg v)
              end
        end
  end.

(** The body of [_handleRelativeSpecifier]; [referrerSpecifier!] throws
    a TypeError on [null]. *)
Definition _handleRelativeSpecifier_with
    (recurse : string -> option NpmFileLocation -> GetPackageJson -> Crawl unit)
    (relative : string) (referrerSpecifier : option NpmFileLocation)
    (getPackageJson : GetPackageJson) : Crawl unit :=
  match referrerSpecifier with
  | None => lift (throw "Cannot read properties of null (reading 'path')")
  | Some referrer =>
      let jsPath := Js.slice 1 (resolveUrlPath (path referrer) relative) in
      let dtsPath := changeFileExtension jsPath "d.ts" in
      let dtsSpecifier := pkg referrer ++ "/" ++ dtsPath in
      fresh <~ lift (claim dtsSpecifier) ;;
      if negb fresh then cret tt
      else
        dtsResult <~ lift
          (tryCatch
             (r <- _fetchAndAddToOutputFiles
                     (mkLoc (pkg referrer) (version referrer) dtsPath)
                     referrerSpecifier ;;
              ret (Some r))
             (fun _ => ret None)) ;;
        match dtsResult with
        | None => cret tt
        | Some (Failed _) => cret tt
        | Some (Fetched text) =>
            recurse text
              (Some (mkLoc (pkg referrer) (version referrer) dtsPath))
              getPackageJson
        end
  end.

(** Run the calls of a loop one after the other and collect how their
    promises settle. *)
Fixpoint startAll {A} (f : A -> Crawl (list (Res unit))) (l : list A)
  : Crawl (list (Res unit)) :=
  match l with
  | [] => cret []
  | a :: rest =>
      rs <~ f a ;;
      rs' <~ startAll f rest ;;
      cret (rs ++ rs')%list
  end.

(** [await Promise.all(promises)] on settled promises. *)
Fixpoint promiseAll (promises : list (Res unit)) : Res unit :=
  match promises with
  | [] => Ok tt
  | Ok _ :: rest => promiseAll rest
  | Throw m :: _ => Throw m
  end.

Definition awaitAll (promises : list (Res unit)) : Crawl unit :=
  fun st => Some (promiseAll promises, st).

Definition libSpecifier (lib : string) : string :=
  "typescript/lib/lib." ++ Js.toLowerCase lib ++ ".js".

(** The public [addLibTypings], given [_handleBareAndRelativeSpecifiers]:
    the task is started and pushed on [_entrypointTasks]. *)
Definition addLibTypings_with
    (recurse : string -> option NpmFileLocation -> GetPackageJson -> Crawl unit)
    (lib : string) (getPackageJson : GetPackageJson) : Crawl unit :=
  r <~ settle (_handleBareSpecifier_with recurse (libSpecifier lib) None
                 getPackageJson) ;;
  lift (pushEntrypointTask r).

(** [fuel] bounds how deep the crawl descends into fetched files. *)
Fixpoint _handleBareAndRelativeSpecifiers (fuel : nat) (sourceText : string)
    (referrerSpecifier : option NpmFileLocation)
    (getPackageJson : GetPackageJson) : Crawl unit :=
  match fuel with
  | 0 => fun _ => None
  | S fuel' =>
      let recurse := _handleBareAndRelativeSpecifiers fuel' in
      let fileInfo := ts_preProcessFile sourceText (Some true) false in
      promises <~ startAll
        (fun specifier =>
           match classifySpecifier specifier with
           | KBare =>
               r <~ settle (_handleBareSpecifier_with recurse specifier
                              referrerSpecifier getPackageJson) ;;
               cret [r]
           | KRelative =>
               r <~ settle (_handleRelativeSpecifier_with recurse specifier
                              referrerSpecifier getPackageJson) ;;
               cret [r]
           | KUrl => cret []
           end)
        (importedFiles fileInfo) ;;
      _ <~ startAll
        (fun lib =>
           _ <~ addLibTypings_with recurse lib getPackageJson ;;
           cret [])
        (libReferenceDirectives fileInfo) ;;
      awaitAll promises
  end.

Definition _handleBareSpecifier (fuel : nat) :=
  _handleBareSpecifier_with (_handleBareAndRelativeSpecifiers fuel).

Definition _handleRelativeSpecifier (fuel : nat) :=
  _handleRelativeSpecifier_with (_handleBareAndRelativeSpecifiers fuel).

Definition addLibTypings (fuel : nat) :=
  addLibTypings_with (_handleBareAndRelativeSpecifiers fuel).

Definition addBareModuleTypings (fuel : nat) (sourceText : string)
    (getPackageJson : GetPackageJson) : Crawl unit :=
  let fileInfo := ts_preProcessFile sourceText None true in
  _ <~ startAll
    (fun specifier =>
       match classifySpecifier specifier with
       | KBare =>
           r <~ settle (_handleBareSpecifier fuel specifier None
                          getPackageJson) ;;
           _ <~ lift (pushEntrypointTask r) ;;
           cret []
       | _ => cret []
       end)
    (importedFiles fileInfo) ;;
  _ <~ startAll
    (fun lib =>
       _ <~ addLibTypings fuel lib getPackageJson ;;
       cret [])
    (libReferenceDirectives fileInfo) ;;
  cret tt.



(** The loop of [getFiles] that groups the fetched files by
    [pkg@version]; [parseNpmStyleSpecifier(specifier)!] throws a
    TypeError when the specifier does not parse. *)
Fixpoint groupByPv (entries : list (string * Result))
    (filesByPv : list (string * list (string * string)))
  : Res (list (string * list (string * string))) :=
  match entries with
  | [] => Ok filesByPv
  | (specifier, Failed _) :: rest => groupByPv rest filesByPv
  | (specifier, Fetched text) :: rest =>
      match parseNpmStyleSpecifier specifier with
      | None => Throw "Cannot destructure property 'pkg' of undefined"
      | Some l =>
          let pv := pkg l ++ "@" ++ version l in
          let arr := Js.orElse (Obj.get pv filesByPv) [] in
          groupByPv rest
            (Obj.set pv (arr ++ [(path l, text)])%list filesByPv)
      end
  end.

(** The inner loop of [_buildFiles] over the files of one package. *)
Fixpoint writeFiles (dir : string) (files : list (string * string))
    (results : list (string * string)) : list (string * string) :=
  match files with
  | [] => results
  | (path, content) :: rest =>
      writeFiles dir rest (Obj.set (dir ++ path) content results)
  end.

Fixpoint _buildFiles (filesByPv : list (string * list (string * string)))
    (layout : NodeModulesDirectory) (results : list (string * string))
    (prefix : string) : list (string * string) :=
  match layout with
  | Empty => results
  | Entry pkg version nested rest =>
      let prefix' := if String.eqb prefix EmptyString then prefix else prefix ++ "/" in
      let pv := pkg ++ "@" ++ version in
      let files := Js.orElse (Obj.get pv filesByPv) [] in
      let results := writeFiles (prefix' ++ pkg ++ "/") files results in
      let results :=
        _buildFiles filesByPv nested results
          (prefix' ++ pkg ++ "/node_modules") in
      _buildFiles filesByPv rest results prefix
  end.

(** [getFiles], on a fetcher whose tasks have settled; [layoutFuel] is
    the bound handed to the layout. *)
Definition getFiles (layoutFuel : nat) (st : TypesFetcher)
  : Res (list (string * string)) :=
  match promiseAll (_entrypointTasks st) with
  | Throw m => Throw m
  | Ok _ =>
      match groupByPv (_specifierToFetchResult st) [] with
      | Throw m => Throw m
      | Ok filesByPv =>
          Ok (_buildFiles filesByPv
                (Layout.layout layoutFuel (_rootDependencies st)
                   (_dependencyGraph st))
                [] EmptyString)
      end
  end.

End TypesFetcher.
End Types.

(** ** util.ts as the specification describes it *)

Module SpecUtil.

Definition chars := list_ascii_of_string.
Definition str := string_of_list_ascii.

(** Modelled from the spec: the segments of a path between its slashes. *)
Definition segments (s : string) : list string :=
  map str (Semver.splitAll "/"%char (chars s)).

(** Modelled from the spec: the path made of some segments. *)
Definition join (l : list string) : string := String.concat "/" l.

(** Modelled from the spec: the text before the first of the characters
    [@] and [/], and the rest from that character on. *)
Fixpoint takeName (s : list ascii) : list ascii * list ascii :=
  match s with
  | [] => ([], [])
  | c :: r =>
      if Ascii.eqb c "@"%char || Ascii.eqb c "/"%char then ([], s)
      else let '(a, b) := takeName r in (c :: a, b)
  end.

(** Modelled from the spec: [name[@version][/path]] after an optional
    scope [prefix]. *)
Definition parseUnscoped (prefix : list ascii) (s : list ascii)
  : option NpmFileLocation :=
  match takeName s with
  | ([], _) => None
  | (name, []) => Some (mkLoc (str (prefix ++ name)) EmptyString EmptyString)
  | (name, c :: r) =>
      if Ascii.eqb c "/"%char
      then Some (mkLoc (str (prefix ++ name)) EmptyString (str r))
      else
        match Semver.splitFirst "/"%char r with
        | ([], _) => None
        | (v, None) => Some (mkLoc (str (prefix ++ name)) (str v) EmptyString)
        | (v, Some p) => Some (mkLoc (str (prefix ++ name)) (str v) (str p))
        end
  end.

(** Modelled from the spec: [parseNpmStyleSpecifier] of util.ts accepts
    [[@scope/]name[@version][/path]]; a scoped name takes exactly one more
    segment before a possible version; malformed input gives
    [undefined]. *)
Definition parseNpmStyleSpecifier (spec : string) : option NpmFileLocation :=
  match chars spec with
  | "@"%char :: r =>
      match takeName r with
      | (c :: scope, "/"%char :: r') =>
          parseUnscoped ("@"%char :: c :: scope ++ ["/"%char]) r'
      | _ => None
      end
  | s => parseUnscoped [] s
  end.

(** Modelled from the spec: the file name of a path. *)
Definition lastSegment (s : string) : list ascii :=
  List.last (Semver.splitAll "/"%char (chars s)) [].

(** Modelled from the spec: [fileExtension] of util.ts, a pure path
    utility: the text after the last dot of the last segment, empty when
    that segment has no dot. *)
Definition fileExtension (path : string) : string :=
  match rev (Semver.splitAll "."%char (lastSegment path)) with
  | ext :: _ :: _ => str ext
  | _ => EmptyString
  end.

(** Modelled from the spec: [changeFileExtension] of util.ts swaps the
    extension of a path for another one, and adds it to a path that has
    none. *)
Definition changeFileExtension (path newExt : string) : string :=
  let old := fileExtension path in
  if String.eqb old EmptyString then
    match rev (Semver.splitAll "."%char (lastSegment path)) with
    | _ :: _ :: _ => path ++ newExt
    | _ => path ++ "." ++ newExt
    end
  else
    Js.substring 0 (String.length path - String.length old) path ++ newExt.

(** Modelled from the spec: a character of a URL scheme after its first
    letter. *)
Definition isSchemeChar (c : ascii) : bool :=
  Semver.isDigit c || Semver.isLetter c
  || Ascii.eqb c "+"%char || Ascii.eqb c "-"%char || Ascii.eqb c "."%char.

(** Modelled from the spec: the specifier starts with a URL scheme and a
    colon. *)
Definition hasScheme (s : string) : bool :=
  match Semver.splitFirst ":"%char (chars s) with
  | (c :: r, Some _) => Semver.isLetter c && forallb isSchemeChar r
  | _ => false
  end.

(** Modelled from the spec: [classifySpecifier] of util.ts answers [url]
    for a specifier with a scheme or an absolute URL, [relative] for one
    that starts with [./] or [../], and [bare] otherwise. *)
Definition classifySpecifier (s : string) : SpecifierKind :=
  if hasScheme s || Js.startsWith s "/" then KUrl
  else if Js.startsWith s "./" || Js.startsWith s "../" then KRelative
  else KBare.

(** Modelled from the spec: the segments of a relative URL are walked
    from a directory, given innermost first. *)
Fixpoint walk (dir : list string) (rel : list string) : list string :=
  match rel with
  | [] => dir
  | seg :: rest =>
      if String.eqb seg "." then walk dir rest
      else if String.eqb seg ".." then walk (tail dir) rest
      else walk (seg :: dir) rest
  end.

(** Modelled from the spec: [resolveUrlPath] of util.ts resolves a
    relative URL against the path of the referring file and gives the
    absolute path, with its leading slash. *)
Definition resolveUrlPath (referrer relative : string) : string :=
  "/" ++ join (rev (walk (tail (rev (segments referrer))) (segments relative))).

(** Modelled from the spec: the directories two paths share are dropped;
    the last segment of the second one, the file name, never is. *)
Fixpoint dropCommon (a b : list string) : list string * list string :=
  match a, b with
  | x :: a', y :: b' =>
      match b' with
      | [] => (a, b)
      | _ :: _ => if String.eqb x y then dropCommon a' b' else (a, b)
      end
  | _, _ => (a, b)
  end.

(** Modelled from the spec: [relativeUrlPath] of util.ts gives the URL
    of a file relative to the file that refers to it: [../] for each
    directory to leave, [./] when there is none. *)
Definition relativeUrlPath (referrer target : string) : string :=
  let fromDirs := removelast (segments referrer) in
  let '(up, down) := dropCommon fromDirs (segments target) in
  match up with
  | [] => "./" ++ join down
  | _ => String.concat EmptyString (map (fun _ => "../") up) ++ join down
  end.

(** Modelled from the spec: lines are counted from 0 and end at a line
    feed; the character is the offset within the line. *)
Fixpoint lineAndChar (text : list ascii) (offset line character : nat)
  : Position :=
  match offset, text with
  | S offset', c :: rest =>
      if Ascii.eqb c "010"%char
      then lineAndChar rest offset' (S line) 0
      else lineAndChar rest offset' line (S character)
  | _, _ => mkPos line character
  end.

(** Modelled from the spec: [charToLineAndChar] of util.ts turns a
    character offset into the line and character it falls on. *)
Definition charToLineAndChar (text : string) (offset : nat) : Position :=
  lineAndChar (chars text) offset 0 0.

End SpecUtil.

Definition specUtil : UtilOps := {|
  parseNpmStyleSpecifier := SpecUtil.parseNpmStyleSpecifier;
  fileExtension := SpecUtil.fileExtension;
  changeFileExtension := SpecUtil.changeFileExtension;
  classifySpecifier := SpecUtil.classifySpecifier;
  resolveUrlPath := SpecUtil.resolveUrlPath;
  relativeUrlPath := SpecUtil.relativeUrlPath;
  charToLineAndChar := SpecUtil.charToLineAndChar
|}.


(** ** code-sample-editor.ts: file types *)

Module Editor.

(** [s.indexOf(c)] for a one-character [c]; [None] is -1. *)
Fixpoint indexOf (c : ascii) (s : string) : option nat :=
  match s with
  | EmptyString => None
  | String x r =>
      if Ascii.eqb x c then Some 0 else option_map S (indexOf c r)
  end.

Definition mimeTypeToTypeEnum (mimeType : option string) : option string :=
  match mimeType with
  | None => None
  | Some mimeType =>
      let mimeType :=
        match indexOf ";"%char mimeType with
        | Some encodingSepIndex => Js.substring 0 encodingSepIndex mimeType
        | None => mimeType
        end in
      if String.eqb mimeType "video/mp2t" then Some "ts"
      else if String.eqb mimeType "text/javascript"
              || String.eqb mimeType "application/javascript" then Some "js"
      else if String.eqb mimeType "text/html" then Some "html"
      else if String.eqb mimeType "text/css" then Some "css"
      else None
  end.

Definition typeEnumToMimeType (type : option string) : option string :=
  match type with
  | None => None
  | Some type =>
      if String.eqb type "ts" then Some "video/mp2t"
      else if String.eqb type "js"
      then Some "application/javascript; charset=utf-8"
      else if String.eqb type "html" then Some "text/html; charset=utf-8"
      else if String.eqb type "css" then Some "text/css; charset=utf-8"
      else None
  end.

End Editor.

(** ** playground-service-worker.js: the URLs of sample files *)

Module ServiceWorker.

(** The function the fetch handler applies to the request URL: what
    follows the scope is the session id, a slash, and the file path. *)
Definition parseSampleFileUrl (scope url : string)
  : option string * option string :=
  let n := Js.slice (String.length scope) url in
  match Editor.indexOf "/"%char n with
  | None => (None, None)
  | Some s => (Some (Js.substring 0 s n), Some (Js.slice (s + 1) n))
  end.

(** The session and file the fetch handler answers for, if it answers. *)
Definition answered (scope url : string) : option (string * string) :=
  if Js.startsWith url scope then
    match parseSampleFileUrl scope url with
    | (Some sessionId, Some filePath) => Some (sessionId, filePath)
    | _ => None
    end
  else None.

End ServiceWorker.

(** ** Fixtures: a CDN, a JSON reader and parsers given by tables *)

Module Fixture.

Record Tables := mkTables {
  urls : list (string * Response);
  jsons : list (string * PackageJson);
  modules : list (string * list Lexer.ImportSpecifier);
  sources : list (string * PreProcessedFileInfo)
}.

Definition notFound (u : string) : Response :=
  mkResponse 404 u "Not Found" (Some "text/plain").

(** A platform whose CDN answers the listed URLs and 404 otherwise, whose
    [JSON.parse] accepts the listed texts only, and whose parsers find
    the listed imports and none elsewhere. *)
Definition platform (t : Tables) : Platform := {|
  fetch u := Responded (Js.orElse (Obj.get u (urls t)) (notFound u));
  JSON_parse text := Obj.get text (jsons t);
  esModuleLexer_parse text := Ok (Js.orElse (Obj.get text (modules t)) []);
  ts_preProcessFile text _ _ :=
    Js.orElse (Obj.get text (sources t)) (mkFileInfo [] [])
|}.

Definition javascript : option string := Some "text/javascript; charset=utf-8".

(** The answer to a request for [requested] that the CDN serves, after a
    redirect when [final] differs, from [final]. *)
Definition serves (prefix requested final body : string)
  : string * Response :=
  (prefix ++ requested, mkResponse 200 (prefix ++ final) body javascript).

(** The text [import "a";import "b";...] of static imports, one per
    specifier and [separator] after each, with the entries
    es-module-lexer reports for it. *)
Fixpoint importsFrom (offset : nat) (separator : string)
    (specifiers : list string) : string * list Lexer.ImportSpecifier :=
  match specifiers with
  | [] => (EmptyString, [])
  | spec :: rest =>
      let s := offset + 8 in
      let e := s + String.length spec in
      let '(text, entries) :=
        importsFrom (e + 2 + String.length separator) separator rest in
      ("import " ++ Js.quote ++ spec ++ Js.quote ++ ";" ++ separator ++ text,
       Lexer.mk (Some spec) s e (-1) :: entries)
  end.

Definition imports (specifiers : list string) : string :=
  fst (importsFrom 0 EmptyString specifiers).

Definition importEntries (specifiers : list string)
  : string * list Lexer.ImportSpecifier :=
  (imports specifiers, snd (importsFrom 0 EmptyString specifiers)).

Definition importLines (specifiers : list string) : string :=
  fst (importsFrom 0 (String (ascii_of_nat 10) EmptyString) specifiers).

Definition importLineEntries (specifiers : list string)
  : string * list Lexer.ImportSpecifier :=
  (importLines specifiers,
   snd (importsFrom 0 (String (ascii_of_nat 10) EmptyString) specifiers)).

Definition projectFile (name content : string) : BuildOutput :=
  FileBuildOutput (Out.mkFile name content None).

Definition unpkg : string := "https://unpkg.com/".

End Fixture.

(** ** Scenarios: the projects and CDN contents of the test suites *)

Module Scenario.

Definition cdn0 : CachingCdn := newCachingCdn Fixture.unpkg.

(** Package foo is published at 1.0.0 and 2.0.0, each with an index.js;
    the CDN redirects [latest] to 2.0.0 and [^1.0.0] to 1.0.0. *)
Definition fooUrls : list (string * Response) :=
  [ Fixture.serves Fixture.unpkg "foo@latest/index.js" "foo@2.0.0/index.js" "foo2";
    Fixture.serves Fixture.unpkg "foo@^1.0.0/index.js" "foo@1.0.0/index.js" "foo1";
    Fixture.serves Fixture.unpkg "foo@1.0.0/index.js" "foo@1.0.0/index.js" "foo1";
    Fixture.serves Fixture.unpkg "foo@2.0.0/index.js" "foo@2.0.0/index.js" "foo2";
    Fixture.serves Fixture.unpkg "foo@latest/package.json" "foo@2.0.0/package.json" "{}";
    Fixture.serves Fixture.unpkg "foo@^1.0.0/package.json" "foo@1.0.0/package.json" "{}";
    Fixture.serves Fixture.unpkg "foo@1.0.0/package.json" "foo@1.0.0/package.json" "{}";
    Fixture.serves Fixture.unpkg "foo@2.0.0/package.json" "foo@2.0.0/package.json" "{}" ].

Definition fooCdn : Platform :=
  Fixture.platform (Fixture.mkTables fooUrls [] [] []).

(** The project of the tests on the version in the project file: index.js
    imports bare foo; package.json declares foo at ^1.0.0, or is not
    JSON at all. *)
Definition manifestText : string := "{ dependencies: { foo: ^1.0.0 } }".

Definition manifest : PackageJson :=
  mkPackageJson (Some {[ "foo" := "^1.0.0" ]}) None None None None.

Definition versionCdn : Platform :=
  Fixture.platform
    (Fixture.mkTables fooUrls
       [ ("{}", emptyPackageJson); (manifestText, manifest) ]
       [ Fixture.importEntries ["foo"] ]
       []).

Definition versionProject : list BuildOutput :=
  [ Fixture.projectFile "index.js" (Fixture.imports ["foo"]);
    Fixture.projectFile "package.json" manifestText ].

Definition invalidProject : list BuildOutput :=
  [ Fixture.projectFile "index.js" (Fixture.imports ["foo"]);
    Fixture.projectFile "package.json" "INVALID JSON" ].

(** The import loop: foo/index.js imports ./other.js, which imports
    ./index.js. *)
Definition loopCdn : Platform :=
  Fixture.platform
    (Fixture.mkTables
       [ Fixture.serves Fixture.unpkg "foo@latest/index.js"
           "foo@1.0.0/index.js" (Fixture.imports ["./other.js"]);
         Fixture.serves Fixture.unpkg "foo@1.0.0/other.js"
           "foo@1.0.0/other.js" (Fixture.imports ["./index.js"]) ]
       []
       [ Fixture.importEntries ["foo/index.js"];
         Fixture.importEntries ["./other.js"];
         Fixture.importEntries ["./index.js"] ]
       []).

Definition loopProject : list BuildOutput :=
  [ Fixture.projectFile "index.js" (Fixture.imports ["foo/index.js"]) ].

(** Packages foo and bar are published at 1.0.0 and there is no package
non-existent.  One project imports foo/index.js and bar/index.js on one
line; another imports foo/index.js and, on the next line,
non-existent/index.js; a third imports non-existent/index.js only. *)
Definition twoCdn : Platform :=
  Fixture.platform
    (Fixture.mkTables
       [ Fixture.serves Fixture.unpkg "foo@latest/index.js"
           "foo@1.0.0/index.js" "foo1";
         Fixture.serves Fixture.unpkg "bar@latest/index.js"
           "bar@1.0.0/index.js" "bar1" ]
       []
       [ Fixture.importEntries ["foo/index.js"; "bar/index.js"];
         Fixture.importLineEntries ["foo/index.js"; "non-existent/index.js"];
         Fixture.importEntries ["non-existent/index.js"] ]
       []).

Definition twoImports : list BuildOutput :=
  [ Fixture.projectFile "index.js"
      (Fixture.imports ["foo/index.js"; "bar/index.js"]) ].

Definition secondImportFails : list BuildOutput :=
  [ Fixture.projectFile "index.js"
      (Fixture.importLines ["foo/index.js"; "non-existent/index.js"]) ].

Definition onlyImportFails : list BuildOutput :=
  [ Fixture.projectFile "index.js"
      (Fixture.imports ["non-existent/index.js"]) ].

(** What the file of [twoImports] becomes, and what back-to-front
replacement would make of it. *)
Definition twoImportsEmitted : string :=
  "import " ++ Js.quote
    ++ "./node_modules/foo@1.0./node_modules/bar@1.0.0/index.js;import "
    ++ Js.quote ++ "bar/index.js" ++ Js.quote ++ ";".

Definition twoImportsIntended : string :=
  Fixture.imports
    ["./node_modules/foo@1.0.0/index.js"; "./node_modules/bar@1.0.0/index.js"].

Definition notResolved : string :=
  "Could not resolve module " ++ Js.quote ++ "non-existent/index.js"
    ++ Js.quote ++ ": Unpkg 404 error: Not Found".

(** The declaration file foo@1.0.0/index.d.ts imports ./type.js, and the
CDN has foo@1.0.0/type.d.ts. *)
Definition typeCdn : Platform :=
  Fixture.platform
    (Fixture.mkTables
       [ Fixture.serves Fixture.unpkg "foo@1.0.0/type.d.ts"
           "foo@1.0.0/type.d.ts" "export type t = string;" ]
       [] [] []).

Definition fooIndexDts : NpmFileLocation := mkLoc "foo" "1.0.0" "index.d.ts".

(** A source imports foo, which the CDN has at 1.0.0, and
foo@1.0.0/missing.js, which it has not. *)
Definition missingSource : string := "import 'foo'; import 'foo@1.0.0/missing.js';".

Definition missingCdn : Platform :=
  Fixture.platform
    (Fixture.mkTables
       [ Fixture.serves Fixture.unpkg "foo@latest/package.json"
           "foo@1.0.0/package.json" "{}";
         Fixture.serves Fixture.unpkg "foo@1.0.0/index.d.ts"
           "foo@1.0.0/index.d.ts" "declare export const foo: string;" ]
       [ ("{}", emptyPackageJson) ]
       []
       [ (missingSource, mkFileInfo ["foo"; "foo@1.0.0/missing.js"] []) ]).

(** The conflicting versions: the project imports foo and bar and
declares bar at ^1.0.0; foo, at 1.2.3, declares bar at ^2.0.0 and its
index.d.ts imports bar; bar is published at 1.2.3 and 2.3.4. *)
Definition diamondSource : string := "import 'foo'; import 'bar';".
Definition fooDts : string := "declare export * from 'bar';".
Definition fooJson : string := "{ dependencies: { bar: ^2.0.0 } }".
Definition bar1Dts : string := "declare export const bar: 1;".
Definition bar2Dts : string := "declare export const bar: 2;".

Definition diamondCdn : Platform :=
  Fixture.platform
    (Fixture.mkTables
       [ Fixture.serves Fixture.unpkg "foo@latest/package.json"
           "foo@1.2.3/package.json" fooJson;
         Fixture.serves Fixture.unpkg "foo@1.2.3/package.json"
           "foo@1.2.3/package.json" fooJson;
         Fixture.serves Fixture.unpkg "foo@1.2.3/index.d.ts"
           "foo@1.2.3/index.d.ts" fooDts;
         Fixture.serves Fixture.unpkg "bar@^1.0.0/package.json"
           "bar@1.2.3/package.json" "{}";
         Fixture.serves Fixture.unpkg "bar@1.2.3/index.d.ts"
           "bar@1.2.3/index.d.ts" bar1Dts;
         Fixture.serves Fixture.unpkg "bar@^2.0.0/package.json"
           "bar@2.3.4/package.json" "{}";
         Fixture.serves Fixture.unpkg "bar@2.3.4/index.d.ts"
           "bar@2.3.4/index.d.ts" bar2Dts ]
       [ ("{}", emptyPackageJson);
         (fooJson,
          mkPackageJson (Some {[ "bar" := "^2.0.0" ]}) None None None None) ]
       []
       [ (diamondSource, mkFileInfo ["foo"; "bar"] []);
         (fooDts, mkFileInfo ["bar"] []) ]).

Definition diamondManifest : PackageJson :=
  mkPackageJson (Some {[ "bar" := "^1.0.0" ]}) None None None None.

(** The fetcher once the typings of [diamondSource] have been crawled,
and the files it has fetched, by package and version. *)
Definition diamondFetcher : Types.TypesFetcher :=
  match @Types.addBareModuleTypings specUtil diamondCdn 3 diamondSource
          (Types.Supplied (Some diamondManifest))
          (Types.newTypesFetcher cdn0) with
  | Some (_, st) => st
  | None => Types.newTypesFetcher cdn0
  end.

Definition diamondFiles : list (string * list (string * string)) :=
  [ ("foo@1.2.3", [("package.json", fooJson); ("index.d.ts", fooDts)]);
    ("bar@2.3.4", [("package.json", "{}"); ("index.d.ts", bar2Dts)]);
    ("bar@1.2.3", [("package.json", "{}"); ("index.d.ts", bar1Dts)]) ].

Definition fooLatest : NpmFileLocation := mkLoc "foo" "latest" "index.js".
Definition foo1 : NpmFileLocation := mkLoc "foo" "1.0.0" "index.js".

(** A package named constructor, published at 1.0.0, imported by a
    project whose package.json has an empty dependencies object, or no
    dependencies object at all. *)
Definition inheritedManifestText : string := "{ dependencies: {} }".

Definition inheritedManifest : PackageJson :=
  mkPackageJson (Some ∅) None None None None.

Definition inheritedCdn : Platform :=
  Fixture.platform
    (Fixture.mkTables
       [ Fixture.serves Fixture.unpkg "constructor@latest/package.json"
           "constructor@1.0.0/package.json" "{}";
         Fixture.serves Fixture.unpkg "constructor@1.0.0/index.js"
           "constructor@1.0.0/index.js" "c1" ]
       [ ("{}", emptyPackageJson); (inheritedManifestText, inheritedManifest) ]
       [ Fixture.importEntries ["constructor"] ]
       []).

Definition inheritedProject : list BuildOutput :=
  [ Fixture.projectFile "index.js" (Fixture.imports ["constructor"]);
    Fixture.projectFile "package.json" inheritedManifestText ].

Definition plainProject : list BuildOutput :=
  [ Fixture.projectFile "index.js" (Fixture.imports ["constructor"]);
    Fixture.projectFile "package.json" "{}" ].

(** The project imports foo and declares foo at ^1.0.0 and bar at ^1.0.0.
    foo, at 1.0.0, names esm/index.js as its module and lib/index.js as
    its main, declares bar at ^2.0.0, and its module imports bar; bar is
    published at 1.2.3 and at 2.3.4, where its main is lib/bar.js. *)
Definition entryManifestText : string :=
  "{ dependencies: { foo: ^1.0.0, bar: ^1.0.0 } }".

Definition entryManifest : PackageJson :=
  mkPackageJson (Some {[ "foo" := "^1.0.0"; "bar" := "^1.0.0" ]})
    None None None None.

Definition fooEntryText : string :=
  "{ module: esm/index.js, main: lib/index.js, dependencies: { bar: ^2.0.0 } }".

Definition fooEntry : PackageJson :=
  mkPackageJson (Some {[ "bar" := "^2.0.0" ]})
    (Some "lib/index.js") (Some "esm/index.js") None None.

Definition barEntryText : string := "{ main: lib/bar.js }".

Definition barEntry : PackageJson :=
  mkPackageJson None (Some "lib/bar.js") None None None.

Definition entryCdn : Platform :=
  Fixture.platform
    (Fixture.mkTables
       [ Fixture.serves Fixture.unpkg "foo@^1.0.0/package.json"
           "foo@1.0.0/package.json" fooEntryText;
         Fixture.serves Fixture.unpkg "foo@1.0.0/esm/index.js"
           "foo@1.0.0/esm/index.js" (Fixture.imports ["bar"]);
         Fixture.serves Fixture.unpkg "foo@1.0.0/lib/index.js"
           "foo@1.0.0/lib/index.js" "foo main";
         Fixture.serves Fixture.unpkg "bar@^2.0.0/package.json"
           "bar@2.3.4/package.json" barEntryText;
         Fixture.serves Fixture.unpkg "bar@2.3.4/lib/bar.js"
           "bar@2.3.4/lib/bar.js" "bar2";
         Fixture.serves Fixture.unpkg "bar@2.3.4/index.js"
           "bar@2.3.4/index.js" "bar2 index";
         Fixture.serves Fixture.unpkg "bar@^1.0.0/package.json"
           "bar@1.2.3/package.json" "{}";
         Fixture.serves Fixture.unpkg "bar@1.2.3/index.js"
           "bar@1.2.3/index.js" "bar1" ]
       [ ("{}", emptyPackageJson); (entryManifestText, entryManifest);
         (fooEntryText, fooEntry); (barEntryText, barEntry) ]
       [ Fixture.importEntries ["foo"]; Fixture.importEntries ["bar"] ]
       []).

Definition entryProject : list BuildOutput :=
  [ Fixture.projectFile "index.js" (Fixture.imports ["foo"]);
    Fixture.projectFile "package.json" entryManifestText ].

(** Two packages require the same other version: the project imports foo,
    baz and bar and declares bar at ^1.0.0; foo, at 1.2.3, and baz, at
    1.0.0, each declare bar at ^2.0.0 and import bar from their index.d.ts;
    bar is published at 1.2.3 and 2.3.4.  A second project imports baz and
    bar only. *)
Definition sharedSource : string := "import 'foo'; import 'baz'; import 'bar';".
Definition bazOnlySource : string := "import 'baz'; import 'bar';".
Definition bazDts : string := "declare export { bar } from 'bar';".

Definition sharedCdn : Platform :=
  Fixture.platform
    (Fixture.mkTables
       [ Fixture.serves Fixture.unpkg "foo@latest/package.json"
           "foo@1.2.3/package.json" fooJson;
         Fixture.serves Fixture.unpkg "foo@1.2.3/package.json"
           "foo@1.2.3/package.json" fooJson;
         Fixture.serves Fixture.unpkg "foo@1.2.3/index.d.ts"
           "foo@1.2.3/index.d.ts" fooDts;
         Fixture.serves Fixture.unpkg "baz@latest/package.json"
           "baz@1.0.0/package.json" fooJson;
         Fixture.serves Fixture.unpkg "baz@1.0.0/package.json"
           "baz@1.0.0/package.json" fooJson;
         Fixture.serves Fixture.unpkg "baz@1.0.0/index.d.ts"
           "baz@1.0.0/index.d.ts" bazDts;
         Fixture.serves Fixture.unpkg "bar@^1.0.0/package.json"
           "bar@1.2.3/package.json" "{}";
         Fixture.serves Fixture.unpkg "bar@1.2.3/index.d.ts"
           "bar@1.2.3/index.d.ts" bar1Dts;
         Fixture.serves Fixture.unpkg "bar@^2.0.0/package.json"
           "bar@2.3.4/package.json" "{}";
         Fixture.serves Fixture.unpkg "bar@2.3.4/index.d.ts"
           "bar@2.3.4/index.d.ts" bar2Dts ]
       [ ("{}", emptyPackageJson);
         (fooJson,
          mkPackageJson (Some {[ "bar" := "^2.0.0" ]}) None None None None) ]
       []
       [ (sharedSource, mkFileInfo ["foo"; "baz"; "bar"] []);
         (bazOnlySource, mkFileInfo ["baz"; "bar"] []);
         (fooDts, mkFileInfo ["bar"] []);
         (bazDts, mkFileInfo ["bar"] []) ]).

(** The fetcher once the typings of a source have been crawled on
    [sharedCdn]. *)
Definition sharedFetcher (sourceText : string) : Types.TypesFetcher :=
  match @Types.addBareModuleTypings specUtil sharedCdn 3 sourceText
          (Types.Supplied (Some diamondManifest))
          (Types.newTypesFetcher cdn0) with
  | Some (_, st) => st
  | None => Types.newTypesFetcher cdn0
  end.

(** A source imports a package the CDN does not have. *)
Definition absentSource : string := "import 'nope';".

Definition absentCdn : Platform :=
  Fixture.platform
    (Fixture.mkTables [] [] [] [ (absentSource, mkFileInfo ["nope"] []) ]).

End Scenario.

(** ** Vocabulary for the crawl of the typings *)

Definition isOk {A} (r : Res A) : Prop := exists a, r = Ok a.

(** Every entry point task has settled without rejecting. *)
Definition tasksOk (st : Types.TypesFetcher) : Prop :=
  Forall isOk (Types._entrypointTasks st).

(** A [getPackageJson] whose promise is not rejected. *)
Definition resolves (g : Types.GetPackageJson) : Prop :=
  match g with
  | Types.Rejecting _ => False
  | _ => True
  end.

(** A computation that leaves [_entrypointTasks] alone. *)
Definition quiet {A} (c : M Types.TypesFetcher A) : Prop :=
  forall st,
    Types._entrypointTasks (snd (c st)) = Types._entrypointTasks st.

(** A computation that leaves [_entrypointTasks] alone and does not
throw. *)
Definition calm {A} (c : M Types.TypesFetcher A) : Prop :=
  forall st, exists a st',
    c st = (Ok a, st')
    /\ Types._entrypointTasks st' = Types._entrypointTasks st.

(** A computation of the crawl that, when it finishes, has not thrown, has
a result that satisfies [Q], and has pushed only tasks that did not
reject. *)
Definition settles {A} (Q : A -> Prop) (c : Types.Crawl A) : Prop :=
  forall st, tasksOk st ->
    match c st with
    | None => True
    | Some (r, st') => (exists a, r = Ok a /\ Q a) /\ tasksOk st'
    end.


(** How many specifiers the fetcher has handled. *)
Definition handledCount (st : Types.TypesFetcher) : nat :=
  size (Types._handledSpecifiers st).

(** [cut] always finishes and takes nothing out of the handled set; from a
fetcher with [t] handled specifiers or more, [real] finishes in the same
way, or it does not finish and [cut] ends with [T] handled specifiers or
more. *)
Definition tracks {A} (T t : nat) (cut real : Types.Crawl A) : Prop :=
  forall st, t <= handledCount st ->
    exists r st',
      cut st = Some (r, st')
      /\ Types._handledSpecifiers st ⊆ Types._handledSpecifiers st'
      /\ (real st = Some (r, st')
          \/ (real st = None /\ T <= handledCount st')).

(** The crawl [c2] finishes wherever [c1] does, and in the same way. *)
Definition deepens {A} (c1 c2 : Types.Crawl A) : Prop :=
  forall st r, c1 st = Some r -> c2 st = Some r.

(** The calls [results.set(path, content)] that [_buildFiles] makes, in
order. *)
Fixpoint writes (filesByPv : list (string * list (string * string)))
    (layout : NodeModulesDirectory) (prefix : string)
  : list (string * string) :=
  match layout with
  | Empty => []
  | Entry pkg version nested rest =>
      let prefix' := if String.eqb prefix EmptyString then prefix else prefix ++ "/" in
      let files := Js.orElse (Obj.get (pkg ++ "@" ++ version) filesByPv) [] in
      app (map (fun f => ((prefix' ++ pkg ++ "/") ++ fst f, snd f)) files)
        (app (writes filesByPv nested (prefix' ++ pkg ++ "/node_modules"))
           (writes filesByPv rest prefix))
  end.

Definition setAll (ws : list (string * string)) (results : list (string * string))
  : list (string * string) :=
  fold_left (fun r w => Obj.set (fst w) (snd w) r) ws results.

(** The directory has an entry for [pkg] at [version] with [nested]
below it. *)
Fixpoint hasEntry (layout : NodeModulesDirectory) (pkg version : string)
    (nested : NodeModulesDirectory) : Prop :=
  match layout with
  | Empty => False
  | Entry p v n rest =>
      (p = pkg /\ v = version /\ n = nested) \/ hasEntry rest pkg version nested
  end.

(** Someone requires [D] at version [dv]: the root, or an edge of the
graph. *)
Definition requires (R : Layout.PackageDependencies) (G : Layout.DependencyGraph)
    (D dv : string) : Prop :=
  In (D, dv) R \/ exists P v, In (D, dv) (Layout.edges G P v).

(** Every placement is of a required version, and every nested placement
of a package comes with a placement of that package at another version. *)
Definition wellPlaced (R : Layout.PackageDependencies) (G : Layout.DependencyGraph)
    (L : list Layout.Placement) : Prop :=
  forall dir D dv,
    In (dir, D, dv) L ->
    requires R G D dv
    /\ (dir <> [] -> exists dir' dv', In (dir', D, dv') L /\ dv' <> dv).

(** The packages placed in the top-level directory, in order. *)
Definition topLevel (L : list Layout.Placement) : list string :=
  map (fun pl : Layout.Placement => snd (fst pl))
    (List.filter (fun pl : Layout.Placement => Layout.sameDir (fst (fst pl)) []) L).

(** One step of the loop of [Layout.visit] over the edges of [P]. *)
Definition visitEdge (fuel' : nat) (G : Layout.DependencyGraph)
    (dir : list string) (P : string)
    (L : list Layout.Placement) (edge : string * string)
  : list Layout.Placement :=
  let '(D, dv) := edge in
  match Layout.placedAbove L dir D with
  | None => Layout.visit fuel' G [] D dv (L ++ [([], D, dv)])%list
  | Some placed =>
      if String.eqb placed dv then L
      else Layout.visit fuel' G (P :: dir) D dv (L ++ [(P :: dir, D, dv)])%list
  end.



(** A platform on which nothing is served, no text is JSON and no file
    imports anything. *)
Definition offline : Platform := Fixture.platform (Fixture.mkTables [] [] [] []).

(** ** Further scenarios and vocabulary *)

(** A platform whose lexer rejects every file, at line 3, column 7. *)
Definition brokenLexer : Platform := {|
  fetch u := Responded (Fixture.notFound u);
  JSON_parse _ := None;
  esModuleLexer_parse _ := Throw "Parse error @:3:7";
  ts_preProcessFile _ _ _ := mkFileInfo [] []
|}.

(** A platform whose lexer finds, in one file, the imports of a sibling
    and of a URL. *)
Definition localCdn : Platform :=
  Fixture.platform
    (Fixture.mkTables [] []
       [ Fixture.importEntries ["./util.js"; "https://example.com/x.js"] ]
       []).

(** The value of a decimal digit. *)
Definition digitValue (c : ascii) : nat := nat_of_ascii c - 48.

(** Every request so far went to a URL under the prefix [p], which is the
    prefix of the CDN. *)
Definition underPrefix (p : string) (cdn : CachingCdn) : Prop :=
  _urlPrefix cdn = p
  /\ Forall (fun u => Js.startsWith u p = true) (requests cdn).

(** A computation on the CDN that keeps it so. *)
Definition staysUnderPrefix {A} (c : M CachingCdn A) : Prop :=
  forall p cdn, underPrefix p cdn -> underPrefix p (snd (c cdn)).

(** A computation of the transformer that keeps its CDN so. *)
Definition keepsUnderPrefix {A} (c : M Transformer A) : Prop :=
  forall p st, underPrefix p (_cdn st) -> underPrefix p (_cdn (snd (c st))).

(** A computation that adds to [merged] nothing but [_handleDependency]
    producers. *)
Definition schedulesOnly {A} (c : M Transformer A) : Prop :=
  forall st, exists ls,
    merged (snd (c st)) = (merged st ++ map DependencyProducer ls)%list.

(** The project file a pending producer will still yield. *)
Definition pendingNames (p : Producer) : list string :=
  match p with
  | ProcessProducer results => fileNames results
  | TransformProducer f _ => [Out.name f]
  | DependencyProducer _ => []
  end.

(** The names of the files yielded so far for the project's own files. *)
Definition projectFiles (run : Run) : list string :=
  flat_map (fun entry : Producer * list BuildOutput =>
              match fst entry with
              | DependencyProducer _ => []
              | _ => fileNames (snd entry)
              end)
           (yielded run).

(** The project's files are those yielded for it so far and those its
    pending producers will still yield. *)
Definition conserved (results : list BuildOutput) (run : Run) : Prop :=
  Permutation
    (projectFiles run ++ flat_map pendingNames (merged (this run)))
    (fileNames results).

(** A specifier that [_transformSpecifier] returns as it is, doing
    nothing else: a URL, or a relative specifier in a project file. *)
Definition staysAsIs {U : UtilOps} (referrer specifier : string) : Prop :=
  classifySpecifier specifier = KUrl
  \/ (classifySpecifier specifier = KRelative
      /\ Js.startsWith referrer "node_modules/" = false).

(** What a crawl may do to a fetcher: nothing is taken out of the handled
    set, no recorded fetch result is replaced or dropped, and entry point
    tasks are only appended. *)
Definition grows (st st' : Types.TypesFetcher) : Prop :=
  Types._handledSpecifiers st ⊆ Types._handledSpecifiers st'
  /\ (forall k r,
        Obj.get k (Types._specifierToFetchResult st) = Some r ->
        Obj.get k (Types._specifierToFetchResult st') = Some r)
  /\ exists more,
       Types._entrypointTasks st'
       = (Types._entrypointTasks st ++ more)%list.

(** A computation, and a computation of the crawl, that does only that. *)
Definition growing {A} (c : M Types.TypesFetcher A) : Prop :=
  forall st, grows st (snd (c st)).

Definition growingCrawl {A} (c : Types.Crawl A) : Prop :=
  forall st r st', c st = Some (r, st') -> grows st st'.

(** Some group of [filesByPv] holds the file [path] with text [v] for the
    package and version [pv]. *)
Definition grouped (filesByPv : list (string * list (string * string)))
    (pv path v : string) : Prop :=
  exists arr, Obj.get pv filesByPv = Some arr /\ In (path, v) arr.

Create HintDb keeps.
Create HintDb calm.
Create HintDb schedules.
Create HintDb growing.
Create HintDb under.

(** * Properties *)

(** ** CachingCdn *)

Lemma String_eqb_empty_false (s : string) :
  s <> EmptyString -> String.eqb s EmptyString = false.
Proof. intros H. apply String.eqb_neq. exact H. Qed.

Section CachingCdnFacts.
Context {U : UtilOps} {P : Platform}.

Lemma resolveFromCache_exact (cdn : CachingCdn) (location : NpmFileLocation) :
  isExactVersion (version location) = true ->
  resolveFromCache cdn location = (location, true).
Proof. intros H. unfold resolveFromCache. rewrite H. reflexivity. Qed.

(** A location that [resolveFromCache] resolves stays resolved, to the same
    location, in any CDN state with the same version cache. *)
Lemma resolveFromCache_same_versions (cdn cdn' : CachingCdn) location :
  _versionCache cdn' = _versionCache cdn ->
  resolveFromCache cdn' location = resolveFromCache cdn location.
Proof. intros H. unfold resolveFromCache. rewrite H. reflexivity. Qed.

End CachingCdnFacts.

(** C7.  [canonicalize] of a location whose version is an exact semver
    triple and whose path has a non-empty file extension returns the
    location itself and leaves the CDN as it was: neither cache changes and
    the log of network requests does not grow. *)
Theorem canonicalize_canonical_location_unchanged
    (U : UtilOps) (P : Platform) (cdn : CachingCdn)
    (location : NpmFileLocation) :
  isExactVersion (version location) = true ->
  fileExtension (path location) <> EmptyString ->
  canonicalize location cdn = (Ok location, cdn).
Proof.
  intros Hexact Hext. unfold canonicalize.
  rewrite resolveFromCache_exact by exact Hexact.
  rewrite String_eqb_empty_false by exact Hext.
  reflexivity.
Qed.

Lemma canonicalize_canonical_location_unchanged_witness :
  let cdn := newCachingCdn Fixture.unpkg in
  let location := mkLoc "foo" "1.0.0" "index.js" in
  @canonicalize specUtil offline location cdn = (Ok location, cdn).
Proof.
  intros cdn location.
  apply (canonicalize_canonical_location_unchanged specUtil offline cdn location).
  - reflexivity.
  - simpl. discriminate.
Defined.

(** C6, as stated, fails: a second [_fetch] of a location that reaches its
    cache lookup while the first one still awaits the network finds nothing
    in the cache, since entries are stored only once a response has
    arrived, and issues a request of its own for the same URL. *)
Lemma concurrent_fetches_both_hit_the_network :
  exists cdn1 cdn2,
    _fetch_start Scenario.foo1 Scenario.cdn0
      = (Request "https://unpkg.com/foo@1.0.0/index.js" Scenario.foo1 true, cdn1)
    /\ _fetch_start Scenario.foo1 cdn1
      = (Request "https://unpkg.com/foo@1.0.0/index.js" Scenario.foo1 true, cdn2)
    /\ requests cdn2
      = ["https://unpkg.com/foo@1.0.0/index.js";
         "https://unpkg.com/foo@1.0.0/index.js"].
Proof. eexists _, _. repeat split. Qed.

Section CompletedFetch.
Context {U : UtilOps} {P : Platform}.

Lemma _parseUnpkgUrl_prefix (cdn cdn' : CachingCdn) (u : string) :
  _urlPrefix cdn' = _urlPrefix cdn ->
  _parseUnpkgUrl cdn' u = _parseUnpkgUrl cdn u.
Proof. intros H. unfold _parseUnpkgUrl. rewrite H. reflexivity. Qed.

Lemma resolveFromCache_unresolved (cdn : CachingCdn) location l :
  resolveFromCache cdn location = (l, false) ->
  l = location /\ isExactVersion (version location) = false.
Proof.
  unfold resolveFromCache.
  destruct (isExactVersion (version location)); [discriminate|].
  destruct (_versionCache cdn !! _); [discriminate|].
  intros [= <-]. split; reflexivity.
Qed.

End CompletedFetch.

(** C6, amended.  Once a [_fetch] of a location has completed, a later
    [_fetch] of the same location returns the same result and leaves the
    CDN, its log of network requests included, as it was.  For a version
    range that the version cache did not know, this needs the CDN's final
    URL to name the package and the path of the request. *)
Theorem completed_fetch_is_served_from_cache
    (U : UtilOps) (P : Platform) (cdn cdn1 : CachingCdn)
    (location : NpmFileLocation) (r : FetchResult) :
  _fetch location cdn = (Ok r, cdn1) ->
  (snd (resolveFromCache cdn location) = true
   \/ exists canonical,
        _parseUnpkgUrl cdn1 (url r) = Ok canonical
        /\ pkg canonical = pkg location /\ path canonical = path location) ->
  _fetch location cdn1 = (Ok r, cdn1).
Proof.
  intros Hfetch Hkey. unfold _fetch in Hfetch |- *.
  destruct (_fetch_start location cdn) as [[r0 | u l e] cdn'] eqn:Hstart.
  - (* served from the cache already: nothing changed *)
    injection Hfetch as -> ->.
    unfold _fetch_start in Hstart.
    destruct (resolveFromCache cdn location) as [l e] eqn:Hres.
    destruct (_fileCache cdn !! pkgVersionPath l) eqn:Hc; [|discriminate].
    injection Hstart as -> <-.
    unfold _fetch_start. rewrite Hres, Hc. reflexivity.
  - unfold _fetch_start in Hstart.
    destruct (resolveFromCache cdn location) as [l0 e0] eqn:Hres.
    destruct (_fileCache cdn !! pkgVersionPath l0) eqn:Hc; [discriminate|].
    injection Hstart as <- <- <- <-.
    unfold _fetch_finish in Hfetch.
    destruct (fetch _) as [res | m]; [|discriminate].
    destruct (negb (status res =? 200)%nat); [discriminate|].
    destruct e0.
    + (* exact or resolved by the version cache *)
      injection Hfetch as <- <-. simpl.
      unfold _fetch_start.
      rewrite (resolveFromCache_same_versions cdn) by reflexivity.
      rewrite Hres. simpl. rewrite lookup_insert_eq. reflexivity.
    + destruct Hkey as [Hkey | (canonical & Hparse & Hpkg & Hpath)].
      { simpl in Hkey. discriminate. }
      apply resolveFromCache_unresolved in Hres as [-> Hinexact].
      destruct (_parseUnpkgUrl _ (res_url res)) as [c | m] eqn:Hcan;
        [|discriminate].
      injection Hfetch as <- <-. simpl in Hparse.
      unfold _parseUnpkgUrl in Hcan, Hparse. simpl in Hcan, Hparse.
      rewrite Hcan in Hparse. injection Hparse as ->.
      unfold _fetch_start, resolveFromCache. simpl.
      rewrite Hinexact, lookup_insert_eq.
      replace (mkLoc (pkg location) (version canonical) (path location))
        with canonical by (destruct canonical; simpl in *; congruence).
      rewrite lookup_insert_eq. reflexivity.
Qed.

Lemma completed_fetch_is_served_from_cache_witness :
  exists r cdn1,
    @_fetch specUtil Scenario.fooCdn Scenario.fooLatest Scenario.cdn0
      = (Ok r, cdn1)
    /\ requests cdn1 = ["https://unpkg.com/foo@latest/index.js"]
    /\ @_fetch specUtil Scenario.fooCdn Scenario.fooLatest cdn1 = (Ok r, cdn1).
Proof.
  eexists _, _. split; [vm_compute; reflexivity|]. split; [reflexivity|].
  apply (completed_fetch_is_served_from_cache specUtil Scenario.fooCdn
           Scenario.cdn0 _ Scenario.fooLatest _).
  - vm_compute. reflexivity.
  - right. exists (mkLoc "foo" "2.0.0" "index.js"). repeat split.
Defined.

(** ** BareModuleTransformer: versions and paths of bare specifiers *)

Section BareSpecifierFacts.
Context {U : UtilOps} {P : Platform}.

Lemma version_given (location : NpmFileLocation) (g : GetPackageJson)
    (st : Transformer) :
  version location <> EmptyString ->
  _transformBareSpecifier_version location g st = (Ok (version location), st).
Proof.
  intros H. unfold _transformBareSpecifier_version.
  rewrite String_eqb_empty_false by exact H. reflexivity.
Qed.

Lemma version_absent (location : NpmFileLocation) (g : GetPackageJson)
    (st st' : Transformer) (json : option PackageJson) :
  version location = EmptyString ->
  callGetPackageJson g st = (Ok json, st') ->
  _transformBareSpecifier_version location g st
    = match Js.orElse (declaredDependency json (pkg location))
              (Js.Str "latest") with
      | Js.Str v => (Ok v, st')
      | Js.NotString _ => (Throw Js.matchIsNotAFunction, st')
      end.
Proof.
  intros H Hg. unfold _transformBareSpecifier_version.
  rewrite H. simpl. unfold bind. rewrite Hg.
  destruct (Js.orElse _ _); reflexivity.
Qed.

Lemma path_given (pkg v path : string) (st : Transformer) :
  path <> EmptyString ->
  _transformBareSpecifier_path pkg v path st = (Ok path, st).
Proof.
  intros H. unfold _transformBareSpecifier_path.
  rewrite String_eqb_empty_false by exact H. reflexivity.
Qed.

Lemma path_absent (pkg v : string) (st : Transformer) (json : PackageJson)
    (cdn' : CachingCdn) :
  fetchPackageJson pkg v (_cdn st) = (Ok json, cdn') ->
  _transformBareSpecifier_path pkg v EmptyString st
    = (Ok (Js.orElse (Js.orElseOpt (module json) (main json)) "index.js"),
       mkTransformer cdn' (_alreadyHandled st) (merged st)
         (packageJson_local st) (fetchLog st)).
Proof.
  intros H. unfold _transformBareSpecifier_path. simpl.
  unfold bind, liftCdn. rewrite H. reflexivity.
Qed.

End BareSpecifierFacts.

(** C2.  The default to [latest] is not taken for a package named after a
    member every object inherits.  The project's package.json has a
    [dependencies] object without an entry for constructor; the property
    read of line 208 finds the inherited member, which is not undefined,
    so [latest] is not used; the version is then not a string, the next
    [isExactVersion] throws a TypeError, and the import of constructor is
    reported as unresolved and left as it is, with no request made.  The
    same project with a package.json that has no [dependencies] object
    resolves the import to the latest version, 1.0.0. *)
Theorem inherited_member_is_taken_for_a_version :
  let run :=
    @process specUtil Scenario.inheritedCdn 3 Scenario.cdn0
      Scenario.inheritedProject in
  declaredDependency (Some Scenario.inheritedManifest) "constructor"
  = Some (Js.NotString "function Object() { [native code] }")
  /\ outputs run
     = [ Fixture.projectFile "package.json" Scenario.inheritedManifestText;
         DiagnosticBuildOutput "index.js"
           (Out.mkDiagnostic
              ("Could not resolve module " ++ Js.quote ++ "constructor"
                 ++ Js.quote ++ ": s.match is not a function")
              (Out.mkRange (Out.mkPos 0 8) (Out.mkPos 0 19)));
         Fixture.projectFile "index.js" (Fixture.imports ["constructor"]) ]
  /\ requests (_cdn (this run)) = []
  /\ outputs (@process specUtil Scenario.inheritedCdn 3 Scenario.cdn0
                Scenario.plainProject)
     = [ Fixture.projectFile "package.json" "{}";
         Fixture.projectFile "index.js"
           (Fixture.imports ["./node_modules/constructor@1.0.0/index.js"]);
         FileBuildOutput
           (Out.mkFile "node_modules/constructor@1.0.0/index.js" "c1"
              Fixture.javascript) ].
Proof. vm_compute. repeat split; reflexivity. Qed.

(** ** BareModuleTransformer: the project's package.json *)

Section ProcessFacts.
Context {U : UtilOps} {P : Platform}.

Lemma _process_loop_yields_and_files (results : list BuildOutput)
    (d : option (option PackageJson)) :
  fst (_process_loop results d)
    = (List.filter notJs results, omap isJsFile results).
Proof.
  revert d. induction results as [|r rest IH]; intros d; [reflexivity|].
  simpl. unfold notJs at 1. destruct (isJsFile r) as [f|] eqn:Hjs.
  - specialize (IH d). destruct (_process_loop rest d) as [[ys js] d'].
    simpl in *. injection IH as -> ->. reflexivity.
  - match goal with |- context [_process_loop rest ?d'] =>
      specialize (IH d'); destruct (_process_loop rest d') as [[ys js] d'']
    end.
    simpl in *. injection IH as -> ->. reflexivity.
Qed.

Lemma _process_loop_deferred (results : list BuildOutput)
    (d : option (option PackageJson)) :
  unparsable results -> snd (_process_loop results d) = d.
Proof.
  revert d. induction results as [|r rest IH]; intros d Hbad; [reflexivity|].
  assert (Hrest : unparsable rest).
  { intros f Hin. apply Hbad. right. exact Hin. }
  simpl. destruct (isJsFile r) as [f|] eqn:Hjs.
  - specialize (IH d Hrest). destruct (_process_loop rest d) as [[ys js] d'].
    exact IH.
  - assert (Hsame : match isPackageJsonFile r with
                    | Some f =>
                        match JSON_parse (Out.content f) with
                        | Some json => Deferred_resolve (Some json) d
                        | None => d
                        end
                    | None => d
                    end = d).
    { destruct r as [f|]; simpl; [|reflexivity].
      destruct (String.eqb (Out.name f) "package.json") eqn:Hname;
        [|reflexivity].
      apply String.eqb_eq in Hname.
      rewrite (Hbad f (or_introl eq_refl) Hname). reflexivity. }
    rewrite Hsame. specialize (IH d Hrest).
    destruct (_process_loop rest d) as [[ys js] d']. exact IH.
Qed.

Lemma _process_packageJson_unparsable (results : list BuildOutput) :
  unparsable results -> _process_packageJson results = None.
Proof.
  intros Hbad. unfold _process_packageJson.
  pose proof (_process_loop_deferred results None Hbad) as H.
  destruct (_process_loop results None) as [[ys js] d]. simpl in H.
  rewrite H. reflexivity.
Qed.

Lemma _process_unfold (results : list BuildOutput) (st : Transformer) :
  _process results st
    = (List.filter notJs results,
       mkTransformer (_cdn st) (_alreadyHandled st)
         (merged st ++
            map (fun f => TransformProducer f
                            (ProjectPackageJson (_process_packageJson results)))
              (omap isJsFile results))
         (packageJson_local st) (fetchLog st)).
Proof.
  unfold _process.
  pose proof (_process_loop_yields_and_files results None) as H.
  destruct (_process_loop results None) as [[ys js] d]. simpl in H.
  injection H as -> ->. reflexivity.
Qed.

Lemma package_json_is_not_js (f : Out.File) :
  Out.name f = "package.json" -> notJs (FileBuildOutput f) = true.
Proof. intros H. unfold notJs, isJsFile. rewrite H. reflexivity. Qed.

End ProcessFacts.

(** C8.  When no package.json artifact of the project parses as JSON,
    [_process] still yields each of them unchanged, the deferred
    package.json settles to [undefined], exactly as for a project without
    any package.json, so a bare import that carries no version takes
    [latest]; [_process] yields and schedules, it does not throw.  With
    1.0.0 and 2.0.0 on the CDN and [latest] being 2.0.0, the bare import
    of foo is rewritten to 2.0.0. *)
Theorem unparsable_package_json_is_treated_as_absent
    (U : UtilOps) (P : Platform) (results : list BuildOutput) :
  (forall f, In (FileBuildOutput f) results ->
             Out.name f = "package.json" ->
             JSON_parse (Out.content f) = None) ->
  _process_packageJson results = None
  /\ (forall f st, In (FileBuildOutput f) results ->
                   Out.name f = "package.json" ->
                   In (FileBuildOutput f) (fst (_process results st)))
  /\ (forall st,
        snd (_process results st)
        = snd (_process
                 (List.filter
                    (fun r => match isPackageJsonFile r with
                              | Some _ => false
                              | None => true
                              end) results) st))
  /\ (forall location st,
        version location = EmptyString ->
        _transformBareSpecifier_version location
          (ProjectPackageJson (_process_packageJson results)) st
        = (Ok "latest", st))
  /\ outputs (@process specUtil Scenario.versionCdn 3 Scenario.cdn0
                Scenario.invalidProject)
     = [ Fixture.projectFile "package.json" "INVALID JSON";
         Fixture.projectFile "index.js"
           (Fixture.imports ["./node_modules/foo@2.0.0/index.js"]);
         FileBuildOutput
           (Out.mkFile "node_modules/foo@2.0.0/index.js" "foo2"
              Fixture.javascript) ].
Proof.
  intros Hbad.
  assert (Hnone : _process_packageJson results = None)
    by (apply _process_packageJson_unparsable; exact Hbad).
  split; [exact Hnone|]. split; [|split; [|split]].
  - intros f st Hin Hname. rewrite _process_unfold. simpl.
    apply filter_In. split; [exact Hin|].
    apply package_json_is_not_js. exact Hname.
  - intros st. rewrite !_process_unfold. simpl.
    set (keep := fun r => match isPackageJsonFile r with
                          | Some _ => false | None => true end).
    assert (Hnone' : _process_packageJson (List.filter keep results) = None).
    { apply _process_packageJson_unparsable. intros f Hin Hname.
      apply filter_In in Hin as [Hin _]. apply Hbad; assumption. }
    rewrite Hnone, Hnone'.
    assert (Hjs : omap isJsFile (List.filter keep results)
                  = omap isJsFile results).
    { clear. induction results as [|r rest IH]; [reflexivity|].
      destruct (keep r) eqn:Hk.
      - change (List.filter keep (r :: rest))
          with (if keep r then r :: List.filter keep rest
                else List.filter keep rest).
        rewrite Hk. cbn [omap list_omap]. rewrite IH. reflexivity.
      - change (List.filter keep (r :: rest))
          with (if keep r then r :: List.filter keep rest
                else List.filter keep rest).
        rewrite Hk, IH. unfold keep in Hk.
        destruct r as [f|]; simpl in Hk; [|discriminate].
        destruct (String.eqb (Out.name f) "package.json") eqn:Hname;
          [|discriminate].
        apply String.eqb_eq in Hname.
        cbn [omap list_omap]. unfold isJsFile at 2. rewrite Hname.
        reflexivity. }
    rewrite Hjs. reflexivity.
  - intros location st Hv. rewrite Hnone.
    unfold _transformBareSpecifier_version. rewrite Hv. reflexivity.
  - reflexivity.
Qed.

Lemma unparsable_package_json_is_treated_as_absent_witness :
  @_process_packageJson Scenario.versionCdn Scenario.invalidProject = None
  /\ In (Fixture.projectFile "package.json" "INVALID JSON")
        (fst (@_process Scenario.versionCdn Scenario.invalidProject
                (newTransformer Scenario.cdn0))).
Proof.
  destruct (unparsable_package_json_is_treated_as_absent specUtil
              Scenario.versionCdn Scenario.invalidProject)
    as (Hnone & Hyield & _).
  - intros f [H | [H | []]] Hname.
    + injection H as <-. discriminate Hname.
    + injection H as <-. reflexivity.
  - split; [exact Hnone|].
    apply (Hyield (Out.mkFile "package.json" "INVALID JSON" None)).
    + right. left. reflexivity.
    + reflexivity.
Defined.

(** ** BareModuleTransformer: each dependency is handled once *)

Section HandledOnce.
Context {U : UtilOps} {P : Platform}.

Lemma keeps_ret {A} (a : A) : keepsHandled (ret a).
Proof. intros st. split; reflexivity. Qed.

Lemma keeps_throw {A} (m : string) : keepsHandled (@throw Transformer A m).
Proof. intros st. split; reflexivity. Qed.

Lemma keeps_getState : keepsHandled (@getState Transformer).
Proof. intros st. split; reflexivity. Qed.

Lemma keeps_bind {A B} (c : M Transformer A) (k : A -> M Transformer B) :
  keepsHandled c -> (forall a, keepsHandled (k a)) -> keepsHandled (bind c k).
Proof.
  intros Hc Hk st. unfold bind. specialize (Hc st).
  destruct (c st) as [[a | m] st']; simpl in Hc.
  - destruct (Hk a st') as [H1 H2]. destruct Hc as [H3 H4].
    split; congruence.
  - exact Hc.
Qed.

Lemma keeps_tryCatch {A} (c : M Transformer A) (h : string -> M Transformer A) :
  keepsHandled c -> (forall m, keepsHandled (h m)) ->
  keepsHandled (tryCatch c h).
Proof.
  intros Hc Hh st. unfold tryCatch. specialize (Hc st).
  destruct (c st) as [[a | m] st']; simpl in Hc.
  - exact Hc.
  - destruct (Hh m st') as [H1 H2]. destruct Hc as [H3 H4].
    split; congruence.
Qed.

Lemma keeps_liftCdn {A} (c : M CachingCdn A) : keepsHandled (liftCdn c).
Proof.
  intros st. unfold liftCdn. destruct (c (_cdn st)). split; reflexivity.
Qed.

Lemma keeps_merged_add (p : Producer) : keepsHandled (merged_add p).
Proof. intros st. split; reflexivity. Qed.

Lemma keeps_set_packageJson_local v : keepsHandled (set_packageJson_local v).
Proof. intros st. split; reflexivity. Qed.

#[local] Hint Resolve keeps_ret keeps_throw keeps_getState keeps_liftCdn
  keeps_merged_add keeps_set_packageJson_local : keeps.

Ltac keeps :=
  repeat first
    [ progress (intros)
    | apply keeps_bind
    | apply keeps_tryCatch
    | solve [auto with keeps]
    | match goal with
      | |- keepsHandled (match ?x with _ => _ end) => destruct x
      | |- keepsHandled (if ?b then _ else _) => destruct b
      end ].

Lemma keeps_callGetPackageJson g : keepsHandled (callGetPackageJson g).
Proof.
  destruct g; simpl; auto with keeps.
  apply keeps_bind; [auto with keeps|]. intros st.
  destruct (packageJson_local st); keeps.
Qed.

#[local] Hint Resolve keeps_callGetPackageJson : keeps.

Lemma keeps_transformBareSpecifier specifier referrer g :
  keepsHandled (_transformBareSpecifier specifier referrer g).
Proof.
  unfold _transformBareSpecifier, _transformBareSpecifier_version,
    _transformBareSpecifier_path.
  keeps.
Qed.

#[local] Hint Resolve keeps_transformBareSpecifier : keeps.

Lemma keeps_transformSpecifier specifier referrer g :
  keepsHandled (_transformSpecifier specifier referrer g).
Proof. unfold _transformSpecifier. keeps. Qed.

Lemma startTransforms_keeps visited referrer g st :
  _alreadyHandled (snd (startTransforms visited referrer g st))
    = _alreadyHandled st
  /\ fetchLog (snd (startTransforms visited referrer g st)) = fetchLog st.
Proof.
  revert st. induction visited as [|info rest IH]; intros st;
    [split; reflexivity|].
  simpl. destruct (Lexer.n info) as [old|]; [|apply IH].
  pose proof (keeps_transformSpecifier old referrer g st) as Hk.
  destruct (_transformSpecifier old referrer g st) as [settled st'].
  specialize (IH st').
  destruct (startTransforms rest referrer g st') as [transforms st''].
  simpl in *. destruct Hk, IH. split; congruence.
Qed.

Lemma applyTransforms_no_files filename visited js :
  fileNames (snd (applyTransforms filename visited js)) = [].
Proof.
  revert js. induction visited as [|t rest IH]; intros js; [reflexivity|].
  simpl. destruct (applyTransform filename t js) as [js' out] eqn:Ht.
  specialize (IH js').
  destruct (applyTransforms filename rest js') as [js'' outs]. simpl in *.
  unfold fileNames in *. rewrite omap_app, IH, app_nil_r.
  unfold applyTransform in Ht. destruct t as [info [new | m]].
  - destruct (String.eqb new _); injection Ht as <- <-; reflexivity.
  - injection Ht as <- <-. reflexivity.
Qed.

Lemma _transformBareModuleSpecifiers_spec file g st :
  fileNames (fst (_transformBareModuleSpecifiers file g st)) = [Out.name file]
  /\ _alreadyHandled (snd (_transformBareModuleSpecifiers file g st))
     = _alreadyHandled st
  /\ fetchLog (snd (_transformBareModuleSpecifiers file g st)) = fetchLog st.
Proof.
  unfold _transformBareModuleSpecifiers.
  destruct (esModuleLexer_parse (Out.content file)) as [specifiers | m].
  - pose proof (startTransforms_keeps (rev specifiers) (Out.name file) g st)
      as [H1 H2].
    destruct (startTransforms _ _ _ st) as [transforms st'].
    pose proof (applyTransforms_no_files (Out.name file) (rev transforms)
                  (Out.content file)) as H3.
    destruct (applyTransforms _ _ _) as [js' diagnostics]. simpl in *.
    split; [|split; assumption].
    unfold fileNames in *. rewrite omap_app, H3. reflexivity.
  - simpl. split; [|split; reflexivity].
    unfold _makeDiagnostic. destruct (LexerError.position m) as [[l c]|];
      reflexivity.
Qed.

Lemma dependencyFiles_snoc run p outs st' :
  dependencyFiles (mkRun st' (yielded run ++ [(p, outs)]))
  = (dependencyFiles run ++
       match p with
       | DependencyProducer _ => fileNames outs
       | _ => []
       end)%list.
Proof.
  unfold dependencyFiles. simpl. rewrite flat_map_app. simpl.
  rewrite app_nil_r. reflexivity.
Qed.

Lemma fetchedKeys_snoc st key ok rest :
  fetchLog st = (rest ++ [(key, ok)])%list ->
  fetchedKeys st
  = (map fst (List.filter snd rest) ++ if ok then [key] else [])%list.
Proof.
  intros H. unfold fetchedKeys. rewrite H, List.filter_app, map_app.
  destruct ok; reflexivity.
Qed.

Lemma handledOnce_start cdn results : handledOnce (process_start cdn results).
Proof.
  split; [constructor|]. split; [|reflexivity].
  intros key. simpl. split; [|intros []].
  intros H. apply not_elem_of_empty in H. exact H.
Qed.

Lemma handledOnce_step run run' :
  handledOnce run -> step run run' -> handledOnce run'.
Proof.
  intros (Hnodup & Hkeys & Hfiles) Hstep.
  destruct Hstep as [run before after p outs st' Hmerged Hrun].
  set (st0 := with_merged (this run) (before ++ after)) in *.
  unfold handledOnce. rewrite dependencyFiles_snoc. simpl.
  destruct p as [results | file g | location]; simpl in Hrun.
  - rewrite _process_unfold in Hrun. injection Hrun as <- <-. simpl.
    rewrite app_nil_r. auto.
  - pose proof (_transformBareModuleSpecifiers_spec file g st0)
      as (_ & Hh & Hl).
    rewrite Hrun in Hh, Hl. simpl in Hh, Hl.
    unfold fetchedKeys. rewrite Hh, Hl, app_nil_r. auto.
  - unfold _handleDependency in Hrun.
    destruct (decide (dependencyKey location ∈ _alreadyHandled st0))
      as [Hin | Hnotin].
    + injection Hrun as <- <-. simpl. rewrite app_nil_r. auto.
    + assert (Hfresh : ~ In (dependencyKey location)
                         (map fst (fetchLog (this run)))).
      { intros Hin. apply Hnotin. apply Hkeys. exact Hin. }
      destruct (cdn_fetch location (_cdn st0)) as [[asset | m] cdn'].
      * pose proof (_transformBareModuleSpecifiers_spec
          (Out.mkFile
             ("node_modules/" ++ pkg location ++ "@" ++ version location
                ++ "/" ++ path location)
             (content asset) (Some (contentType asset)))
          (DependencyPackageJson location)
          (mkTransformer cdn'
             (_alreadyHandled st0 ∪ {[dependencyKey location]})
             (merged st0) None
             (fetchLog st0 ++ [(dependencyKey location, true)])))
          as (Hnames & Hh & Hl).
        rewrite Hrun in Hnames, Hh, Hl. simpl in Hnames, Hh, Hl.
        rewrite Hnames, Hh. split; [|split].
        -- rewrite Hl, map_app. simpl. apply NoDup_app. split; [exact Hnodup|].
           split; [|apply NoDup_singleton].
           intros x Hx Hx1. apply list_elem_of_In in Hx.
           apply list_elem_of_singleton in Hx1. subst x. exact (Hfresh Hx).
        -- intros key. rewrite Hl, map_app, in_app_iff, elem_of_union,
             elem_of_singleton. simpl. rewrite (Hkeys key). intuition.
        -- rewrite (fetchedKeys_snoc st' _ true _ Hl), map_app, Hfiles.
           reflexivity.
      * injection Hrun as <- <-. simpl. split; [|split].
        -- rewrite map_app. simpl. apply NoDup_app. split; [exact Hnodup|].
           split; [|apply NoDup_singleton].
           intros x Hx Hx1. apply list_elem_of_In in Hx.
           apply list_elem_of_singleton in Hx1. subst x. exact (Hfresh Hx).
        -- intros key. rewrite map_app, in_app_iff, elem_of_union,
             elem_of_singleton. simpl. rewrite (Hkeys key). intuition.
        -- rewrite app_nil_r, Hfiles. unfold fetchedKeys. simpl.
           rewrite List.filter_app. simpl. rewrite app_nil_r. reflexivity.
Qed.

Lemma handledOnce_steps run run' :
  handledOnce run -> steps run run' -> handledOnce run'.
Proof.
  intros H Hsteps. induction Hsteps as [|run1 run2 run3 _ IH Hstep];
    [exact H|].
  apply (handledOnce_step run2); [apply IH; exact H | exact Hstep].
Qed.

Lemma NoDup_fetchedKeys (log : list (string * bool)) :
  NoDup (map fst log) -> NoDup (map fst (List.filter snd log)).
Proof.
  induction log as [|[key ok] rest IH]; simpl; [auto|].
  intros Hnd. apply NoDup_cons in Hnd as [Hnotin Hnd].
  destruct ok; simpl; [|auto].
  apply NoDup_cons. split; [|auto].
  intros Hin. apply Hnotin. apply list_elem_of_In in Hin.
  apply list_elem_of_In. apply in_map_iff in Hin as ([k b] & Hk & Hin).
  apply filter_In in Hin as [Hin _]. apply in_map_iff.
  exists (k, b). auto.
Qed.

Lemma runProducer_handled p st :
  _alreadyHandled st ⊆ _alreadyHandled (snd (runProducer p st))
  /\ match p with
     | DependencyProducer location =>
         dependencyKey location ∈ _alreadyHandled (snd (runProducer p st))
     | _ => True
     end.
Proof.
  destruct p as [results | file g | location]; simpl.
  - rewrite _process_unfold. simpl. split; [reflexivity | exact I].
  - destruct (_transformBareModuleSpecifiers_spec file g st) as (_ & Hh & _).
    rewrite Hh. split; [reflexivity | exact I].
  - unfold _handleDependency.
    destruct (decide (dependencyKey location ∈ _alreadyHandled st))
      as [Hin | Hnotin]; [split; [reflexivity | exact Hin]|].
    destruct (cdn_fetch location (_cdn st)) as [[asset | m] cdn'].
    + match goal with
      | |- context [_transformBareModuleSpecifiers ?f ?g ?s] =>
          destruct (_transformBareModuleSpecifiers_spec f g s)
            as (_ & Hsame & _)
      end.
      rewrite Hsame. simpl.
      split; [apply union_subseteq_l | apply elem_of_union_r, elem_of_singleton;
                                       reflexivity].
    + simpl.
      split; [apply union_subseteq_l | apply elem_of_union_r, elem_of_singleton;
                                       reflexivity].
Qed.

Lemma reachedHandled_step run run' :
  reachedHandled run -> step run run' -> reachedHandled run'.
Proof.
  intros Hinv Hstep.
  destruct Hstep as [run before after p outs st' Hmerged Hrun].
  destruct (runProducer_handled p (with_merged (this run) (before ++ after)))
    as [Hsub Hkey].
  rewrite Hrun in Hsub, Hkey. simpl in Hsub, Hkey.
  intros location outs' Hin. simpl in Hin. apply in_app_iff in Hin.
  destruct Hin as [Hin | [Heq | []]]; simpl.
  - apply Hsub. exact (Hinv location outs' Hin).
  - injection Heq as -> _. exact Hkey.
Qed.

Lemma reachedHandled_steps cdn results run :
  steps (process_start cdn results) run -> reachedHandled run.
Proof.
  intros Hsteps. remember (process_start cdn results) as start eqn:Hstart.
  induction Hsteps as [|run1 run2 run3 _ IH Hstep].
  - subst run. intros location outs [].
  - apply (reachedHandled_step run2); [apply IH; exact Hstart | exact Hstep].
Qed.

Lemma filter_snd_all (log : list (string * bool)) :
  (forall key ok, In (key, ok) log -> ok = true) -> List.filter snd log = log.
Proof.
  induction log as [|[key ok] rest IH]; intros Hall; [reflexivity|].
  simpl. rewrite (Hall key ok (or_introl eq_refl)). simpl.
  rewrite IH; [reflexivity|]. intros k b Hin. apply (Hall k b). right. exact Hin.
Qed.

Lemma drain_steps fuel run : steps run (drain fuel run).
Proof.
  revert run. induction fuel as [|fuel IH]; intros run; [constructor|].
  simpl. destruct (merged (this run)) as [|p after] eqn:Hm; [constructor|].
  destruct (runProducer p (with_merged (this run) after)) as [outs st'] eqn:Hr.
  assert (Hstep : step run (mkRun st' (yielded run ++ [(p, outs)]))).
  { apply (step_drain run [] after p outs st'); [exact Hm | exact Hr]. }
  clear Hm Hr. revert Hstep.
  generalize (mkRun st' (yielded run ++ [(p, outs)])). intros run' Hstep.
  specialize (IH run').
  induction IH as [|r1 r2 r3 _ IH2 Hs].
  - apply (steps_next run run); [constructor | exact Hstep].
  - apply (steps_next run r2); [apply IH2; exact Hstep | exact Hs].
Qed.

End HandledOnce.

(** C1.  In every state a run of [process] can reach, whatever the order in
    which the pending producers are drained: no key has been fetched by
    [_handleDependency] more than once; the handled keys are exactly the
    fetched ones, and every dependency [_handleDependency] was run on, once
    for each import that reached it, is among them; the dependency files
    yielded so far are, in order, the files of the keys whose fetch
    succeeded, so none is yielded twice, and they are the files of all the
    handled keys when no fetch failed; and [_handleDependency] on a key
    that is already handled fetches nothing, yields nothing and changes
    nothing. *)
Theorem dependencies_are_handled_once
    (U : UtilOps) (P : Platform) (cdn : CachingCdn)
    (results : list BuildOutput) (run : Run) :
  steps (process_start cdn results) run ->
  NoDup (map fst (fetchLog (this run)))
  /\ (forall key, key ∈ _alreadyHandled (this run)
                  <-> In key (map fst (fetchLog (this run))))
  /\ dependencyFiles run
     = map (fun key => "node_modules/" ++ key) (fetchedKeys (this run))
  /\ NoDup (dependencyFiles run)
  /\ (forall location outs,
        In (DependencyProducer location, outs) (yielded run) ->
        dependencyKey location ∈ _alreadyHandled (this run))
  /\ ((forall key ok, In (key, ok) (fetchLog (this run)) -> ok = true) ->
      dependencyFiles run
      = map (fun key => "node_modules/" ++ key)
          (map fst (fetchLog (this run))))
  /\ (forall location,
        dependencyKey location ∈ _alreadyHandled (this run) ->
        _handleDependency location (this run) = ([], this run)).
Proof.
  intros Hsteps.
  destruct (handledOnce_steps _ _ (handledOnce_start cdn results) Hsteps)
    as (Hnodup & Hkeys & Hfiles).
  split; [exact Hnodup|]. split; [exact Hkeys|]. split; [exact Hfiles|].
  split; [|split; [|split]].
  - rewrite Hfiles. apply NoDup_fmap_2; [apply _|].
    apply NoDup_fetchedKeys. exact Hnodup.
  - exact (reachedHandled_steps cdn results run Hsteps).
  - intros Hall. rewrite Hfiles. unfold fetchedKeys.
    rewrite (filter_snd_all _ Hall). reflexivity.
  - intros location Hin. unfold _handleDependency.
    destruct (decide _) as [_ | Hnotin]; [reflexivity | contradiction].
Qed.

Lemma dependencies_are_handled_once_witness :
  dependencyFiles
    (@process specUtil Scenario.loopCdn 8 Scenario.cdn0 Scenario.loopProject)
  = [ "node_modules/foo@1.0.0/index.js"; "node_modules/foo@1.0.0/other.js" ]
  /\ merged (this (@process specUtil Scenario.loopCdn 8 Scenario.cdn0
                     Scenario.loopProject)) = []
  /\ NoDup (dependencyFiles
              (@process specUtil Scenario.loopCdn 8 Scenario.cdn0
                 Scenario.loopProject)).
Proof.
  split; [reflexivity|]. split; [reflexivity|].
  apply (dependencies_are_handled_once specUtil Scenario.loopCdn
           Scenario.cdn0 Scenario.loopProject).
  apply drain_steps.
Defined.

(** ** BareModuleTransformer: the order of the replacements *)

Section ReplacementOrder.
Context {U : UtilOps} {P : Platform}.

Lemma startTransforms_entries visited referrer g st :
  map fst (fst (startTransforms visited referrer g st))
  = List.filter isLiteral visited.
Proof.
  revert st. induction visited as [|info rest IH]; intros st; [reflexivity|].
  simpl. unfold isLiteral at 1. destruct (Lexer.n info) as [old|]; [|apply IH].
  destruct (_transformSpecifier old referrer g st) as [settled st'].
  specialize (IH st').
  destruct (startTransforms rest referrer g st') as [transforms st''].
  simpl in *. rewrite IH. reflexivity.
Qed.

(** The second loop of [_transformBareModuleSpecifiers] visits the
specifiers in the order the lexer reported them. *)
Lemma second_loop_order specifiers referrer g st :
  map fst (rev (fst (startTransforms (rev specifiers) referrer g st)))
  = List.filter isLiteral specifiers.
Proof.
  rewrite map_rev, startTransforms_entries.
  rewrite <- (rev_involutive specifiers) at 2.
  generalize (rev specifiers). intros l.
  induction l as [|x l IH]; [reflexivity|].
  simpl. rewrite List.filter_app, <- IH. simpl.
  destruct (isLiteral x); simpl; [reflexivity|].
  rewrite app_nil_r. reflexivity.
Qed.

(** A replacement of a dynamic import is put between quotes. *)
Lemma dynamic_import_is_requoted filename info newSpecifier js :
  Lexer.d info <> (-1)%Z ->
  String.eqb newSpecifier (Js.orElse (Lexer.n info) EmptyString) = false ->
  applyTransform filename (info, Ok newSpecifier) js
  = (Js.substring 0 (Lexer.s info) js ++ ("'" ++ newSpecifier ++ "'")
       ++ Js.slice (Lexer.e info) js, []).
Proof.
  intros Hd Hnew. unfold applyTransform. rewrite Hnew.
  destruct (Z.eqb_spec (Lexer.d info) (-1)); [contradiction|]. reflexivity.
Qed.

(** A specifier that fails to resolve leaves the text as it is and yields
one diagnostic, positioned by its offsets in the text as edited so far. *)
Lemma failed_specifier_yields_a_diagnostic filename info m js :
  applyTransform filename (info, Throw m) js
  = (js,
     [DiagnosticBuildOutput filename
        (Out.mkDiagnostic
           ("Could not resolve module " ++ Js.quote
              ++ Js.orElse (Lexer.n info) EmptyString ++ Js.quote ++ ": " ++ m)
           (Out.mkRange (posOf js (Lexer.s info)) (posOf js (Lexer.e info))))]).
Proof. reflexivity. Qed.

End ReplacementOrder.

(** C3 does not hold of the code.  The second loop of
[_transformBareModuleSpecifiers] walks [transforms], which the first loop
filled last specifier first, from its last entry to its first, so the
replacements are spliced in the order of the lexer's list, front to back.
After a replacement of another length the offsets of the later specifiers
are stale: of the two imports of [Scenario.twoImports] the first is
rewritten and then overwritten by the replacement meant for the second,
which stays as it was. *)
Theorem replacements_are_spliced_front_to_back :
  (forall (U : UtilOps) (P : Platform) specifiers referrer g st,
      map fst (rev (fst (startTransforms (rev specifiers) referrer g st)))
      = List.filter isLiteral specifiers)
  /\ outputs (@process specUtil Scenario.twoCdn 4 Scenario.cdn0
                Scenario.twoImports)
     = [ Fixture.projectFile "index.js" Scenario.twoImportsEmitted;
         FileBuildOutput
           (Out.mkFile "node_modules/bar@1.0.0/index.js" "bar1"
              Fixture.javascript);
         FileBuildOutput
           (Out.mkFile "node_modules/foo@1.0.0/index.js" "foo1"
              Fixture.javascript) ]
  /\ Scenario.twoImportsEmitted <> Scenario.twoImportsIntended.
Proof.
  split; [|split].
  - intros. apply second_loop_order.
  - reflexivity.
  - discriminate.
Qed.

(** C4 does not hold of the code.  A single import that fails to resolve
is reported as the claim says: the file is yielded unchanged with one
diagnostic that embeds the CDN's error text and spans characters 8 to 29 of
line 0.  When an import before it has been rewritten, the diagnostic is
positioned by the failing specifier's offsets in the text as already
edited: for [Scenario.secondImportFails], whose failing specifier is at
characters 8 to 29 of line 1, the range runs from character 31 of line 0
to character 8 of line 1. *)
Theorem diagnostic_range_uses_the_edited_text :
  outputs (@process specUtil Scenario.twoCdn 4 Scenario.cdn0
             Scenario.onlyImportFails)
  = [ DiagnosticBuildOutput "index.js"
        (Out.mkDiagnostic Scenario.notResolved
           (Out.mkRange (Out.mkPos 0 8) (Out.mkPos 0 29)));
      Fixture.projectFile "index.js"
        (Fixture.imports ["non-existent/index.js"]) ]
  /\ outputs (@process specUtil Scenario.twoCdn 4 Scenario.cdn0
                Scenario.secondImportFails)
     = [ DiagnosticBuildOutput "index.js"
           (Out.mkDiagnostic Scenario.notResolved
              (Out.mkRange (Out.mkPos 0 31) (Out.mkPos 1 8)));
         Fixture.projectFile "index.js"
           (Fixture.importLines
              ["./node_modules/foo@1.0.0/index.js"; "non-existent/index.js"]);
         FileBuildOutput
           (Out.mkFile "node_modules/foo@1.0.0/index.js" "foo1"
              Fixture.javascript) ]
  /\ posOf (U := specUtil)
       (Fixture.importLines ["foo/index.js"; "non-existent/index.js"]) 31
     = Out.mkPos 1 8
  /\ posOf (U := specUtil)
       (Fixture.importLines ["foo/index.js"; "non-existent/index.js"]) 52
     = Out.mkPos 1 29.
Proof. repeat split. Qed.

(** ** Objects in insertion order *)

Lemma Obj_get_set_eq {V} (k : string) (v : V) (o : list (string * V)) :
  Obj.get k (Obj.set k v o) = Some v.
Proof.
  induction o as [|[k' v'] rest IH]; simpl.
  - rewrite String.eqb_refl. reflexivity.
  - destruct (String.eqb k' k) eqn:Hk; simpl.
    + rewrite String.eqb_refl. reflexivity.
    + rewrite Hk. exact IH.
Qed.

Lemma Obj_get_set_ne {V} (k k' : string) (v : V) (o : list (string * V)) :
  k <> k' -> Obj.get k' (Obj.set k v o) = Obj.get k' o.
Proof.
  intros Hne. induction o as [|[k0 v0] rest IH]; simpl.
  - destruct (String.eqb_spec k k'); [contradiction | reflexivity].
  - destruct (String.eqb_spec k0 k) as [-> | Hk0]; simpl.
    + destruct (String.eqb_spec k k'); [contradiction | reflexivity].
    + destruct (String.eqb k0 k'); [reflexivity | exact IH].
Qed.

(** ** TypesFetcher: what a relative crawl records *)

Section RelativeCrawl.
Context {U : UtilOps} {P : Platform}.

(** A location whose version is exact, or known to the version cache, and
whose path has an extension is canonicalized without any fetch. *)
Lemma canonicalize_resolved (cdn : CachingCdn) (location location' : NpmFileLocation) :
  resolveFromCache cdn location = (location', true) ->
  fileExtension (path location') <> EmptyString ->
  canonicalize location cdn = (Ok location', cdn).
Proof.
  intros Hres Hext. unfold canonicalize. rewrite Hres.
  rewrite String_eqb_empty_false by exact Hext. reflexivity.
Qed.

Lemma resolveFromCache_sibling (cdn : CachingCdn) (referrer referrer' : NpmFileLocation)
    (p : string) :
  resolveFromCache cdn referrer = (referrer', true) ->
  resolveFromCache cdn (mkLoc (pkg referrer) (version referrer) p)
  = (mkLoc (pkg referrer) (version referrer') p, true)
  /\ pkg referrer' = pkg referrer.
Proof.
  unfold resolveFromCache. simpl.
  destruct (isExactVersion (version referrer)).
  - intros [= <-]. split; reflexivity.
  - destruct (_versionCache cdn !! _); [|discriminate].
    intros [= <-]. split; reflexivity.
Qed.

Lemma inherited_not_proto (name : string) :
  Js.inherited name = None -> name <> "__proto__".
Proof. intros H ->. vm_compute in H. discriminate. Qed.

(** [_addDependency(from, to)] leaves the root dependencies alone when
[from] is not null. *)
Lemma addDependency_root (from to : NpmFileLocation) root graph :
  fst (Types.addDependency (Some from) to root graph) = root.
Proof.
  unfold Types.addDependency.
  destruct (Obj.get (pkg from) graph) as [versions|],
           (Js.inherited (pkg from)); simpl;
    repeat match goal with
           | |- context [match ?x with _ => _ end] => destruct x
           end;
    reflexivity.
Qed.

(** [_addDependency(from, to)] when neither the package nor the version of
[from], nor the package of [to], is the name of an inherited member. *)
Lemma addDependency_ordinary (from to : NpmFileLocation) root graph :
  Js.inherited (pkg from) = None ->
  Js.inherited (version from) = None ->
  pkg to <> "__proto__" ->
  Types.addDependency (Some from) to root graph
  = let fromVersions := Js.orElse (Obj.get (pkg from) graph) [] in
    let deps := Js.orElse (Obj.get (version from) fromVersions) [] in
    (root,
     Obj.set (pkg from)
       (Obj.set (version from)
          (Obj.set (pkg to) (version to) deps) fromVersions)
       graph).
Proof.
  intros Hp Hv Hto. unfold Types.addDependency, Obj.assign.
  rewrite Hp, Hv. apply String.eqb_neq in Hto. rewrite Hto.
  destruct (Obj.get (pkg from) graph) as [versions|]; simpl;
    try match goal with
        | |- context [match Obj.get ?k ?o with _ => _ end] =>
            destruct (Obj.get k o)
        end;
    reflexivity.
Qed.

(** The edges of the graph after [_addDependency(from, to)], for such
names. *)
Lemma edges_addDependency (from to : NpmFileLocation) root graph (Q v D : string) :
  Js.inherited (pkg from) = None ->
  Js.inherited (version from) = None ->
  pkg to <> "__proto__" ->
  Obj.get D (Layout.edges (snd (Types.addDependency (Some from) to root graph)) Q v)
  = if decide (Q = pkg from /\ v = version from /\ D = pkg to)
    then Some (version to)
    else Obj.get D (Layout.edges graph Q v).
Proof.
  intros Hp Hver Hto.
  rewrite (addDependency_ordinary from to root graph Hp Hver Hto).
  unfold Layout.edges. simpl.
  destruct (decide (Q = pkg from)) as [-> | HQ].
  - rewrite Obj_get_set_eq.
    destruct (decide (v = version from)) as [-> | Hv].
    + rewrite Obj_get_set_eq. simpl.
      destruct (decide (D = pkg to)) as [-> | HD].
      * rewrite Obj_get_set_eq.
        destruct (decide _) as [_ | Hn]; [reflexivity|].
        exfalso. apply Hn. auto.
      * rewrite Obj_get_set_ne by congruence.
        destruct (decide _) as [(_ & _ & HD') | _]; [contradiction|].
        destruct (Obj.get (pkg from) graph) as [versions|]; simpl;
          [|reflexivity].
        destruct (Obj.get (version from) versions); reflexivity.
    + rewrite Obj_get_set_ne by congruence.
      destruct (decide _) as [(_ & Hv' & _) | _]; [contradiction|].
      destruct (Obj.get (pkg from) graph) as [versions|]; reflexivity.
  - rewrite Obj_get_set_ne by congruence.
    destruct (decide _) as [(HQ' & _) | _]; [contradiction | reflexivity].
Qed.

Lemma resolveFromCache_keeps (cdn : CachingCdn) (location location' : NpmFileLocation)
    (exact : bool) :
  resolveFromCache cdn location = (location', exact) ->
  pkg location' = pkg location /\ path location' = path location.
Proof.
  unfold resolveFromCache.
  destruct (isExactVersion (version location)).
  - intros [= <- _]. split; reflexivity.
  - destruct (_versionCache cdn !! _); intros [= <- _]; split; reflexivity.
Qed.

#[local] Arguments Types.addDependency : simpl never.

(** [_fetchAndAddToOutputFiles] for a file of the referrer's own package,
when both locations are canonicalized without a fetch and the file has no
result yet. *)
Lemma _fetchAndAddToOutputFiles_sibling (referrer referrer' : NpmFileLocation)
    (p : string) (st : Types.TypesFetcher) :
  let location' := mkLoc (pkg referrer) (version referrer') p in
  resolveFromCache (Types._cdn st) referrer = (referrer', true) ->
  fileExtension (path referrer) <> EmptyString ->
  fileExtension p <> EmptyString ->
  Obj.get (Types.specifierOf location') (Types._specifierToFetchResult st) = None ->
  exists r st',
    Types._fetchAndAddToOutputFiles
      (mkLoc (pkg referrer) (version referrer) p) (Some referrer) st
    = (Ok r, st')
    /\ r = match cdn_fetch location' (Types._cdn st) with
           | (Ok f, _) => Types.Fetched (content f)
           | (Throw _, _) => Types.Failed 404
           end
    /\ Obj.get (Types.specifierOf location') (Types._specifierToFetchResult st')
       = Some r
    /\ Types._rootDependencies st' = Types._rootDependencies st
    /\ Types._handledSpecifiers st' = Types._handledSpecifiers st
    /\ Types._dependencyGraph st'
       = snd (Types.addDependency (Some referrer') location'
                (Types._rootDependencies st) (Types._dependencyGraph st)).
Proof.
  intros location' Hres Hext Hextp Hnew.
  destruct (resolveFromCache_sibling _ _ _ p Hres) as [Hsib Hpkg].
  destruct (resolveFromCache_keeps _ _ _ _ Hres) as [_ Hpath].
  assert (Hc1 : canonicalize (mkLoc (pkg referrer) (version referrer) p)
                  (Types._cdn st) = (Ok location', Types._cdn st)).
  { apply canonicalize_resolved; [exact Hsib | exact Hextp]. }
  assert (Hc2 : canonicalize referrer (Types._cdn st)
                = (Ok referrer', Types._cdn st)).
  { apply canonicalize_resolved; [exact Hres | rewrite Hpath; exact Hext]. }
  destruct st as [cdn tasks handled results root graph cells]. simpl in *.
  unfold Types._fetchAndAddToOutputFiles, Types.canonicalizeReferrer, bind,
    Types.liftCdn. simpl.
  rewrite Hc1. simpl. rewrite Hc2. simpl.
  unfold getState. simpl. fold location'. rewrite Hnew.
  unfold Types._addDependency, modifyState, tryCatch, bind, Types.liftCdn,
    Types.setFetchResult, ret. simpl.
  destruct (Types.addDependency (Some referrer') location' root graph)
    as [root' graph'] eqn:Hadd.
  assert (Hroot : root' = root).
  { pose proof (addDependency_root referrer' location' root graph) as H.
    rewrite Hadd in H. exact H. }
  subst root'. simpl.
  destruct (cdn_fetch location' cdn) as [[f | m] cdn'] eqn:Hfetch; simpl;
    eexists _, _; (split; [reflexivity|]); simpl;
    rewrite Obj_get_set_eq; repeat split; reflexivity.
Qed.

(** [_fetchAndAddToOutputFiles] for a file of the referrer's own package
that already has a result, when both locations are canonicalized without a
fetch. *)
Lemma _fetchAndAddToOutputFiles_sibling_known (referrer referrer' : NpmFileLocation)
    (p : string) (st : Types.TypesFetcher) (known : Types.Result) :
  let location' := mkLoc (pkg referrer) (version referrer') p in
  resolveFromCache (Types._cdn st) referrer = (referrer', true) ->
  fileExtension (path referrer) <> EmptyString ->
  fileExtension p <> EmptyString ->
  Obj.get (Types.specifierOf location') (Types._specifierToFetchResult st)
  = Some known ->
  Types._fetchAndAddToOutputFiles
    (mkLoc (pkg referrer) (version referrer) p) (Some referrer) st
  = (Ok known, st).
Proof.
  intros location' Hres Hext Hextp Hknown.
  destruct (resolveFromCache_sibling _ _ _ p Hres) as [Hsib Hpkg].
  destruct (resolveFromCache_keeps _ _ _ _ Hres) as [_ Hpath].
  assert (Hc1 : canonicalize (mkLoc (pkg referrer) (version referrer) p)
                  (Types._cdn st) = (Ok location', Types._cdn st)).
  { apply canonicalize_resolved; [exact Hsib | exact Hextp]. }
  assert (Hc2 : canonicalize referrer (Types._cdn st)
                = (Ok referrer', Types._cdn st)).
  { apply canonicalize_resolved; [exact Hres | rewrite Hpath; exact Hext]. }
  destruct st as [cdn tasks handled results root graph cells]. simpl in *.
  unfold Types._fetchAndAddToOutputFiles, Types.canonicalizeReferrer, bind,
    Types.liftCdn. simpl.
  rewrite Hc1. simpl. rewrite Hc2. simpl.
  unfold getState. simpl. fold location'. rewrite Hknown. reflexivity.
Qed.

End RelativeCrawl.

(** C9, as stated, fails: the relative crawl of ./type.js from
foo@1.0.0/index.d.ts leaves an entry in the dependency graph, the edge from
foo@1.0.0 to foo@1.0.0, since [_fetchAndAddToOutputFiles] calls
[_addDependency] with the referrer for every file it has no result for. *)
Lemma relative_crawl_adds_a_graph_entry :
  exists st',
    @Types._handleRelativeSpecifier specUtil Scenario.typeCdn 1 "./type.js"
      (Some Scenario.fooIndexDts) (Types.Supplied None)
      (Types.newTypesFetcher Scenario.cdn0)
    = Some (Ok tt, st')
    /\ Types._dependencyGraph (Types.newTypesFetcher Scenario.cdn0) = []
    /\ Types._dependencyGraph st' = [("foo", [("1.0.0", [("foo", "1.0.0")])])].
Proof. vm_compute. eexists. repeat split. Qed.

(** C9, amended.  A relative specifier in an already-fetched declaration
file (one whose version is exact or known to the version cache) is resolved
to the sibling declaration path within the referrer's own package at the
referrer's resolved version.  Unless the path is already handled, it is
claimed, its result is the one the fetcher already holds or else the outcome
of fetching it from the CDN, and the crawl goes on into a fetched text; when
the path is already handled the call changes nothing.  Either way the file
has a result afterwards, the root dependencies are left alone, and the
dependency graph changes only when the file is fetched, by what
[_addDependency] does for the referrer and the file: unless the package or
the version is named after a member every object inherits, that is the edge
from the referrer's package at that version to the same package at the same
version.  The statement leaves out a path that is handled while this
version's file has no result, which is what the version-less key of line 302
produces when another version of the package was crawled first. *)
Theorem relative_crawl_records_a_self_edge
    (U : UtilOps) (P : Platform)
    (recurse : string -> option NpmFileLocation -> Types.GetPackageJson
               -> Types.Crawl unit)
    (relative : string) (referrer referrer' : NpmFileLocation)
    (getPackageJson : Types.GetPackageJson) (st : Types.TypesFetcher) :
  let dtsPath :=
    changeFileExtension (Js.slice 1 (resolveUrlPath (path referrer) relative))
      "d.ts" in
  let key := pkg referrer ++ "/" ++ dtsPath in
  let location' := mkLoc (pkg referrer) (version referrer') dtsPath in
  let before :=
    Obj.get (Types.specifierOf location') (Types._specifierToFetchResult st) in
  resolveFromCache (Types._cdn st) referrer = (referrer', true) ->
  fileExtension (path referrer) <> EmptyString ->
  fileExtension dtsPath <> EmptyString ->
  (key ∈ Types._handledSpecifiers st -> before <> None) ->
  exists r st',
    Obj.get (Types.specifierOf location') (Types._specifierToFetchResult st')
    = Some r
    /\ r = match before with
           | Some known => known
           | None =>
               match cdn_fetch location' (Types._cdn st) with
               | (Ok f, _) => Types.Fetched (content f)
               | (Throw _, _) => Types.Failed 404
               end
           end
    /\ Types._handleRelativeSpecifier_with recurse relative (Some referrer)
         getPackageJson st
       = (if decide (key ∈ Types._handledSpecifiers st)
          then Some (Ok tt, st')
          else
            match r with
            | Types.Fetched text =>
                recurse text
                  (Some (mkLoc (pkg referrer) (version referrer) dtsPath))
                  getPackageJson st'
            | Types.Failed _ => Some (Ok tt, st')
            end)
    /\ (key ∈ Types._handledSpecifiers st -> st' = st)
    /\ Types._rootDependencies st' = Types._rootDependencies st
    /\ Types._dependencyGraph st'
       = match before with
         | None =>
             snd (Types.addDependency (Some referrer') location'
                    (Types._rootDependencies st) (Types._dependencyGraph st))
         | Some _ => Types._dependencyGraph st
         end
    /\ (Js.inherited (pkg referrer) = None ->
        Js.inherited (version referrer') = None ->
        forall Q v D,
          Obj.get D (Layout.edges (Types._dependencyGraph st') Q v)
          = match before with
            | None =>
                if decide (Q = pkg referrer /\ v = version referrer'
                           /\ D = pkg referrer)
                then Some (version referrer')
                else Obj.get D (Layout.edges (Types._dependencyGraph st) Q v)
            | Some _ =>
                Obj.get D (Layout.edges (Types._dependencyGraph st) Q v)
            end).
Proof.
  intros dtsPath key location' before Hres Hext Hextp Hslip.
  set (claimed :=
         Types.mkTypesFetcher (Types._cdn st) (Types._entrypointTasks st)
           (Types._handledSpecifiers st ∪ {[key]})
           (Types._specifierToFetchResult st) (Types._rootDependencies st)
           (Types._dependencyGraph st) (Types.packageJson2_locals st)).
  destruct (resolveFromCache_keeps _ _ _ _ Hres) as [Hpkg _].
  assert (Hrun : forall s,
             Types._handleRelativeSpecifier_with recurse relative
               (Some referrer) getPackageJson s
             = if decide (key ∈ Types._handledSpecifiers s)
               then Some (Ok tt, s)
               else
                 match
                   Types._fetchAndAddToOutputFiles
                     (mkLoc (pkg referrer) (version referrer) dtsPath)
                     (Some referrer)
                     (Types.mkTypesFetcher (Types._cdn s)
                        (Types._entrypointTasks s)
                        (Types._handledSpecifiers s ∪ {[key]})
                        (Types._specifierToFetchResult s)
                        (Types._rootDependencies s)
                        (Types._dependencyGraph s)
                        (Types.packageJson2_locals s))
                 with
                 | (Ok (Types.Fetched text), s') =>
                     recurse text
                       (Some (mkLoc (pkg referrer) (version referrer) dtsPath))
                       getPackageJson s'
                 | (_, s') => Some (Ok tt, s')
                 end).
  { intros s. unfold Types._handleRelativeSpecifier_with.
    fold dtsPath. fold key. unfold Types.cbind, Types.lift, Types.claim at 1.
    destruct (decide _) as [Hin | _]; [reflexivity|].
    simpl. unfold tryCatch, bind.
    destruct (Types._fetchAndAddToOutputFiles _ _ _) as [[[text | e] | m] s'];
      reflexivity. }
  rewrite Hrun. fold claimed.
  destruct (decide (key ∈ Types._handledSpecifiers st)) as [Hin | Hnew].
  - destruct before as [known|] eqn:Hbefore; [|exfalso; apply (Hslip Hin); reflexivity].
    exists known, st. repeat split; try reflexivity. exact Hbefore.
  - destruct before as [known|] eqn:Hbefore.
    + rewrite (_fetchAndAddToOutputFiles_sibling_known referrer referrer'
                 dtsPath claimed known Hres Hext Hextp Hbefore).
      exists known, claimed. split; [exact Hbefore|]. split; [reflexivity|].
      split; [destruct known; reflexivity|].
      split; [intros Hin; contradiction|]. repeat split; reflexivity.
    + destruct (_fetchAndAddToOutputFiles_sibling referrer referrer' dtsPath
                  claimed Hres Hext Hextp Hbefore)
        as (r & st' & Hfetch & Hr & Hget & Hroot & _ & Hgraph).
      rewrite Hfetch. exists r, st'. split; [exact Hget|].
      split; [exact Hr|]. split; [destruct r; reflexivity|].
      split; [intros Hin; contradiction|]. split; [exact Hroot|].
      split; [exact Hgraph|].
      intros Hp Hv Q v D. rewrite Hgraph.
      rewrite edges_addDependency; cbn [pkg version path location'].
      * rewrite Hpkg. reflexivity.
      * rewrite Hpkg. exact Hp.
      * exact Hv.
      * apply inherited_not_proto. exact Hp.
Qed.

Lemma relative_crawl_records_a_self_edge_witness :
  exists r st',
    @Types._handleRelativeSpecifier specUtil Scenario.typeCdn 1 "./type.js"
      (Some Scenario.fooIndexDts) (Types.Supplied None)
      (Types.newTypesFetcher Scenario.cdn0)
    = match r with
      | Types.Fetched text =>
          @Types._handleBareAndRelativeSpecifiers specUtil Scenario.typeCdn 1
            text (Some (mkLoc "foo" "1.0.0" "type.d.ts"))
            (Types.Supplied None) st'
      | Types.Failed _ => Some (Ok tt, st')
      end
    /\ r = Types.Fetched "export type t = string;"
    /\ Types._rootDependencies st' = []
    /\ Obj.get "foo" (Layout.edges (Types._dependencyGraph st') "foo" "1.0.0")
       = Some "1.0.0"
    /\ Obj.get "bar" (Layout.edges (Types._dependencyGraph st') "foo" "1.0.0")
       = None.
Proof.
  destruct (relative_crawl_records_a_self_edge specUtil Scenario.typeCdn
              (@Types._handleBareAndRelativeSpecifiers specUtil
                 Scenario.typeCdn 1)
              "./type.js" Scenario.fooIndexDts Scenario.fooIndexDts
              (Types.Supplied None) (Types.newTypesFetcher Scenario.cdn0))
    as (r & st' & _ & Hr & Hrun & _ & Hroot & _ & Hedges).
  - reflexivity.
  - simpl. discriminate.
  - simpl. discriminate.
  - simpl. intros Hin. exfalso. revert Hin. apply not_elem_of_empty.
  - specialize (Hedges eq_refl eq_refl).
    exists r, st'. split; [exact Hrun|]. split; [exact Hr|].
    split; [exact Hroot|]. split; rewrite Hedges; reflexivity.
Defined.

(** The set of handled specifiers holds the sibling path without a version
(line 302, where [_handleBareSpecifier] keys with the version): once
./type.js has been crawled from foo 1.0.0, the same import in foo 2.0.0 is
taken to be handled, and foo@2.0.0/type.d.ts is never requested. *)
Lemma sibling_of_a_second_version_is_skipped :
  exists st1,
    @Types._handleRelativeSpecifier specUtil Scenario.typeCdn 1 "./type.js"
      (Some Scenario.fooIndexDts) (Types.Supplied None)
      (Types.newTypesFetcher Scenario.cdn0)
    = Some (Ok tt, st1)
    /\ @Types._handleRelativeSpecifier specUtil Scenario.typeCdn 1 "./type.js"
         (Some (mkLoc "foo" "2.0.0" "index.d.ts")) (Types.Supplied None) st1
       = Some (Ok tt, st1)
    /\ requests (Types._cdn st1) = ["https://unpkg.com/foo@1.0.0/type.d.ts"]
    /\ Obj.get "foo@2.0.0/type.d.ts" (Types._specifierToFetchResult st1) = None.
Proof. vm_compute. eexists. repeat split. Qed.

(** ** TypesFetcher: the crawl does not reject *)

Section CrawlSettles.
Context {U : UtilOps} {P : Platform}.

Lemma quiet_ret {A} (a : A) : quiet (ret a).
Proof. intros st. reflexivity. Qed.

Lemma quiet_throw {A} (m : string) : quiet (@throw Types.TypesFetcher A m).
Proof. intros st. reflexivity. Qed.

Lemma quiet_getState : quiet (@getState Types.TypesFetcher).
Proof. intros st. reflexivity. Qed.

Lemma quiet_bind {A B} (c : M Types.TypesFetcher A)
    (k : A -> M Types.TypesFetcher B) :
  quiet c -> (forall a, quiet (k a)) -> quiet (bind c k).
Proof.
  intros Hc Hk st. unfold bind. specialize (Hc st).
  destruct (c st) as [[a | m] st']; simpl in Hc; [|exact Hc].
  rewrite (Hk a st'). exact Hc.
Qed.

Lemma quiet_tryCatch {A} (c : M Types.TypesFetcher A)
    (h : string -> M Types.TypesFetcher A) :
  quiet c -> (forall m, quiet (h m)) -> quiet (tryCatch c h).
Proof.
  intros Hc Hh st. unfold tryCatch. specialize (Hc st).
  destruct (c st) as [[a | m] st']; simpl in Hc; [exact Hc|].
  rewrite (Hh m st'). exact Hc.
Qed.

Lemma quiet_liftCdn {A} (c : M CachingCdn A) : quiet (Types.liftCdn c).
Proof.
  intros st. unfold Types.liftCdn. destruct (c (Types._cdn st)). reflexivity.
Qed.

Lemma quiet_addDependency from to : quiet (Types._addDependency from to).
Proof.
  intros st. unfold Types._addDependency, modifyState.
  destruct (Types.addDependency _ _ _ _). reflexivity.
Qed.

Lemma quiet_setFetchResult specifier r : quiet (Types.setFetchResult specifier r).
Proof. intros st. reflexivity. Qed.

Lemma quiet_setPackageJson2 cell v : quiet (Types.setPackageJson2 cell v).
Proof. intros st. reflexivity. Qed.

Lemma quiet_claim key : quiet (Types.claim key).
Proof. intros st. unfold Types.claim. destruct (decide _); reflexivity. Qed.

Lemma quiet_requireString v : quiet (Types.requireString v).
Proof. intros st. destruct v; reflexivity. Qed.

#[local] Hint Resolve quiet_ret quiet_throw quiet_getState quiet_liftCdn
  quiet_addDependency quiet_setFetchResult quiet_setPackageJson2 quiet_claim
  quiet_requireString : calm.

Ltac quiet :=
  repeat first
    [ progress (intros)
    | solve [auto with calm]
    | apply quiet_bind
    | apply quiet_tryCatch
    | match goal with
      | |- quiet (match ?x with _ => _ end) => destruct x
      | |- quiet (if ?b then _ else _) => destruct b
      end ].

Lemma quiet_fetchAndAddToOutputFiles location referrer :
  quiet (Types._fetchAndAddToOutputFiles location referrer).
Proof.
  unfold Types._fetchAndAddToOutputFiles, Types.canonicalizeReferrer. quiet.
Qed.

#[local] Hint Resolve quiet_fetchAndAddToOutputFiles : calm.

Lemma calm_ret {A} (a : A) : calm (ret a).
Proof. intros st. exists a, st. split; reflexivity. Qed.

Lemma calm_bind {A B} (c : M Types.TypesFetcher A)
    (k : A -> M Types.TypesFetcher B) :
  calm c -> (forall a, calm (k a)) -> calm (bind c k).
Proof.
  intros Hc Hk st. destruct (Hc st) as (a & st' & Hrun & Htasks).
  destruct (Hk a st') as (b & st'' & Hrun' & Htasks').
  exists b, st''. unfold bind. rewrite Hrun, Hrun'. split; congruence.
Qed.

Lemma calm_tryCatch {A} (c : M Types.TypesFetcher A)
    (h : string -> M Types.TypesFetcher A) :
  quiet c -> (forall m, calm (h m)) -> calm (tryCatch c h).
Proof.
  intros Hc Hh st. unfold tryCatch. specialize (Hc st).
  destruct (c st) as [[a | m] st']; simpl in Hc.
  - exists a, st'. split; [reflexivity | exact Hc].
  - destruct (Hh m st') as (b & st'' & Hrun & Htasks).
    exists b, st''. split; [exact Hrun | congruence].
Qed.

Lemma calm_getState : calm (@getState Types.TypesFetcher).
Proof. intros st. exists st, st. split; reflexivity. Qed.

Lemma calm_claim key : calm (Types.claim key).
Proof.
  intros st. unfold Types.claim.
  destruct (decide _); eexists _, _; split; reflexivity.
Qed.

Lemma calm_newPackageJson2 : calm Types.newPackageJson2.
Proof. intros st. eexists _, _. split; reflexivity. Qed.

Lemma calm_setPackageJson2 cell v : calm (Types.setPackageJson2 cell v).
Proof. intros st. eexists _, _. split; reflexivity. Qed.

#[local] Hint Resolve calm_ret calm_getState calm_claim calm_newPackageJson2
  calm_setPackageJson2 : calm.

Ltac calm :=
  repeat first
    [ progress (intros)
    | solve [auto with calm]
    | solve [quiet]
    | apply calm_bind
    | apply calm_tryCatch
    | match goal with
      | |- calm (match ?x with _ => _ end) => destruct x
      | |- calm (if ?b then _ else _) => destruct b
      end ].

Lemma calm_callGetPackageJson g :
  resolves g -> calm (Types.callGetPackageJson g).
Proof.
  destruct g as [value | message | cell pkg version]; simpl;
    [auto with calm | intros [] | intros _].
  apply calm_bind; [auto with calm|]. intros st.
  destruct (Types.packageJson2_locals st !! cell) as [[known|]|]; calm.
Qed.

#[local] Hint Resolve calm_callGetPackageJson : calm.







Lemma promiseAll_ok (promises : list (Res unit)) :
  Forall isOk promises -> Types.promiseAll promises = Ok tt.
Proof.
  induction 1 as [|r rest [a ->] _ IH]; [reflexivity|]. simpl. exact IH.
Qed.


Lemma settles_weaken {A} (Q Q' : A -> Prop) (c : Types.Crawl A) :
  (forall a, Q a -> Q' a) -> settles Q c -> settles Q' c.
Proof.
  intros HQ Hc st Hst. specialize (Hc st Hst).
  destruct (c st) as [[r st']|]; [|exact I].
  destruct Hc as [(a & -> & Ha) Hst']. split; [exists a; auto | exact Hst'].
Qed.








End CrawlSettles.

(** ** TypesFetcher: failed fetches and [getFiles] *)

Section GetFiles.
Context {U : UtilOps} {P : Platform}.




End GetFiles.

(** ** TypesFetcher: a deeper crawl finishes as a shallower one did *)

Section Fuel.
Context {U : UtilOps} {P : Platform}.

Lemma deepens_refl {A} (c : Types.Crawl A) : deepens c c.
Proof. intros st r H. exact H. Qed.

Lemma deepens_cbind {A B} (c1 c2 : Types.Crawl A) (k1 k2 : A -> Types.Crawl B) :
  deepens c1 c2 -> (forall a, deepens (k1 a) (k2 a)) ->
  deepens (Types.cbind c1 k1) (Types.cbind c2 k2).
Proof.
  intros Hc Hk st r. unfold Types.cbind.
  destruct (c1 st) as [[[a | m] st1]|] eqn:H1; [| |discriminate];
    rewrite (Hc _ _ H1); [apply Hk | auto].
Qed.

Lemma deepens_settle (c1 c2 : Types.Crawl unit) :
  deepens c1 c2 -> deepens (Types.settle c1) (Types.settle c2).
Proof.
  intros Hc st r. unfold Types.settle.
  destruct (c1 st) as [[r1 st1]|] eqn:H1; [|discriminate].
  rewrite (Hc _ _ H1). auto.
Qed.


Ltac deepens :=
  repeat first
    [ apply deepens_refl
    | assumption
    | apply deepens_settle
    | apply deepens_cbind; [|intros ?]
    | match goal with
      | |- deepens (match ?x with _ => _ end) (match ?x with _ => _ end) =>
          destruct x
      | |- deepens (if ?b then _ else _) (if ?b then _ else _) => destruct b
      | H : forall text referrer g, deepens _ _ |- _ => apply H
      end ].

Section Recurse.
Variables recurse1 recurse2 :
  string -> option NpmFileLocation -> Types.GetPackageJson -> Types.Crawl unit.
Hypothesis Hrec : forall text referrer g,
  deepens (recurse1 text referrer g) (recurse2 text referrer g).




End Recurse.




End Fuel.

(** ** The layout of node_modules *)

Section LayoutFacts.
Variable G : Layout.DependencyGraph.

Lemma placedIn_In L dir D v :
  Layout.placedIn L dir D = Some v -> In (dir, D, v) L.
Proof.
  induction L as [|[[dir' p] v'] rest IH]; simpl; [discriminate|].
  unfold Layout.sameDir. case_bool_decide as Hdir; simpl.
  - destruct (String.eqb_spec p D) as [-> | Hp].
    + intros [= ->]. left. subst. reflexivity.
    + intros H. right. apply IH. exact H.
  - intros H. right. apply IH. exact H.
Qed.

Lemma placedIn_None L dir D v :
  Layout.placedIn L dir D = None -> ~ In (dir, D, v) L.
Proof.
  induction L as [|[[dir' p] v'] rest IH]; simpl; [tauto|].
  unfold Layout.sameDir. case_bool_decide as Hdir; simpl.
  - destruct (String.eqb_spec p D) as [-> | Hp]; [discriminate|].
    intros H [Heq | Hin]; [congruence | exact (IH H Hin)].
  - intros H [Heq | Hin]; [congruence | exact (IH H Hin)].
Qed.

Lemma placedIn_app_Some L X dir D v :
  Layout.placedIn L dir D = Some v ->
  Layout.placedIn (L ++ X) dir D = Some v.
Proof.
  induction L as [|[[dir' p] v'] rest IH]; simpl; [discriminate|].
  destruct (Layout.sameDir dir' dir && String.eqb p D); [auto | exact IH].
Qed.

Lemma placedAbove_nil L D :
  Layout.placedAbove L [] D = Layout.placedIn L [] D.
Proof. simpl. destruct (Layout.placedIn L [] D); reflexivity. Qed.

Lemma placedAbove_In L dir D v :
  Layout.placedAbove L dir D = Some v -> exists dir', In (dir', D, v) L.
Proof.
  induction dir as [|P parent IH]; simpl.
  - destruct (Layout.placedIn L [] D) eqn:Hp; [|discriminate].
    intros [= ->]. exists []. apply placedIn_In. exact Hp.
  - destruct (Layout.placedIn L (P :: parent) D) eqn:Hp.
    + intros [= ->]. exists (P :: parent). apply placedIn_In. exact Hp.
    + exact IH.
Qed.

Lemma placedAbove_None_top L dir D :
  Layout.placedAbove L dir D = None -> Layout.placedIn L [] D = None.
Proof.
  induction dir as [|P parent IH]; simpl.
  - destruct (Layout.placedIn L [] D); [discriminate | reflexivity].
  - destruct (Layout.placedIn L (P :: parent) D); [discriminate | exact IH].
Qed.

Lemma visit_unfold fuel dir P v L :
  Layout.visit (S fuel) G dir P v L
  = fold_left (visitEdge fuel G dir P) (Layout.edges G P v) L.
Proof. reflexivity. Qed.

(** Placements are only ever added, at the end. *)
Lemma fold_visitEdge_extends fuel dir P :
  (forall dir P v L, exists X, Layout.visit fuel G dir P v L = (L ++ X)%list) ->
  forall es L, exists X, fold_left (visitEdge fuel G dir P) es L = (L ++ X)%list.
Proof.
  intros IH es. induction es as [|[D dv] rest IHes]; intros L.
  - exists []. simpl. rewrite app_nil_r. reflexivity.
  - cbn [fold_left].
    assert (Hstep : exists X, visitEdge fuel G dir P L (D, dv) = (L ++ X)%list).
    { unfold visitEdge. destruct (Layout.placedAbove L dir D) as [placed|].
      - destruct (String.eqb placed dv).
        + exists []. rewrite app_nil_r. reflexivity.
        + destruct (IH (P :: dir) D dv (L ++ [(P :: dir, D, dv)])%list) as [X ->].
          exists ((P :: dir, D, dv) :: X). rewrite <- app_assoc. reflexivity.
      - destruct (IH [] D dv (L ++ [([], D, dv)])%list) as [X ->].
        exists (([], D, dv) :: X). rewrite <- app_assoc. reflexivity. }
    destruct Hstep as [X ->]. destruct (IHes (L ++ X)%list) as [Y ->].
    exists (X ++ Y)%list. rewrite app_assoc. reflexivity.
Qed.

Lemma visit_extends fuel :
  forall dir P v L, exists X, Layout.visit fuel G dir P v L = (L ++ X)%list.
Proof.
  induction fuel as [|fuel IH]; intros dir P v L.
  - exists []. simpl. rewrite app_nil_r. reflexivity.
  - rewrite visit_unfold. apply fold_visitEdge_extends. exact IH.
Qed.

Lemma visitEdge_extends fuel dir P L edge :
  exists X, visitEdge fuel G dir P L edge = (L ++ X)%list.
Proof.
  destruct (fold_visitEdge_extends fuel dir P (visit_extends fuel) [edge] L)
    as [X HX].
  exists X. exact HX.
Qed.

Variable R : Layout.PackageDependencies.

Lemma wellPlaced_add L dir D dv :
  wellPlaced R G L ->
  requires R G D dv ->
  (dir <> [] -> exists dir' dv', In (dir', D, dv') L /\ dv' <> dv) ->
  wellPlaced R G (L ++ [(dir, D, dv)]).
Proof.
  intros HL Hreq Hnest dir0 D0 dv0 Hin.
  apply in_app_or in Hin as [Hin | [Heq | []]].
  - destruct (HL dir0 D0 dv0 Hin) as [H1 H2]. split; [exact H1|].
    intros Hd. destruct (H2 Hd) as (dir' & dv' & Hin' & Hne).
    exists dir', dv'. split; [apply in_or_app; left; exact Hin' | exact Hne].
  - injection Heq as <- <- <-. split; [exact Hreq|].
    intros Hd. destruct (Hnest Hd) as (dir' & dv' & Hin' & Hne).
    exists dir', dv'. split; [apply in_or_app; left; exact Hin' | exact Hne].
Qed.

Lemma fold_visitEdge_wellPlaced fuel dir P v :
  (forall dir P v L, wellPlaced R G L ->
                     wellPlaced R G (Layout.visit fuel G dir P v L)) ->
  forall es L,
    (forall e, In e es -> In e (Layout.edges G P v)) ->
    wellPlaced R G L ->
    wellPlaced R G (fold_left (visitEdge fuel G dir P) es L).
Proof.
  intros IH es. induction es as [|[D dv] rest IHes]; intros L Hes HL;
    [exact HL|].
  cbn [fold_left]. apply IHes.
  - intros e He. apply Hes. right. exact He.
  - assert (Hreq : requires R G D dv).
    { right. exists P, v. apply Hes. left. reflexivity. }
    unfold visitEdge. destruct (Layout.placedAbove L dir D) as [placed|] eqn:Hp.
    + destruct (String.eqb_spec placed dv) as [_ | Hne]; [exact HL|].
      apply IH. apply wellPlaced_add; [exact HL | exact Hreq|].
      intros _. destruct (placedAbove_In _ _ _ _ Hp) as [dir' Hin].
      exists dir', placed. split; assumption.
    + apply IH. apply wellPlaced_add; [exact HL | exact Hreq|].
      intros Hd. contradiction.
Qed.

Lemma visit_wellPlaced fuel :
  forall dir P v L, wellPlaced R G L ->
                    wellPlaced R G (Layout.visit fuel G dir P v L).
Proof.
  induction fuel as [|fuel IH]; intros dir P v L HL; [exact HL|].
  rewrite visit_unfold. apply (fold_visitEdge_wellPlaced fuel dir P v IH);
    [auto | exact HL].
Qed.

Lemma topLevel_app L X : topLevel (L ++ X) = (topLevel L ++ topLevel X)%list.
Proof. unfold topLevel. rewrite List.filter_app, map_app. reflexivity. Qed.

Lemma topLevel_placedIn L D :
  Layout.placedIn L [] D = None -> ~ In D (topLevel L).
Proof.
  intros Hnone Hin. unfold topLevel in Hin.
  apply in_map_iff in Hin as ([[dir p] v] & Hp & Hin). simpl in Hp. subst p.
  apply filter_In in Hin as [Hin Hdir]. simpl in Hdir.
  unfold Layout.sameDir in Hdir. apply bool_decide_eq_true in Hdir. subst dir.
  exact (placedIn_None _ _ _ _ Hnone Hin).
Qed.

Lemma NoDup_snoc {A} (l : list A) (x : A) :
  NoDup l -> ~ In x l -> NoDup (l ++ [x]).
Proof.
  intros Hl Hx. apply NoDup_app. split; [exact Hl|].
  split; [|apply NoDup_singleton].
  intros y Hy Hy1. apply list_elem_of_In in Hy.
  apply list_elem_of_singleton in Hy1. subst y. exact (Hx Hy).
Qed.

Lemma fold_visitEdge_topLevel fuel dir P :
  (forall dir P v L, NoDup (topLevel L) ->
                     NoDup (topLevel (Layout.visit fuel G dir P v L))) ->
  forall es L,
    NoDup (topLevel L) ->
    NoDup (topLevel (fold_left (visitEdge fuel G dir P) es L)).
Proof.
  intros IH es. induction es as [|[D dv] rest IHes]; intros L HL; [exact HL|].
  cbn [fold_left]. apply IHes.
  unfold visitEdge. destruct (Layout.placedAbove L dir D) as [placed|] eqn:Hp.
  - destruct (String.eqb placed dv); [exact HL|].
    apply IH. rewrite topLevel_app. unfold topLevel at 2. simpl.
    rewrite app_nil_r. exact HL.
  - apply IH. rewrite topLevel_app. unfold topLevel at 2. simpl.
    apply NoDup_snoc; [exact HL|].
    apply topLevel_placedIn. apply (placedAbove_None_top _ dir). exact Hp.
Qed.

Lemma visit_topLevel fuel :
  forall dir P v L, NoDup (topLevel L) ->
                    NoDup (topLevel (Layout.visit fuel G dir P v L)).
Proof.
  induction fuel as [|fuel IH]; intros dir P v L HL; [exact HL|].
  rewrite visit_unfold. apply (fold_visitEdge_topLevel fuel dir P IH).
  exact HL.
Qed.

(** An edge of a top-level package to a package that the top-level
directory holds at another version is nested under the former. *)
Lemma fold_visitEdge_nests fuel P D dv1 dv2 :
  dv1 <> dv2 ->
  forall es L,
    In (D, dv2) es ->
    Layout.placedIn L [] D = Some dv1 ->
    In ([P], D, dv2) (fold_left (visitEdge fuel G [] P) es L).
Proof.
  intros Hne es. induction es as [|e rest IHes]; intros L Hin Hplaced;
    [destruct Hin|].
  cbn [fold_left]. destruct Hin as [-> | Hin].
  - unfold visitEdge at 2. rewrite placedAbove_nil, Hplaced.
    destruct (String.eqb_spec dv1 dv2) as [Heq | _]; [contradiction|].
    destruct (visit_extends fuel [P] D dv2 (L ++ [([P], D, dv2)])%list)
      as [X ->].
    destruct (fold_visitEdge_extends fuel [] P (visit_extends fuel) rest
                ((L ++ [([P], D, dv2)]) ++ X)%list) as [Y ->].
    apply in_or_app. left. apply in_or_app. left. apply in_or_app. right.
    left. reflexivity.
  - destruct (visitEdge_extends fuel [] P L e) as [X ->].
    apply IHes; [exact Hin|]. apply placedIn_app_Some. exact Hplaced.
Qed.

Lemma placeRoot_spec L d :
  exists X,
    Layout.placeRoot L d = (L ++ X)%list
    /\ (X = [] \/ (X = [([], fst d, snd d)] /\ Layout.placedIn L [] (fst d) = None)).
Proof.
  unfold Layout.placeRoot. destruct (Layout.placedIn L [] (fst d)) eqn:Hp.
  - exists []. rewrite app_nil_r. auto.
  - exists [([], fst d, snd d)]. auto.
Qed.

Lemma placedIn_snoc L dir D k v :
  Layout.placedIn (L ++ [([], k, v)]) dir D
  = match Layout.placedIn L dir D with
    | Some x => Some x
    | None => if Layout.sameDir [] dir && String.eqb k D then Some v else None
    end.
Proof.
  induction L as [|[[dir' p] v'] rest IH]; simpl; [reflexivity|].
  destruct (Layout.sameDir dir' dir && String.eqb p D); [reflexivity | exact IH].
Qed.

Lemma placeRoots_placedIn roots L D :
  Layout.placedIn (fold_left Layout.placeRoot roots L) [] D
  = match Layout.placedIn L [] D with
    | Some v => Some v
    | None => Obj.get D roots
    end.
Proof.
  revert L. induction roots as [|[k v] rest IH]; intros L; simpl.
  - destruct (Layout.placedIn L [] D); reflexivity.
  - rewrite IH. unfold Layout.placeRoot. simpl.
    destruct (Layout.placedIn L [] k) eqn:Hk.
    + destruct (Layout.placedIn L [] D) eqn:HD; [reflexivity|].
      destruct (String.eqb_spec k D) as [-> | _]; [congruence | reflexivity].
    + rewrite placedIn_snoc.
      destruct (Layout.placedIn L [] D) eqn:HD; [reflexivity|].
      unfold Layout.sameDir. rewrite bool_decide_eq_true_2 by reflexivity.
      simpl. destruct (String.eqb k D); reflexivity.
Qed.

Lemma placeRoots_wellPlaced roots L :
  (forall d, In d roots -> In d R) ->
  wellPlaced R G L -> wellPlaced R G (fold_left Layout.placeRoot roots L).
Proof.
  revert L. induction roots as [|[k v] rest IH]; intros L Hsub HL; [exact HL|].
  simpl. apply IH; [intros d Hd; apply Hsub; right; exact Hd|].
  unfold Layout.placeRoot. simpl. destruct (Layout.placedIn L [] k); [exact HL|].
  apply wellPlaced_add; [exact HL | | intros Hd; contradiction].
  left. apply Hsub. left. reflexivity.
Qed.

Lemma placeRoots_topLevel roots L :
  NoDup (topLevel L) -> NoDup (topLevel (fold_left Layout.placeRoot roots L)).
Proof.
  revert L. induction roots as [|[k v] rest IH]; intros L HL; [exact HL|].
  simpl. apply IH. unfold Layout.placeRoot. simpl.
  destruct (Layout.placedIn L [] k) eqn:Hk; [exact HL|].
  rewrite topLevel_app. unfold topLevel at 2. simpl.
  apply NoDup_snoc; [exact HL|]. apply topLevel_placedIn. exact Hk.
Qed.

Lemma Obj_get_In {V} (k : string) (v : V) (o : list (string * V)) :
  Obj.get k o = Some v -> In (k, v) o.
Proof.
  induction o as [|[k' v'] rest IH]; simpl; [discriminate|].
  destruct (String.eqb_spec k' k) as [-> | _].
  - intros [= ->]. left. reflexivity.
  - intros H. right. apply IH. exact H.
Qed.

Lemma visits_extends fuel roots L :
  exists X,
    fold_left (fun L (d : string * string) =>
                 Layout.visit fuel G [] (fst d) (snd d) L) roots L
    = (L ++ X)%list.
Proof.
  revert L. induction roots as [|d rest IH]; intros L.
  - exists []. simpl. rewrite app_nil_r. reflexivity.
  - simpl. destruct (visit_extends fuel [] (fst d) (snd d) L) as [X ->].
    destruct (IH (L ++ X)%list) as [Y ->].
    exists (X ++ Y)%list. rewrite app_assoc. reflexivity.
Qed.

Lemma visits_nest fuel P pv D dv1 dv2 roots L :
  dv1 <> dv2 ->
  In (P, pv) roots ->
  In (D, dv2) (Layout.edges G P pv) ->
  Layout.placedIn L [] D = Some dv1 ->
  In ([P], D, dv2)
     (fold_left (fun L (d : string * string) =>
                   Layout.visit (S fuel) G [] (fst d) (snd d) L) roots L).
Proof.
  intros Hne. revert L. induction roots as [|d rest IH]; intros L Hin Hedge Hp;
    [destruct Hin|].
  cbn [fold_left]. destruct Hin as [-> | Hin].
  - cbn [fst snd].
    pose proof (fold_visitEdge_nests fuel P D dv1 dv2 Hne
                  (Layout.edges G P pv) L Hedge Hp) as Hnest.
    rewrite <- visit_unfold in Hnest.
    destruct (visits_extends (S fuel) rest
                (Layout.visit (S fuel) G [] P pv L)) as [X ->].
    apply in_or_app. left. exact Hnest.
  - destruct (visit_extends (S fuel) [] (fst d) (snd d) L) as [X ->].
    apply IH; [exact Hin | exact Hedge|]. apply placedIn_app_Some. exact Hp.
Qed.

Lemma visits_wellPlaced fuel roots L :
  wellPlaced R G L ->
  wellPlaced R G
    (fold_left (fun L (d : string * string) =>
                  Layout.visit fuel G [] (fst d) (snd d) L) roots L).
Proof.
  revert L. induction roots as [|d rest IH]; intros L HL; [exact HL|].
  simpl. apply IH. apply visit_wellPlaced. exact HL.
Qed.

Lemma visits_topLevel fuel roots L :
  NoDup (topLevel L) ->
  NoDup (topLevel
           (fold_left (fun L (d : string * string) =>
                         Layout.visit fuel G [] (fst d) (snd d) L) roots L)).
Proof.
  revert L. induction roots as [|d rest IH]; intros L HL; [exact HL|].
  simpl. apply IH. apply visit_topLevel. exact HL.
Qed.

End LayoutFacts.

Section BuildFiles.
Context {U : UtilOps} {P : Platform}.

Lemma append_assoc (a b c : string) : (a ++ b) ++ c = a ++ b ++ c.
Proof.
  induction a as [|x a IH]; [reflexivity|].
  change (String x ((a ++ b) ++ c) = String x (a ++ b ++ c)).
  rewrite IH. reflexivity.
Qed.

Lemma append_not_empty (a : string) (x : ascii) (b : string) :
  String.eqb (a ++ String x b) EmptyString = false.
Proof. destruct a; reflexivity. Qed.

Lemma setAll_app ws ws' results :
  setAll (ws ++ ws') results = setAll ws' (setAll ws results).
Proof. unfold setAll. apply fold_left_app. Qed.

Lemma writeFiles_setAll dir files results :
  Types.writeFiles dir files results
  = setAll (map (fun f => (dir ++ fst f, snd f)) files) results.
Proof.
  revert results. induction files as [|[path content] rest IH]; intros results;
    [reflexivity|].
  simpl. apply IH.
Qed.

Lemma _buildFiles_setAll filesByPv layout results prefix :
  Types._buildFiles filesByPv layout results prefix
  = setAll (writes filesByPv layout prefix) results.
Proof.
  revert results prefix.
  induction layout as [|pkg version nested IHnested rest IHrest];
    intros results prefix; [reflexivity|].
  simpl. rewrite !setAll_app, IHrest, IHnested, writeFiles_setAll.
  reflexivity.
Qed.

Lemma setAll_get ws :
  NoDup (map fst ws) ->
  forall k v, In (k, v) ws -> Obj.get k (setAll ws []) = Some v.
Proof.
  induction ws as [|[k0 v0] ws IH] using rev_ind; intros Hnd k v Hin;
    [destruct Hin|].
  rewrite setAll_app. simpl. rewrite map_app in Hnd. simpl in Hnd.
  apply NoDup_app in Hnd as (Hnd & Hfresh & _).
  apply in_app_or in Hin as [Hin | [[= <- <-] | []]].
  - rewrite Obj_get_set_ne; [apply IH; assumption|].
    intros ->. apply (Hfresh k).
    + apply list_elem_of_In. apply in_map_iff. exists (k, v). auto.
    + apply list_elem_of_singleton. reflexivity.
  - apply Obj_get_set_eq.
Qed.

Lemma toDirectory_entry depth L dir p v :
  In (dir, p, v) L ->
  hasEntry (Layout.toDirectory (S depth) L dir) p v
    (Layout.toDirectory depth L (p :: dir)).
Proof.
  simpl. generalize L at 1 3. intros L0.
  induction L0 as [|[[dir' p'] v'] rest IH]; intros Hin; [destruct Hin|].
  simpl. destruct Hin as [[= -> -> ->] | Hin].
  - unfold Layout.sameDir. rewrite bool_decide_eq_true_2 by reflexivity.
    simpl. left. auto.
  - destruct (Layout.sameDir dir' dir); [simpl; right|]; apply IH; exact Hin.
Qed.

Lemma writes_entry filesByPv layout prefix pkg version nested :
  hasEntry layout pkg version nested ->
  let prefix' := if String.eqb prefix EmptyString then prefix else prefix ++ "/" in
  (forall f, In f (Js.orElse (Obj.get (pkg ++ "@" ++ version) filesByPv) []) ->
             In ((prefix' ++ pkg ++ "/") ++ fst f, snd f)
                (writes filesByPv layout prefix))
  /\ (forall w, In w (writes filesByPv nested (prefix' ++ pkg ++ "/node_modules")) ->
                In w (writes filesByPv layout prefix)).
Proof.
  intros Hentry prefix'.
  induction layout as [|p v n _ rest IHrest]; [destruct Hentry|].
  simpl in Hentry. destruct Hentry as [(-> & -> & ->) | Hentry].
  - split.
    + intros f Hf. simpl. apply in_or_app. left.
      apply in_map_iff. exists f. auto.
    + intros w Hw. simpl. apply in_or_app. right. apply in_or_app. left.
      exact Hw.
  - destruct (IHrest Hentry) as [H1 H2]. split.
    + intros f Hf. simpl. apply in_or_app. right. apply in_or_app. right.
      apply H1. exact Hf.
    + intros w Hw. simpl. apply in_or_app. right. apply in_or_app. right.
      apply H2. exact Hw.
Qed.

Lemma two_members {A} (a b : A) (l : list A) :
  In a l -> In b l -> a <> b -> exists n, length l = S (S n).
Proof.
  destruct l as [|x [|y l]]; simpl.
  - intros [].
  - intros [<- | []] [<- | []] Hne. contradiction.
  - intros _ _ _. exists (length l). reflexivity.
Qed.

End BuildFiles.

Section Diamond.
Context {U : UtilOps} {P : Platform}.

Lemma placements_diamond fuel R G Pk pv D dv1 dv2 :
  Obj.get Pk R = Some pv ->
  Obj.get D R = Some dv1 ->
  In (D, dv2) (Layout.edges G Pk pv) ->
  dv1 <> dv2 ->
  let L := Layout.placements (S fuel) R G in
  In ([], Pk, pv) L /\ In ([], D, dv1) L /\ In ([Pk], D, dv2) L.
Proof.
  intros HP HD Hedge Hne L. unfold L, Layout.placements.
  set (L0 := fold_left Layout.placeRoot R []).
  assert (HP0 : Layout.placedIn L0 [] Pk = Some pv).
  { unfold L0. rewrite placeRoots_placedIn. exact HP. }
  assert (HD0 : Layout.placedIn L0 [] D = Some dv1).
  { unfold L0. rewrite placeRoots_placedIn. exact HD. }
  destruct (visits_extends G (S fuel) R L0) as [X HX].
  split; [|split].
  - rewrite HX. apply in_or_app. left. apply placedIn_In. exact HP0.
  - rewrite HX. apply in_or_app. left. apply placedIn_In. exact HD0.
  - apply (visits_nest G fuel Pk pv D dv1 dv2); auto.
    apply Obj_get_In. exact HP.
Qed.

Lemma placements_invariants fuel R G :
  wellPlaced R G (Layout.placements fuel R G)
  /\ NoDup (topLevel (Layout.placements fuel R G)).
Proof.
  unfold Layout.placements. split.
  - apply visits_wellPlaced. apply placeRoots_wellPlaced; [auto|].
    intros dir D dv [].
  - apply visits_topLevel. apply placeRoots_topLevel. constructor.
Qed.

Lemma layout_diamond_writes fuel R G filesByPv Pk pv D dv1 dv2 :
  Obj.get Pk R = Some pv ->
  Obj.get D R = Some dv1 ->
  In (D, dv2) (Layout.edges G Pk pv) ->
  dv1 <> dv2 ->
  let ws := writes filesByPv (Layout.layout (S fuel) R G) EmptyString in
  (forall p c,
      In (p, c) (Js.orElse (Obj.get (D ++ "@" ++ dv1) filesByPv) []) ->
      In (D ++ "/" ++ p, c) ws)
  /\ (forall p c,
      In (p, c) (Js.orElse (Obj.get (D ++ "@" ++ dv2) filesByPv) []) ->
      In (Pk ++ "/node_modules/" ++ D ++ "/" ++ p, c) ws).
Proof.
  intros HP HD Hedge Hne ws.
  destruct (placements_diamond fuel R G Pk pv D dv1 dv2 HP HD Hedge Hne)
    as (HinP & HinD & Hnested).
  unfold ws, Layout.layout.
  set (L := Layout.placements (S fuel) R G) in *.
  destruct (two_members _ _ L HinP Hnested ltac:(discriminate)) as [n Hlen].
  rewrite Hlen.
  pose proof (toDirectory_entry (S n) L [] D dv1 HinD) as HentryD.
  pose proof (toDirectory_entry (S n) L [] Pk pv HinP) as HentryP.
  pose proof (toDirectory_entry n L [Pk] D dv2 Hnested) as HentryN.
  split.
  - intros p c Hin.
    destruct (writes_entry filesByPv _ EmptyString D dv1 _ HentryD) as [H _].
    specialize (H (p, c) Hin).
    match type of H with
    | In _ ?W => change (In ((D ++ "/") ++ p, c) W) in H
    end.
    rewrite append_assoc in H. exact H.
  - intros p c Hin.
    destruct (writes_entry filesByPv _ EmptyString Pk pv _ HentryP) as [_ H].
    apply H.
    destruct (writes_entry filesByPv _ (Pk ++ "/node_modules")
                D dv2 _ HentryN) as [H' _].
    specialize (H' (p, c) Hin). cbv zeta in H'.
    rewrite append_not_empty in H'. cbn [fst snd] in H'.
    rewrite !append_assoc in H'. exact H'.
Qed.

Lemma agreed_version_is_placed_once fuel R G D dv :
  (forall v, In (D, v) R -> v = dv) ->
  (forall Q qv v, In (D, v) (Layout.edges G Q qv) -> v = dv) ->
  forall dir v, In (dir, D, v) (Layout.placements fuel R G) ->
                dir = [] /\ v = dv.
Proof.
  intros HR HG dir v Hin.
  destruct (placements_invariants fuel R G) as [Hwell _].
  assert (Hreq : forall v', requires R G D v' -> v' = dv).
  { intros v' [H | (Q & qv & H)]; [apply HR | apply (HG Q qv)]; exact H. }
  destruct (Hwell dir D v Hin) as [Hv Hnest].
  split; [|apply Hreq; exact Hv].
  destruct dir as [|Q dir]; [reflexivity|]. exfalso.
  destruct Hnest as (dir' & v' & Hin' & Hne); [discriminate|].
  destruct (Hwell dir' D v' Hin') as [Hv' _].
  apply Hne. rewrite (Hreq v Hv), (Hreq v' Hv'). reflexivity.
Qed.

End Diamond.

(** What the layout does with an edge the crawl has recorded
([node-modules-layout-maker.ts] is modelled from the specification;
[getFiles], [_buildFiles] and [_addDependency] are the source's).  When the
root requires [D] at one version and a root dependency [Pk] is recorded as
requiring it at another, [getFiles] writes every file of the root's version
under [D/] and every file of the other version under [Pk/node_modules/D/].
A package all of whose recorded requirers agree on its version is placed in
the top-level directory only, and no package is placed there twice. *)
Lemma recorded_conflict_is_nested {U : UtilOps} {P : Platform} :
  (forall fuel st filesByPv Pk pv D dv1 dv2,
      tasksOk st ->
      Types.groupByPv (Types._specifierToFetchResult st) [] = Ok filesByPv ->
      Obj.get Pk (Types._rootDependencies st) = Some pv ->
      Obj.get D (Types._rootDependencies st) = Some dv1 ->
      In (D, dv2) (Layout.edges (Types._dependencyGraph st) Pk pv) ->
      dv1 <> dv2 ->
      let ws :=
        writes filesByPv
          (Layout.layout (S fuel) (Types._rootDependencies st)
             (Types._dependencyGraph st)) EmptyString in
      Types.getFiles (S fuel) st = Ok (setAll ws [])
      /\ (forall p c,
            In (p, c) (Js.orElse (Obj.get (D ++ "@" ++ dv1) filesByPv) []) ->
            In (D ++ "/" ++ p, c) ws)
      /\ (forall p c,
            In (p, c) (Js.orElse (Obj.get (D ++ "@" ++ dv2) filesByPv) []) ->
            In (Pk ++ "/node_modules/" ++ D ++ "/" ++ p, c) ws)
      /\ (NoDup (map fst ws) ->
          forall k v, In (k, v) ws -> Obj.get k (setAll ws []) = Some v))
  /\ (forall fuel R G D dv,
      (forall v, In (D, v) R -> v = dv) ->
      (forall Q qv v, In (D, v) (Layout.edges G Q qv) -> v = dv) ->
      (forall dir v, In (dir, D, v) (Layout.placements fuel R G) ->
                     dir = [] /\ v = dv)
      /\ NoDup (topLevel (Layout.placements fuel R G))).
Proof.
  split.
  - intros fuel st filesByPv Pk pv D dv1 dv2 Hst Hgroup HP HD Hedge Hne ws.
    destruct (layout_diamond_writes fuel _ _ filesByPv Pk pv D dv1 dv2
                HP HD Hedge Hne) as [Htop Hnested].
    split; [|split; [exact Htop | split; [exact Hnested|]]].
    + unfold Types.getFiles. rewrite (promiseAll_ok _ Hst), Hgroup.
      rewrite _buildFiles_setAll. reflexivity.
    + intros Hnd k v Hin. apply setAll_get; assumption.
  - intros fuel R G D dv HR HG. split.
    + apply agreed_version_is_placed_once; assumption.
    + apply placements_invariants.
Qed.

(** [_fetchAndAddToOutputFiles] of a file the fetcher already holds a
result for returns that result at line 345, before [_addDependency]:
whoever the referrer is, no root dependency and no edge is recorded. *)
Lemma known_result_records_no_edge {U : UtilOps} {P : Platform}
    location referrer st location' st1 referrer' st2 known :
  Types.liftCdn (canonicalize location) st = (Ok location', st1) ->
  Types.canonicalizeReferrer referrer st1 = (Ok referrer', st2) ->
  Obj.get (Types.specifierOf location') (Types._specifierToFetchResult st2)
  = Some known ->
  Types._fetchAndAddToOutputFiles location referrer st = (Ok known, st2)
  /\ Types._rootDependencies st2 = Types._rootDependencies st
  /\ Types._dependencyGraph st2 = Types._dependencyGraph st.
Proof.
  intros Hloc Href Hknown. split.
  - unfold Types._fetchAndAddToOutputFiles, bind. rewrite Hloc, Href.
    unfold getState. rewrite Hknown. reflexivity.
  - unfold Types.liftCdn in Hloc.
    destruct (canonicalize location (Types._cdn st)) as [r1 cdn1].
    injection Hloc as _ <-.
    unfold Types.canonicalizeReferrer in Href.
    destruct referrer as [r|].
    + unfold bind, Types.liftCdn in Href. simpl in Href.
      destruct (canonicalize r cdn1) as [[r' | m] cdn2]; [|discriminate].
      injection Href as _ <-. split; reflexivity.
    + injection Href as _ <-. split; reflexivity.
Qed.

(** C5.  The second package to require a conflicting version gets no copy
of it.  The project requires bar at ^1.0.0 (1.2.3); foo and baz each declare
bar at ^2.0.0 (2.3.4) and import it.  The crawl records the edge from foo to
bar 2.3.4 when it fetches bar 2.3.4 for foo; when it comes to the import in
baz, [_handleBareSpecifier] finds the specifier handled and returns before
[_addDependency] is reached, so the graph has no edge from baz, and
[getFiles] places bar 2.3.4 under foo/node_modules/bar/ only: under baz the
directory tree resolves bar to bar/, which holds 1.2.3.  With foo left out
of the project the same import in baz is the first, its edge is recorded,
and bar 2.3.4 is placed under baz/node_modules/bar/.  (The layout itself,
[node-modules-layout-maker.ts], is modelled from the specification.) *)
Theorem second_requirer_gets_no_nested_copy :
  let st := Scenario.sharedFetcher Scenario.sharedSource in
  let st' := Scenario.sharedFetcher Scenario.bazOnlySource in
  tasksOk st
  /\ Obj.get "baz@1.0.0/package.json" (Types._specifierToFetchResult st)
     = Some (Types.Fetched Scenario.fooJson)
  /\ Types.declaredDependency
       (@JSON_parse Scenario.sharedCdn Scenario.fooJson) "bar"
     = Some (Js.Str "^2.0.0")
  /\ Types._rootDependencies st
     = [("foo", "1.2.3"); ("baz", "1.0.0"); ("bar", "1.2.3")]
  /\ Types._dependencyGraph st = [("foo", [("1.2.3", [("bar", "2.3.4")])])]
  /\ @Types.getFiles specUtil 3 st
     = Ok [ ("foo/package.json", Scenario.fooJson);
            ("foo/index.d.ts", Scenario.fooDts);
            ("foo/node_modules/bar/package.json", "{}");
            ("foo/node_modules/bar/index.d.ts", Scenario.bar2Dts);
            ("baz/package.json", Scenario.fooJson);
            ("baz/index.d.ts", Scenario.bazDts);
            ("bar/package.json", "{}");
            ("bar/index.d.ts", Scenario.bar1Dts) ]
  /\ Types._dependencyGraph st' = [("baz", [("1.0.0", [("bar", "2.3.4")])])]
  /\ @Types.getFiles specUtil 3 st'
     = Ok [ ("baz/package.json", Scenario.fooJson);
            ("baz/index.d.ts", Scenario.bazDts);
            ("baz/node_modules/bar/package.json", "{}");
            ("baz/node_modules/bar/index.d.ts", Scenario.bar2Dts);
            ("bar/package.json", "{}");
            ("bar/index.d.ts", Scenario.bar1Dts) ].
Proof.
  vm_compute.
  split; [repeat constructor; exists tt; reflexivity|].
  repeat split; reflexivity.
Qed.


(** * Further properties *)

(** ** Decimal numerals *)

Lemma chars_app (s1 s2 : string) :
  list_ascii_of_string (s1 ++ s2)
  = (list_ascii_of_string s1 ++ list_ascii_of_string s2)%list.
Proof.
  induction s1 as [|c s1 IH]; [reflexivity|].
  change (String c s1 ++ s2) with (String c (s1 ++ s2)).
  simpl. rewrite IH. reflexivity.
Qed.

Lemma digits_of_uint (d : Decimal.uint) :
  forallb Semver.isDigit (list_ascii_of_string (NilEmpty.string_of_uint d))
  = true.
Proof. induction d; simpl; auto. Qed.

Lemma numeric_of_nzhead (d : Decimal.uint) :
  Decimal.nzhead d <> Decimal.Nil ->
  Semver.isNumeric
    (list_ascii_of_string (NilEmpty.string_of_uint (Decimal.nzhead d)))
  = true.
Proof.
  induction d; simpl; intros H; try (apply digits_of_uint);
    [contradiction | auto].
Qed.

Lemma numeric_of_unorm (d : Decimal.uint) :
  Semver.isNumeric
    (list_ascii_of_string (NilEmpty.string_of_uint (Decimal.unorm d)))
  = true.
Proof.
  destruct (Decimal.nzhead d) eqn:Hd;
    [ unfold Decimal.unorm; rewrite Hd; reflexivity | .. ];
    (rewrite DecimalFacts.unorm_nzhead by (rewrite Hd; discriminate));
    apply numeric_of_nzhead; rewrite Hd; discriminate.
Qed.

Lemma to_uint_normal (n : nat) : Decimal.unorm (Nat.to_uint n) = Nat.to_uint n.
Proof.
  rewrite <- DecimalNat.Unsigned.to_of, DecimalNat.Unsigned.of_to.
  reflexivity.
Qed.

(** The decimal rendering of a number is zero, or starts with a digit other
    than zero, and holds digits only. *)
Lemma ofNat_numeric (n : nat) :
  Semver.isNumeric (list_ascii_of_string (Js.ofNat n)) = true.
Proof.
  unfold Js.ofNat. rewrite <- to_uint_normal. apply numeric_of_unorm.
Qed.

Lemma ofNat_digits (n : nat) :
  forallb Semver.isDigit (list_ascii_of_string (Js.ofNat n)) = true.
Proof. apply digits_of_uint. Qed.

Lemma ofNat_not_empty (n : nat) : list_ascii_of_string (Js.ofNat n) <> [].
Proof.
  pose proof (ofNat_numeric n) as H.
  destruct (list_ascii_of_string (Js.ofNat n)); [discriminate H | discriminate].
Qed.

Lemma of_uint_acc_fold (d : Decimal.uint) (acc : nat) :
  Nat.of_uint_acc d acc
  = fold_left (fun a c => digitValue c + 10 * a)
      (list_ascii_of_string (NilEmpty.string_of_uint d)) acc.
Proof.
  revert acc. induction d; intros acc; simpl; [reflexivity | ..];
    rewrite IHd, Nat.tail_mul_spec; reflexivity.
Qed.

Lemma numberRev_fold (l : list ascii) :
  LexerError.numberRev (rev l)
  = fold_left (fun a c => digitValue c + 10 * a) l 0.
Proof.
  rewrite <- (fold_left_rev_right (fun c a => digitValue c + 10 * a)).
  generalize (rev l). intros r. induction r as [|c r IH]; [reflexivity|].
  simpl. rewrite IH. reflexivity.
Qed.

(** Reading back the digits of a number gives the number. *)
Lemma numberRev_ofNat (n : nat) :
  LexerError.numberRev (rev (list_ascii_of_string (Js.ofNat n))) = n.
Proof.
  rewrite numberRev_fold. unfold Js.ofNat. rewrite <- of_uint_acc_fold.
  apply DecimalNat.Unsigned.of_to.
Qed.

Lemma digits_exclude (x : ascii) (l : list ascii) :
  Semver.isDigit x = false -> forallb Semver.isDigit l = true -> ~ List.In x l.
Proof.
  intros Hx Hl Hin. rewrite forallb_forall in Hl.
  rewrite (Hl x Hin) in Hx. discriminate.
Qed.

Lemma digits_rev (l : list ascii) :
  forallb Semver.isDigit l = true -> forallb Semver.isDigit (rev l) = true.
Proof.
  rewrite !forallb_forall. intros H x Hin. apply H, in_rev. exact Hin.
Qed.

Lemma takeDigits_app (ds : list ascii) (x : ascii) (rest : list ascii) :
  forallb Semver.isDigit ds = true -> Semver.isDigit x = false ->
  LexerError.takeDigits (ds ++ x :: rest) = (ds, x :: rest).
Proof.
  intros Hds Hx. induction ds as [|c ds IH]; simpl.
  - rewrite Hx. reflexivity.
  - simpl in Hds. apply andb_prop in Hds as [Hc Hds].
    rewrite Hc, (IH Hds). reflexivity.
Qed.

Lemma position_of_suffix (m : string) (l c : nat) :
  LexerError.position (m ++ "@:" ++ Js.ofNat l ++ ":" ++ Js.ofNat c)
  = Some (l, c).
Proof.
  unfold LexerError.position.
  rewrite !chars_app, !rev_app_distr. simpl. rewrite <- !app_assoc. simpl.
  rewrite (takeDigits_app (rev (list_ascii_of_string (Js.ofNat c))))
    by (try apply digits_rev; try apply ofNat_digits; reflexivity).
  pose proof (ofNat_not_empty c) as Hc.
  destruct (rev (list_ascii_of_string (Js.ofNat c))) as [|c0 cs] eqn:Hrc.
  { exfalso. apply Hc. rewrite <- (rev_involutive (list_ascii_of_string _)).
    rewrite Hrc. reflexivity. }
  rewrite (takeDigits_app (rev (list_ascii_of_string (Js.ofNat l))))
    by (try apply digits_rev; try apply ofNat_digits; reflexivity).
  pose proof (ofNat_not_empty l) as Hl.
  destruct (rev (list_ascii_of_string (Js.ofNat l))) as [|l0 ls] eqn:Hrl.
  { exfalso. apply Hl. rewrite <- (rev_involutive (list_ascii_of_string _)).
    rewrite Hrl. reflexivity. }
  rewrite <- Hrc, <- Hrl, !numberRev_ofNat. reflexivity.
Qed.

Lemma position_needs_a_digit (m : string) (c : ascii) :
  Semver.isDigit c = false ->
  LexerError.position (m ++ String c EmptyString) = None.
Proof.
  intros Hc. unfold LexerError.position.
  rewrite chars_app, rev_app_distr. simpl. rewrite Hc. reflexivity.
Qed.

(** X10.  [_makeDiagnostic] reads the line and column that end the lexer's
    message after [@:] and reports them counted from zero, the range being
    one character wide; a message that does not end in a digit gives no
    diagnostic.  When the lexer throws, the file is yielded unchanged,
    followed by that diagnostic if there is one, and nothing else is done. *)
Theorem lexer_error_position_is_reported (U : UtilOps) (P : Platform) :
  (forall m l c filename,
      _makeDiagnostic (m ++ "@:" ++ Js.ofNat l ++ ":" ++ Js.ofNat c) filename
      = Some (DiagnosticBuildOutput filename
                (Out.mkDiagnostic
                   ("es-module-lexer error: "
                      ++ (m ++ "@:" ++ Js.ofNat l ++ ":" ++ Js.ofNat c))
                   (Out.mkRange
                      (Out.mkPos (Z.of_nat l - 1) (Z.of_nat c - 1))
                      (Out.mkPos (Z.of_nat l - 1) (Z.of_nat c - 1 + 1))))))
  /\ (forall m c filename,
      Semver.isDigit c = false ->
      _makeDiagnostic (m ++ String c EmptyString) filename = None)
  /\ (forall file g st m,
      esModuleLexer_parse (Out.content file) = Throw m ->
      exists diagnostics,
        _transformBareModuleSpecifiers file g st
        = (FileBuildOutput file :: diagnostics, st)
        /\ diagnostics
           = match _makeDiagnostic m (Out.name file) with
             | Some d => [d]
             | None => []
             end).
Proof.
  split; [|split].
  - intros m l c filename. unfold _makeDiagnostic.
    rewrite position_of_suffix. reflexivity.
  - intros m c filename Hc. unfold _makeDiagnostic.
    rewrite (position_needs_a_digit m c Hc). reflexivity.
  - intros file g st m Hparse. unfold _transformBareModuleSpecifiers.
    rewrite Hparse. eexists. split; reflexivity.
Qed.

Lemma lexer_error_position_is_reported_witness :
  @_transformBareModuleSpecifiers specUtil brokenLexer
    (Out.mkFile "index.js" "import" None) NoPackageJson
    (newTransformer Scenario.cdn0)
  = ([ Fixture.projectFile "index.js" "import";
       DiagnosticBuildOutput "index.js"
         (Out.mkDiagnostic "es-module-lexer error: Parse error @:3:7"
            (Out.mkRange (Out.mkPos 2 6) (Out.mkPos 2 7))) ],
     newTransformer Scenario.cdn0).
Proof.
  destruct (lexer_error_position_is_reported specUtil brokenLexer)
    as (Hpos & Hnone & Hrun).
  pose proof (Hpos "Parse error " 3 7 "index.js") as Hd.
  pose proof (Hnone "Parse error" "r"%char "index.js" eq_refl) as _.
  destruct (Hrun (Out.mkFile "index.js" "import" None) NoPackageJson
              (newTransformer Scenario.cdn0) "Parse error @:3:7" eq_refl)
    as (diagnostics & -> & ->).
  reflexivity.
Defined.

(** ** isExactVersion *)

Lemma splitFirst_absent (c : ascii) (l : list ascii) :
  ~ List.In c l -> Semver.splitFirst c l = (l, None).
Proof.
  induction l as [|x l IH]; intros Hin; [reflexivity|]. simpl.
  destruct (Ascii.eqb_spec x c) as [-> | _].
  - exfalso. apply Hin. left. reflexivity.
  - rewrite IH; [reflexivity|]. intros H. apply Hin. right. exact H.
Qed.

Lemma splitAll_not_nil (c : ascii) (l : list ascii) : Semver.splitAll c l <> [].
Proof.
  induction l as [|x l IH]; simpl; [discriminate|].
  destruct (Semver.splitAll c l); [contradiction|].
  destruct (Ascii.eqb x c); discriminate.
Qed.

Lemma splitAll_last (c : ascii) (f : list ascii) :
  ~ List.In c f -> Semver.splitAll c f = [f].
Proof.
  induction f as [|x f IH]; intros Hin; [reflexivity|]. simpl.
  rewrite IH by (intros H; apply Hin; right; exact H).
  destruct (Ascii.eqb_spec x c) as [-> | _]; [|reflexivity].
  exfalso. apply Hin. left. reflexivity.
Qed.

Lemma splitAll_field (c : ascii) (f rest : list ascii) :
  ~ List.In c f ->
  Semver.splitAll c (f ++ c :: rest) = f :: Semver.splitAll c rest.
Proof.
  induction f as [|x f IH]; intros Hin; simpl.
  - destruct (Semver.splitAll c rest) eqn:Hr.
    + exfalso. exact (splitAll_not_nil c rest Hr).
    + rewrite Ascii.eqb_refl. reflexivity.
  - rewrite IH by (intros H; apply Hin; right; exact H).
    destruct (Ascii.eqb_spec x c) as [-> | _]; [|reflexivity].
    exfalso. apply Hin. left. reflexivity.
Qed.

Lemma splitAll_head (c x : ascii) (l : list ascii) :
  exists f fs,
    Semver.splitAll c (x :: l)
    = (if Ascii.eqb x c then [] else x :: f) :: fs.
Proof.
  simpl. destruct (Semver.splitAll c l) as [|f fs] eqn:Hl.
  - exfalso. exact (splitAll_not_nil c l Hl).
  - destruct (Ascii.eqb x c); [exists f, (f :: fs) | exists f, fs]; reflexivity.
Qed.

Lemma isNumeric_head (x : ascii) (f : list ascii) :
  Semver.isDigit x = false -> Semver.isNumeric (x :: f) = false.
Proof.
  intros Hx. simpl. destruct (Ascii.eqb_spec x "0"%char) as [-> | _].
  - discriminate Hx.
  - rewrite Hx. reflexivity.
Qed.

Lemma core_needs_a_digit (x : ascii) (l : list ascii) :
  Semver.isDigit x = false ->
  match Semver.splitAll "."%char (x :: l) with
  | [a; b; c] => Semver.isNumeric a && Semver.isNumeric b && Semver.isNumeric c
  | _ => false
  end = false.
Proof.
  intros Hx. destruct (splitAll_head "."%char x l) as (f & fs & ->).
  destruct fs as [|b [|c [|]]]; try reflexivity.
  destruct (Ascii.eqb x "."%char); [reflexivity|].
  rewrite (isNumeric_head x f Hx). reflexivity.
Qed.

(** X4.  [isExactVersion] accepts every triple of decimal numbers joined by
    dots, and rejects the empty string and every string that does not start
    with a digit, such as a range with an operator or the tag latest. *)
Theorem exact_versions_start_with_a_digit :
  (forall a b c,
      isExactVersion (Js.ofNat a ++ "." ++ Js.ofNat b ++ "." ++ Js.ofNat c)
      = true)
  /\ (forall x s, Semver.isDigit x = false -> isExactVersion (String x s) = false)
  /\ isExactVersion EmptyString = false.
Proof.
  split; [|split; [|reflexivity]].
  - intros a b c. unfold isExactVersion, Semver.matches.
    rewrite !chars_app. simpl.
    set (A := list_ascii_of_string (Js.ofNat a)).
    set (B := list_ascii_of_string (Js.ofNat b)).
    set (C := list_ascii_of_string (Js.ofNat c)).
    assert (Hex : forall x, Semver.isDigit x = false -> x <> "."%char ->
                  ~ List.In x (A ++ "."%char :: B ++ "."%char :: C)).
    { intros x Hx Hdot Hin. apply in_app_or in Hin as [Hin | [Hin | Hin]].
      - exact (digits_exclude x A Hx (ofNat_digits a) Hin).
      - apply Hdot. symmetry. exact Hin.
      - apply in_app_or in Hin as [Hin | [Hin | Hin]].
        + exact (digits_exclude x B Hx (ofNat_digits b) Hin).
        + apply Hdot. symmetry. exact Hin.
        + exact (digits_exclude x C Hx (ofNat_digits c) Hin). }
    rewrite (splitFirst_absent "+"%char) by (apply Hex; [reflexivity | discriminate]).
    rewrite (splitFirst_absent "-"%char) by (apply Hex; [reflexivity | discriminate]).
    rewrite (splitAll_field "."%char A)
      by (apply digits_exclude; [reflexivity | apply ofNat_digits]).
    rewrite (splitAll_field "."%char B)
      by (apply digits_exclude; [reflexivity | apply ofNat_digits]).
    rewrite (splitAll_last "."%char C)
      by (apply digits_exclude; [reflexivity | apply ofNat_digits]).
    unfold A, B, C. rewrite !ofNat_numeric. reflexivity.
  - intros x s Hx. unfold isExactVersion, Semver.matches. simpl.
    destruct (Ascii.eqb x "+"%char).
    + reflexivity.
    + destruct (Semver.splitFirst "+"%char (list_ascii_of_string s))
        as [front build]. simpl.
      destruct (Ascii.eqb x "-"%char).
      * reflexivity.
      * destruct (Semver.splitFirst "-"%char front) as [core pre].
        rewrite (core_needs_a_digit x core Hx). reflexivity.
Qed.

Lemma exact_versions_start_with_a_digit_witness :
  isExactVersion "10.0.3" = true
  /\ isExactVersion "^1.0.0" = false
  /\ isExactVersion "latest" = false.
Proof.
  destruct exact_versions_start_with_a_digit as (Hyes & Hno & _).
  split; [exact (Hyes 10 0 3)|].
  split; [apply (Hno "^"%char "1.0.0") | apply (Hno "l"%char "atest")];
    reflexivity.
Defined.

(** ** CachingCdn: failures, ranges and the empty version *)

Section CdnFailures.
Context {U : UtilOps} {P : Platform}.

Lemma _fetch_throw_state (cdn cdn' : CachingCdn) location m :
  _fetch location cdn = (Throw m, cdn') ->
  exists l e,
    resolveFromCache cdn location = (l, e)
    /\ _fileCache cdn !! pkgVersionPath l = None
    /\ cdn' = mkCdn (_urlPrefix cdn) (_versionCache cdn) (_fileCache cdn)
                (requests cdn ++ [_urlPrefix cdn ++ pkgVersionPath l]).
Proof.
  unfold _fetch, _fetch_start.
  destruct (resolveFromCache cdn location) as [l e] eqn:Hres.
  destruct (_fileCache cdn !! pkgVersionPath l) eqn:Hc; [discriminate|].
  unfold _fetch_finish.
  destruct (fetch _) as [res | m'].
  - destruct (negb (status res =? 200)%nat).
    + intros [= _ <-]. exists l, e. auto.
    + destruct e; [discriminate|].
      destruct (_parseUnpkgUrl _ (res_url res)); [discriminate|].
      intros [= _ <-]. exists l, false. auto.
  - intros [= _ <-]. exists l, e. auto.
Qed.

End CdnFailures.

(** X1.  When [_fetch] throws, whether the network rejected, the status was
    not 200 or the final URL could not be parsed, neither cache has changed
    and exactly one request was issued; a second [_fetch] of the same
    location finds nothing cached and issues the same request again. *)
Theorem failed_fetch_is_not_cached (U : UtilOps) (P : Platform)
    (cdn cdn' : CachingCdn) (location : NpmFileLocation) (m : string) :
  _fetch location cdn = (Throw m, cdn') ->
  _fileCache cdn' = _fileCache cdn
  /\ _versionCache cdn' = _versionCache cdn
  /\ exists u l e,
       _fetch_start location cdn = (Request u l e, cdn')
       /\ requests cdn' = (requests cdn ++ [u])%list
       /\ exists cdn'',
            _fetch_start location cdn' = (Request u l e, cdn'')
            /\ requests cdn'' = (requests cdn ++ [u; u])%list.
Proof.
  intros Hfetch.
  destruct (_fetch_throw_state cdn cdn' location m Hfetch)
    as (l & e & Hres & Hc & ->).
  split; [reflexivity|]. split; [reflexivity|].
  exists (_urlPrefix cdn ++ pkgVersionPath l), l, e.
  split; [unfold _fetch_start; rewrite Hres, Hc; reflexivity|].
  split; [reflexivity|].
  eexists. unfold _fetch_start.
  rewrite (resolveFromCache_same_versions cdn) by reflexivity.
  rewrite Hres. simpl. rewrite Hc. split; [reflexivity|].
  simpl. rewrite <- app_assoc. reflexivity.
Qed.

Lemma failed_fetch_is_not_cached_witness :
  exists m cdn',
    @_fetch specUtil Scenario.fooCdn (mkLoc "foo" "3.0.0" "index.js")
      Scenario.cdn0 = (Throw m, cdn')
    /\ m = "Unpkg 404 error: Not Found"
    /\ _fileCache cdn' = _fileCache Scenario.cdn0
    /\ requests cdn' = ["https://unpkg.com/foo@3.0.0/index.js"].
Proof.
  eexists _, _. split; [vm_compute; reflexivity|]. split; [reflexivity|].
  destruct (failed_fetch_is_not_cached specUtil Scenario.fooCdn Scenario.cdn0
              _ (mkLoc "foo" "3.0.0" "index.js") _ eq_refl)
    as (Hf & _ & u & l & e & Hstart & Hu & _).
  split; [exact Hf|]. reflexivity.
Defined.

(** X2.  A successful [_fetch] of a location whose version is a range the
    version cache does not know records the version the final URL names;
    from then on [canonicalize] of any file of that package and range whose
    path has an extension gives the recorded version without any request. *)
Theorem resolved_range_serves_other_paths (U : UtilOps) (P : Platform)
    (cdn cdn' : CachingCdn) (location : NpmFileLocation) (r : FetchResult)
    (path' : string) :
  isExactVersion (version location) = false ->
  _versionCache cdn !! pkgVersion (pkg location) (version location) = None ->
  _fileCache cdn !! pkgVersionPath location = None ->
  _fetch location cdn = (Ok r, cdn') ->
  fileExtension path' <> EmptyString ->
  exists canonical,
    _parseUnpkgUrl cdn (url r) = Ok canonical
    /\ _versionCache cdn' !! pkgVersion (pkg location) (version location)
       = Some (version canonical)
    /\ canonicalize (mkLoc (pkg location) (version location) path') cdn'
       = (Ok (mkLoc (pkg location) (version canonical) path'), cdn').
Proof.
  intros Hinexact Hv Hc Hfetch Hext.
  unfold _fetch, _fetch_start, resolveFromCache in Hfetch.
  rewrite Hinexact, Hv, Hc in Hfetch. unfold _fetch_finish in Hfetch.
  destruct (fetch _) as [res | m]; [|discriminate].
  destruct (negb (status res =? 200)%nat); [discriminate|].
  unfold _parseUnpkgUrl in Hfetch |- *. simpl in Hfetch.
  destruct (if Js.startsWith (res_url res) (_urlPrefix cdn) then _ else _)
    as [canonical|] eqn:Hparse; [|discriminate].
  injection Hfetch as <- <-. simpl. rewrite Hparse.
  exists canonical. split; [reflexivity|].
  split; [apply lookup_insert_eq|].
  unfold canonicalize, resolveFromCache. simpl.
  rewrite Hinexact, lookup_insert_eq. simpl.
  rewrite (String_eqb_empty_false _ Hext). reflexivity.
Qed.

Lemma resolved_range_serves_other_paths_witness :
  exists r cdn',
    @_fetch specUtil Scenario.fooCdn Scenario.fooLatest Scenario.cdn0
    = (Ok r, cdn')
    /\ @canonicalize specUtil Scenario.fooCdn
         (mkLoc "foo" "latest" "lib/other.js") cdn'
       = (Ok (mkLoc "foo" "2.0.0" "lib/other.js"), cdn').
Proof.
  destruct (@_fetch specUtil Scenario.fooCdn Scenario.fooLatest Scenario.cdn0)
    as [[r | m] cdn'] eqn:Hf; [|vm_compute in Hf; discriminate].
  exists r, cdn'. split; [reflexivity|].
  destruct (resolved_range_serves_other_paths specUtil Scenario.fooCdn
              Scenario.cdn0 cdn' Scenario.fooLatest r "lib/other.js")
    as (canonical & Hparse & _ & Hcan);
    [reflexivity | reflexivity | reflexivity | exact Hf
    | vm_compute; discriminate |].
  vm_compute in Hf. injection Hf as <- <-.
  vm_compute in Hparse. injection Hparse as <-. exact Hcan.
Defined.

Section Latest.
Context {U : UtilOps} {P : Platform}.

Lemma pkgVersion_empty (p : string) : pkgVersion p EmptyString = pkgVersion p "latest".
Proof. reflexivity. Qed.

Lemma _fetch_start_empty_version (p pa : string) (cdn : CachingCdn) :
  match _fetch_start (mkLoc p EmptyString pa) cdn,
        _fetch_start (mkLoc p "latest" pa) cdn with
  | (Cached r1, c1), (Cached r2, c2) => r1 = r2 /\ c1 = c2
  | (Request u1 l1 e1, c1), (Request u2 l2 e2, c2) =>
      u1 = u2 /\ e1 = e2 /\ c1 = c2 /\ pkg l1 = pkg l2 /\ path l1 = path l2
      /\ (if e1 then l1 = l2 else version l1 = EmptyString /\ version l2 = "latest")
  | _, _ => False
  end.
Proof.
  unfold _fetch_start, resolveFromCache. simpl.
  change (pkgVersion p EmptyString) with (pkgVersion p "latest").
  destruct (_versionCache cdn !! pkgVersion p "latest") as [resolved|].
  - destruct (_fileCache cdn !! _); repeat split.
  - change (pkgVersionPath (mkLoc p EmptyString pa))
      with (pkgVersionPath (mkLoc p "latest" pa)).
    destruct (_fileCache cdn !! _); repeat split.
Qed.

Lemma _fetch_empty_version (p pa : string) (cdn : CachingCdn) :
  _fetch (mkLoc p EmptyString pa) cdn = _fetch (mkLoc p "latest" pa) cdn.
Proof.
  pose proof (_fetch_start_empty_version p pa cdn) as H. unfold _fetch.
  destruct (_fetch_start (mkLoc p EmptyString pa) cdn) as [[r1 | u1 l1 e1] c1],
           (_fetch_start (mkLoc p "latest" pa) cdn) as [[r2 | u2 l2 e2] c2];
    try contradiction.
  - destruct H as [-> ->]. reflexivity.
  - destruct H as (-> & -> & -> & Hp & Hpa & Hl).
    destruct e2; [subst l2; reflexivity|]. destruct Hl as [Hv1 Hv2].
    unfold _fetch_finish. rewrite Hp, Hv1, Hv2. reflexivity.
Qed.

End Latest.

(** X3.  A location with an empty version is treated as the same location
    at version latest by [_fetch], [fetch], [fetchPackageJson] and
    [canonicalize]: same result, same caches, same request. *)
Theorem empty_version_means_latest (U : UtilOps) (P : Platform)
    (p pa : string) (cdn : CachingCdn) :
  _fetch (mkLoc p EmptyString pa) cdn = _fetch (mkLoc p "latest" pa) cdn
  /\ cdn_fetch (mkLoc p EmptyString pa) cdn = cdn_fetch (mkLoc p "latest" pa) cdn
  /\ fetchPackageJson p EmptyString cdn = fetchPackageJson p "latest" cdn
  /\ canonicalize (mkLoc p EmptyString pa) cdn
     = canonicalize (mkLoc p "latest" pa) cdn.
Proof.
  split; [apply _fetch_empty_version|].
  split; [unfold cdn_fetch, bind; rewrite _fetch_empty_version; reflexivity|].
  split; [unfold fetchPackageJson, bind; rewrite _fetch_empty_version;
          reflexivity|].
  unfold canonicalize, resolveFromCache. simpl.
  change (pkgVersion p EmptyString) with (pkgVersion p "latest").
  destruct (_versionCache cdn !! pkgVersion p "latest"); [reflexivity|].
  simpl. rewrite _fetch_empty_version. reflexivity.
Qed.

(** ** CachingCdn and BareModuleTransformer: where requests go *)

Section UnderPrefix.
Context {U : UtilOps} {P : Platform}.

Lemma startsWith_append (p s : string) : Js.startsWith (p ++ s) p = true.
Proof.
  unfold Js.startsWith. induction p as [|c p IH]; [destruct s; reflexivity|].
  change (String c p ++ s) with (String c (p ++ s)). simpl.
  destruct (ascii_dec c c) as [_ | Hne]; [exact IH | contradiction].
Qed.

Lemma under_fetch location : staysUnderPrefix (_fetch location).
Proof.
  intros p cdn [Hp Hreq]. unfold _fetch, _fetch_start.
  destruct (resolveFromCache cdn location) as [l e].
  destruct (_fileCache cdn !! pkgVersionPath l) as [cached|];
    [split; assumption|].
  assert (Hnew : Forall (fun u => Js.startsWith u p = true)
                   (requests cdn ++ [_urlPrefix cdn ++ pkgVersionPath l])).
  { apply Forall_app. split; [exact Hreq|]. constructor; [|constructor].
    rewrite Hp. apply startsWith_append. }
  unfold _fetch_finish.
  destruct (fetch _) as [res | m]; [|split; assumption].
  destruct (negb (status res =? 200)%nat); [split; assumption|].
  destruct e; [split; assumption|].
  destruct (_parseUnpkgUrl _ (res_url res)); split; assumption.
Qed.

Lemma under_cdn_fetch location : staysUnderPrefix (cdn_fetch location).
Proof.
  intros p cdn H. unfold cdn_fetch, bind.
  pose proof (under_fetch location p cdn H) as H'.
  destruct (_fetch location cdn) as [[r | m] cdn']; exact H'.
Qed.

Lemma under_fetchPackageJson p0 v : staysUnderPrefix (fetchPackageJson p0 v).
Proof.
  intros p cdn H. unfold fetchPackageJson, bind.
  pose proof (under_fetch (mkLoc p0 v "package.json") p cdn H) as H'.
  destruct (_fetch _ cdn) as [[r | m] cdn']; [|exact H'].
  destruct (JSON_parse _); exact H'.
Qed.

Lemma under_canonicalize location : staysUnderPrefix (canonicalize location).
Proof.
  intros p cdn H. unfold canonicalize.
  destruct (resolveFromCache cdn location) as [l e].
  destruct (negb e || _); [|exact H].
  pose proof (under_fetch l p cdn H) as H'.
  destruct (_fetch l cdn) as [[r | m] cdn']; exact H'.
Qed.

Lemma keepsUnder_same {A} (c : M Transformer A) :
  (forall st, _cdn (snd (c st)) = _cdn st) -> keepsUnderPrefix c.
Proof. intros H p st Hst. rewrite H. exact Hst. Qed.

Lemma keepsUnder_ret {A} (a : A) : keepsUnderPrefix (ret a).
Proof. apply keepsUnder_same. reflexivity. Qed.

Lemma keepsUnder_throw {A} (m : string) :
  keepsUnderPrefix (@throw Transformer A m).
Proof. apply keepsUnder_same. reflexivity. Qed.

Lemma keepsUnder_getState : keepsUnderPrefix (@getState Transformer).
Proof. apply keepsUnder_same. reflexivity. Qed.

Lemma keepsUnder_merged_add p : keepsUnderPrefix (merged_add p).
Proof. apply keepsUnder_same. reflexivity. Qed.

Lemma keepsUnder_set_packageJson_local v :
  keepsUnderPrefix (set_packageJson_local v).
Proof. apply keepsUnder_same. reflexivity. Qed.

Lemma keepsUnder_liftCdn {A} (c : M CachingCdn A) :
  staysUnderPrefix c -> keepsUnderPrefix (liftCdn c).
Proof.
  intros Hc p st Hst. unfold liftCdn. specialize (Hc p (_cdn st) Hst).
  destruct (c (_cdn st)). exact Hc.
Qed.

Lemma keepsUnder_bind {A B} (c : M Transformer A) (k : A -> M Transformer B) :
  keepsUnderPrefix c -> (forall a, keepsUnderPrefix (k a)) ->
  keepsUnderPrefix (bind c k).
Proof.
  intros Hc Hk p st Hst. unfold bind. specialize (Hc p st Hst).
  destruct (c st) as [[a | m] st']; [apply Hk|]; exact Hc.
Qed.

Lemma keepsUnder_tryCatch {A} (c : M Transformer A)
    (h : string -> M Transformer A) :
  keepsUnderPrefix c -> (forall m, keepsUnderPrefix (h m)) ->
  keepsUnderPrefix (tryCatch c h).
Proof.
  intros Hc Hh p st Hst. unfold tryCatch. specialize (Hc p st Hst).
  destruct (c st) as [[a | m] st']; [|apply Hh]; exact Hc.
Qed.

#[local] Hint Resolve keepsUnder_ret keepsUnder_throw keepsUnder_getState
  keepsUnder_merged_add keepsUnder_set_packageJson_local keepsUnder_liftCdn
  under_fetch under_cdn_fetch under_fetchPackageJson under_canonicalize
  : under.

Ltac under :=
  repeat first
    [ progress (intros)
    | solve [auto with under]
    | apply keepsUnder_bind
    | apply keepsUnder_tryCatch
    | match goal with
      | |- keepsUnderPrefix (match ?x with _ => _ end) => destruct x
      | |- keepsUnderPrefix (if ?b then _ else _) => destruct b
      end ].

Lemma keepsUnder_callGetPackageJson g : keepsUnderPrefix (callGetPackageJson g).
Proof.
  destruct g; simpl; auto with under.
  apply keepsUnder_bind; [auto with under|]. intros st.
  destruct (packageJson_local st); under.
Qed.

#[local] Hint Resolve keepsUnder_callGetPackageJson : under.

Lemma keepsUnder_transformBareSpecifier specifier referrer g :
  keepsUnderPrefix (_transformBareSpecifier specifier referrer g).
Proof.
  unfold _transformBareSpecifier, _transformBareSpecifier_version,
    _transformBareSpecifier_path.
  under.
Qed.

#[local] Hint Resolve keepsUnder_transformBareSpecifier : under.

Lemma keepsUnder_transformSpecifier specifier referrer g :
  keepsUnderPrefix (_transformSpecifier specifier referrer g).
Proof. unfold _transformSpecifier. under. Qed.

Lemma under_startTransforms visited referrer g p st :
  underPrefix p (_cdn st) ->
  underPrefix p (_cdn (snd (startTransforms visited referrer g st))).
Proof.
  revert st. induction visited as [|info rest IH]; intros st Hst; [exact Hst|].
  simpl. destruct (Lexer.n info) as [old|]; [|apply IH; exact Hst].
  pose proof (keepsUnder_transformSpecifier old referrer g p st Hst) as H1.
  destruct (_transformSpecifier old referrer g st) as [settled st'].
  specialize (IH st' H1).
  destruct (startTransforms rest referrer g st') as [transforms st''].
  exact IH.
Qed.

Lemma under_transformBareModuleSpecifiers file g p st :
  underPrefix p (_cdn st) ->
  underPrefix p (_cdn (snd (_transformBareModuleSpecifiers file g st))).
Proof.
  intros Hst. unfold _transformBareModuleSpecifiers.
  destruct (esModuleLexer_parse (Out.content file)) as [specifiers | m];
    [|exact Hst].
  pose proof (under_startTransforms (rev specifiers) (Out.name file) g p st Hst)
    as H.
  destruct (startTransforms _ _ _ st) as [transforms st'].
  destruct (applyTransforms _ _ _) as [js' diagnostics]. exact H.
Qed.

Lemma under_runProducer producer p st :
  underPrefix p (_cdn st) -> underPrefix p (_cdn (snd (runProducer producer st))).
Proof.
  intros Hst. destruct producer as [results | file g | location]; simpl.
  - rewrite _process_unfold. exact Hst.
  - apply under_transformBareModuleSpecifiers. exact Hst.
  - unfold _handleDependency. destruct (decide _); [exact Hst|].
    pose proof (under_cdn_fetch location p (_cdn st) Hst) as H.
    destruct (cdn_fetch location (_cdn st)) as [[asset | m] cdn'];
      [|exact H].
    apply under_transformBareModuleSpecifiers. exact H.
Qed.

End UnderPrefix.

(** X5.  Whatever [process] is given and in whatever order its producers
    are drained, the prefix of the CDN does not change and every URL handed
    to the network starts with it, provided that held of the CDN it
    started from. *)
Theorem requests_stay_under_the_prefix (U : UtilOps) (P : Platform)
    (cdn : CachingCdn) (results : list BuildOutput) (run : Run) :
  Forall (fun u => Js.startsWith u (_urlPrefix cdn) = true) (requests cdn) ->
  steps (process_start cdn results) run ->
  _urlPrefix (_cdn (this run)) = _urlPrefix cdn
  /\ Forall (fun u => Js.startsWith u (_urlPrefix cdn) = true)
       (requests (_cdn (this run))).
Proof.
  intros Hcdn Hsteps. change (underPrefix (_urlPrefix cdn) (_cdn (this run))).
  remember (process_start cdn results) as start eqn:Hstart.
  induction Hsteps as [|run1 run2 run3 _ IH Hstep].
  - subst run. split; [reflexivity | exact Hcdn].
  - specialize (IH Hstart).
    destruct Hstep as [run before after producer outs st' Hmerged Hrun].
    pose proof (under_runProducer producer (_urlPrefix cdn)
                  (with_merged (this run) (before ++ after)) IH) as H.
    rewrite Hrun in H. exact H.
Qed.

Lemma requests_stay_under_the_prefix_witness :
  requests (_cdn (this (@process specUtil Scenario.loopCdn 8 Scenario.cdn0
                          Scenario.loopProject)))
  = [ "https://unpkg.com/foo@latest/index.js";
      "https://unpkg.com/foo@1.0.0/other.js" ]
  /\ Forall (fun u => Js.startsWith u "https://unpkg.com/" = true)
       (requests (_cdn (this (@process specUtil Scenario.loopCdn 8
                                Scenario.cdn0 Scenario.loopProject)))).
Proof.
  split; [vm_compute; reflexivity|].
  apply (requests_stay_under_the_prefix specUtil Scenario.loopCdn
           Scenario.cdn0 Scenario.loopProject).
  - constructor.
  - apply drain_steps.
Defined.

(** ** BareModuleTransformer: files and specifiers *)

Section Schedules.
Context {U : UtilOps} {P : Platform}.

Lemma schedules_same {A} (c : M Transformer A) :
  (forall st, merged (snd (c st)) = merged st) -> schedulesOnly c.
Proof. intros H st. exists []. rewrite H, app_nil_r. reflexivity. Qed.

Lemma schedules_ret {A} (a : A) : schedulesOnly (ret a).
Proof. apply schedules_same. reflexivity. Qed.

Lemma schedules_throw {A} (m : string) : schedulesOnly (@throw Transformer A m).
Proof. apply schedules_same. reflexivity. Qed.

Lemma schedules_getState : schedulesOnly (@getState Transformer).
Proof. apply schedules_same. reflexivity. Qed.

Lemma schedules_liftCdn {A} (c : M CachingCdn A) : schedulesOnly (liftCdn c).
Proof.
  apply schedules_same. intros st. unfold liftCdn.
  destruct (c (_cdn st)). reflexivity.
Qed.

Lemma schedules_set_packageJson_local v :
  schedulesOnly (set_packageJson_local v).
Proof. apply schedules_same. reflexivity. Qed.

Lemma schedules_merged_add location :
  schedulesOnly (merged_add (DependencyProducer location)).
Proof. intros st. exists [location]. reflexivity. Qed.

Lemma schedules_bind {A B} (c : M Transformer A) (k : A -> M Transformer B) :
  schedulesOnly c -> (forall a, schedulesOnly (k a)) -> schedulesOnly (bind c k).
Proof.
  intros Hc Hk st. unfold bind. destruct (Hc st) as [ls Hls].
  destruct (c st) as [[a | m] st']; simpl in Hls.
  - destruct (Hk a st') as [ls' Hls']. exists (ls ++ ls')%list.
    rewrite Hls', Hls, map_app, app_assoc. reflexivity.
  - exists ls. exact Hls.
Qed.

Lemma schedules_tryCatch {A} (c : M Transformer A)
    (h : string -> M Transformer A) :
  schedulesOnly c -> (forall m, schedulesOnly (h m)) ->
  schedulesOnly (tryCatch c h).
Proof.
  intros Hc Hh st. unfold tryCatch. destruct (Hc st) as [ls Hls].
  destruct (c st) as [[a | m] st']; simpl in Hls.
  - exists ls. exact Hls.
  - destruct (Hh m st') as [ls' Hls']. exists (ls ++ ls')%list.
    rewrite Hls', Hls, map_app, app_assoc. reflexivity.
Qed.

#[local] Hint Resolve schedules_ret schedules_throw schedules_getState
  schedules_liftCdn schedules_set_packageJson_local schedules_merged_add
  : schedules.

Ltac schedules :=
  repeat first
    [ progress (intros)
    | solve [auto with schedules]
    | apply schedules_bind
    | apply schedules_tryCatch
    | match goal with
      | |- schedulesOnly (match ?x with _ => _ end) => destruct x
      | |- schedulesOnly (if ?b then _ else _) => destruct b
      end ].

Lemma schedules_callGetPackageJson g : schedulesOnly (callGetPackageJson g).
Proof.
  destruct g; simpl; auto with schedules.
  apply schedules_bind; [auto with schedules|]. intros st.
  destruct (packageJson_local st); schedules.
Qed.

#[local] Hint Resolve schedules_callGetPackageJson : schedules.

Lemma schedules_transformBareSpecifier specifier referrer g :
  schedulesOnly (_transformBareSpecifier specifier referrer g).
Proof.
  unfold _transformBareSpecifier, _transformBareSpecifier_version,
    _transformBareSpecifier_path.
  schedules.
Qed.

#[local] Hint Resolve schedules_transformBareSpecifier : schedules.

Lemma schedules_transformSpecifier specifier referrer g :
  schedulesOnly (_transformSpecifier specifier referrer g).
Proof. unfold _transformSpecifier. schedules. Qed.

Lemma startTransforms_schedules visited referrer g st :
  exists ls,
    merged (snd (startTransforms visited referrer g st))
    = (merged st ++ map DependencyProducer ls)%list.
Proof.
  revert st. induction visited as [|info rest IH]; intros st.
  - exists []. simpl. rewrite app_nil_r. reflexivity.
  - simpl. destruct (Lexer.n info) as [old|]; [|apply IH].
    destruct (schedules_transformSpecifier old referrer g st) as [ls Hls].
    destruct (_transformSpecifier old referrer g st) as [settled st'].
    destruct (IH st') as [ls' Hls'].
    destruct (startTransforms rest referrer g st') as [transforms st''].
    simpl in *. exists (ls ++ ls')%list.
    rewrite Hls', Hls, map_app, app_assoc. reflexivity.
Qed.

Lemma _transformBareModuleSpecifiers_schedules file g st :
  exists ls,
    merged (snd (_transformBareModuleSpecifiers file g st))
    = (merged st ++ map DependencyProducer ls)%list.
Proof.
  unfold _transformBareModuleSpecifiers.
  destruct (esModuleLexer_parse (Out.content file)) as [specifiers | m].
  - destruct (startTransforms_schedules (rev specifiers) (Out.name file) g st)
      as [ls Hls].
    destruct (startTransforms _ _ _ st) as [transforms st'].
    destruct (applyTransforms _ _ _) as [js' diagnostics].
    exists ls. exact Hls.
  - exists []. simpl. rewrite app_nil_r. reflexivity.
Qed.

Lemma _handleDependency_schedules location st :
  exists ls,
    merged (snd (_handleDependency location st))
    = (merged st ++ map DependencyProducer ls)%list.
Proof.
  unfold _handleDependency.
  destruct (decide _) as [_ | _].
  - exists []. simpl. rewrite app_nil_r. reflexivity.
  - destruct (cdn_fetch location (_cdn st)) as [[asset | m] cdn'].
    + match goal with
      | |- context [_transformBareModuleSpecifiers ?f ?g ?s] =>
          destruct (_transformBareModuleSpecifiers_schedules f g s) as [ls Hls]
      end.
      exists ls. exact Hls.
    + exists []. simpl. rewrite app_nil_r. reflexivity.
Qed.

Lemma pendingNames_dependencies (ls : list NpmFileLocation) :
  flat_map pendingNames (map DependencyProducer ls) = [].
Proof. induction ls as [|l ls IH]; [reflexivity | exact IH]. Qed.

Lemma fileNames_app (a b : list BuildOutput) :
  fileNames (a ++ b) = (fileNames a ++ fileNames b)%list.
Proof. unfold fileNames. apply omap_app. Qed.

Lemma fileNames_partition (results : list BuildOutput) :
  Permutation
    (fileNames (List.filter notJs results)
       ++ map Out.name (omap isJsFile results))
    (fileNames results).
Proof.
  induction results as [|r rest IH]; [constructor|].
  cbn [List.filter]. unfold notJs at 1.
  change (omap isJsFile (r :: rest))
    with (match isJsFile r with
          | Some f => f :: omap isJsFile rest
          | None => omap isJsFile rest
          end).
  destruct (isJsFile r) as [f|] eqn:Hjs.
  - assert (Hr : r = FileBuildOutput f).
    { destruct r as [f0|]; simpl in Hjs; [|discriminate].
      destruct (Js.endsWith _ _); [|discriminate]. congruence. }
    subst r. simpl.
    change (fileNames (FileBuildOutput f :: rest))
      with (Out.name f :: fileNames rest).
    apply Permutation_sym, Permutation_cons_app, Permutation_sym. exact IH.
  - destruct r as [f0 | fn d].
    + change (fileNames (FileBuildOutput f0 :: List.filter notJs rest))
        with (Out.name f0 :: fileNames (List.filter notJs rest)).
      change (fileNames (FileBuildOutput f0 :: rest))
        with (Out.name f0 :: fileNames rest).
      simpl. constructor. exact IH.
    + exact IH.
Qed.

Lemma pending_split (before after : list Producer) (p : Producer) :
  Permutation (flat_map pendingNames (before ++ p :: after))
    (pendingNames p ++ flat_map pendingNames (before ++ after)).
Proof.
  rewrite !flat_map_app. simpl. rewrite !app_assoc.
  apply Permutation_app_tail. apply Permutation_app_comm.
Qed.

Lemma projectFiles_snoc run p outs st' :
  projectFiles (mkRun st' (yielded run ++ [(p, outs)]))
  = (projectFiles run ++
       match p with
       | DependencyProducer _ => []
       | _ => fileNames outs
       end)%list.
Proof.
  unfold projectFiles. simpl. rewrite flat_map_app. simpl.
  rewrite app_nil_r. reflexivity.
Qed.

Lemma conserved_step results run run' :
  conserved results run -> step run run' -> conserved results run'.
Proof.
  unfold conserved. intros Hinv Hstep.
  destruct Hstep as [run before after p outs st' Hmerged Hrun].
  rewrite Hmerged in Hinv. rewrite projectFiles_snoc. simpl.
  rewrite <- Hinv. rewrite <- app_assoc. apply Permutation_app_head.
  rewrite pending_split.
  destruct p as [rs | file g | location]; simpl in Hrun |- *.
  - rewrite _process_unfold in Hrun. injection Hrun as <- <-. simpl.
    rewrite flat_map_app.
    rewrite (Permutation_app_comm (flat_map pendingNames (before ++ after))).
    rewrite app_assoc. apply Permutation_app_tail.
    rewrite <- (fileNames_partition rs). apply Permutation_app_head.
    clear. induction (omap isJsFile rs) as [|f fs IH]; [constructor|].
    simpl. constructor. exact IH.
  - destruct (_transformBareModuleSpecifiers_schedules file g
                (with_merged (this run) (before ++ after))) as [ls Hls].
    pose proof (_transformBareModuleSpecifiers_spec file g
                  (with_merged (this run) (before ++ after))) as (Hnames & _).
    rewrite Hrun in Hls, Hnames. simpl in Hls, Hnames.
    rewrite Hls, Hnames, flat_map_app, pendingNames_dependencies, app_nil_r.
    reflexivity.
  - destruct (_handleDependency_schedules location
                (with_merged (this run) (before ++ after))) as [ls Hls].
    rewrite Hrun in Hls. simpl in Hls.
    rewrite Hls, flat_map_app, pendingNames_dependencies, app_nil_r.
    reflexivity.
Qed.

Lemma conserved_steps cdn results run :
  steps (process_start cdn results) run -> conserved results run.
Proof.
  intros Hsteps. remember (process_start cdn results) as start eqn:Hstart.
  induction Hsteps as [|run1 run2 run3 _ IH Hstep].
  - subst run. unfold conserved. simpl. rewrite app_nil_r. reflexivity.
  - apply (conserved_step results run2); [apply IH; exact Hstart | exact Hstep].
Qed.

End Schedules.

(** X13.  In every state of a run of [process], the files yielded so far
    for the project's own files, together with those its pending producers
    will still yield, are the project's files, each once; so once nothing is
    pending every project file has been yielded exactly once.  The files
    that are not JavaScript are yielded as they are, in their order. *)
Theorem project_files_are_conserved (U : UtilOps) (P : Platform)
    (cdn : CachingCdn) (results : list BuildOutput) (run : Run) :
  steps (process_start cdn results) run ->
  Permutation
    (projectFiles run ++ flat_map pendingNames (merged (this run)))
    (fileNames results)
  /\ (merged (this run) = [] ->
      Permutation (projectFiles run) (fileNames results))
  /\ (forall outs,
        In (ProcessProducer results, outs) (yielded run) ->
        outs = List.filter notJs results).
Proof.
  intros Hsteps. pose proof (conserved_steps cdn results run Hsteps) as Hinv.
  split; [exact Hinv|]. split.
  - intros Hdone. unfold conserved in Hinv. rewrite Hdone in Hinv.
    simpl in Hinv. rewrite app_nil_r in Hinv. exact Hinv.
  - clear Hinv. remember (process_start cdn results) as start eqn:Hstart.
    induction Hsteps as [|run1 run2 run3 _ IH Hstep].
    + subst run. intros outs [].
    + specialize (IH Hstart). destruct Hstep as [run before after p outs' st' Hmerged Hrun].
      intros outs Hin. simpl in Hin. apply in_app_iff in Hin.
      destruct Hin as [Hin | [Heq | []]]; [exact (IH outs Hin)|].
      injection Heq as -> ->. simpl in Hrun.
      rewrite _process_unfold in Hrun. injection Hrun as <- _. reflexivity.
Qed.

Lemma project_files_are_conserved_witness :
  Permutation
    (projectFiles (@process specUtil Scenario.versionCdn 4 Scenario.cdn0
                     Scenario.versionProject))
    ["index.js"; "package.json"].
Proof.
  destruct (project_files_are_conserved specUtil Scenario.versionCdn
              Scenario.cdn0 Scenario.versionProject
              (@process specUtil Scenario.versionCdn 4 Scenario.cdn0
                 Scenario.versionProject))
    as (_ & Hdone & _).
  - apply drain_steps.
  - apply Hdone. vm_compute. reflexivity.
Defined.

Section LocalImports.
Context {U : UtilOps} {P : Platform}.

Lemma _transformSpecifier_stays referrer specifier g st :
  staysAsIs referrer specifier ->
  _transformSpecifier specifier referrer g st = (Ok specifier, st).
Proof.
  unfold _transformSpecifier. intros [-> | [-> ->]]; reflexivity.
Qed.

Lemma startTransforms_stay visited referrer g st :
  (forall info specifier,
      In info visited -> Lexer.n info = Some specifier ->
      staysAsIs referrer specifier) ->
  snd (startTransforms visited referrer g st) = st
  /\ Forall (fun t : Lexer.ImportSpecifier * Res string =>
               snd t = Ok (Js.orElse (Lexer.n (fst t)) EmptyString))
       (fst (startTransforms visited referrer g st)).
Proof.
  induction visited as [|info rest IH]; intros Hall; [split; constructor|].
  assert (Hrest : forall i s, In i rest -> Lexer.n i = Some s ->
                              staysAsIs referrer s).
  { intros i s Hin. apply Hall. right. exact Hin. }
  specialize (IH Hrest). simpl.
  destruct (Lexer.n info) as [old|] eqn:Hn; [|exact IH].
  rewrite (_transformSpecifier_stays referrer old g st
             (Hall info old (or_introl eq_refl) Hn)).
  destruct (startTransforms rest referrer g st) as [transforms st'].
  simpl in *. destruct IH as [-> Hts]. split; [reflexivity|].
  constructor; [simpl; rewrite Hn; reflexivity | exact Hts].
Qed.

Lemma applyTransforms_unchanged filename visited js :
  Forall (fun t : Lexer.ImportSpecifier * Res string =>
            snd t = Ok (Js.orElse (Lexer.n (fst t)) EmptyString)) visited ->
  applyTransforms filename visited js = (js, []).
Proof.
  induction 1 as [|[info settled] rest Ht _ IH]; [reflexivity|].
  simpl in Ht. subst settled. simpl. rewrite String.eqb_refl, IH.
  reflexivity.
Qed.

End LocalImports.

(** X8.  A file all of whose literal specifiers are URLs, or are relative
    while the file is not under node_modules, is yielded as it is, with no
    diagnostic, no request and no dependency scheduled. *)
Theorem local_imports_are_left_alone (U : UtilOps) (P : Platform)
    (file : Out.File) (g : GetPackageJson) (st : Transformer)
    (specifiers : list Lexer.ImportSpecifier) :
  esModuleLexer_parse (Out.content file) = Ok specifiers ->
  (forall info specifier,
      In info specifiers -> Lexer.n info = Some specifier ->
      classifySpecifier specifier = KUrl
      \/ (classifySpecifier specifier = KRelative
          /\ Js.startsWith (Out.name file) "node_modules/" = false)) ->
  _transformBareModuleSpecifiers file g st = ([FileBuildOutput file], st).
Proof.
  intros Hparse Hall. unfold _transformBareModuleSpecifiers. rewrite Hparse.
  destruct (startTransforms_stay (rev specifiers) (Out.name file) g st)
    as [Hst Hts].
  { intros info specifier Hin. apply Hall. apply in_rev. exact Hin. }
  destruct (startTransforms _ _ _ st) as [transforms st']. simpl in *.
  subst st'.
  rewrite (applyTransforms_unchanged (Out.name file) (rev transforms)).
  - destruct file. reflexivity.
  - apply List.Forall_rev. exact Hts.
Qed.

Lemma local_imports_are_left_alone_witness :
  @_transformBareModuleSpecifiers specUtil localCdn
    (Out.mkFile "index.js"
       (Fixture.imports ["./util.js"; "https://example.com/x.js"]) None)
    NoPackageJson (newTransformer Scenario.cdn0)
  = ([ Fixture.projectFile "index.js"
         (Fixture.imports ["./util.js"; "https://example.com/x.js"]) ],
     newTransformer Scenario.cdn0).
Proof.
  apply (local_imports_are_left_alone specUtil localCdn _ _ _
           (snd (Fixture.importEntries
                   ["./util.js"; "https://example.com/x.js"]))).
  - vm_compute. reflexivity.
  - intros info specifier [<- | [<- | []]] [= <-];
      [right; split; reflexivity | left; reflexivity].
Defined.

Section Rewritten.
Context {U : UtilOps} {P : Platform}.

Lemma merged_liftCdn {A} (c : M CachingCdn A) st :
  merged (snd (liftCdn c st)) = merged st.
Proof. unfold liftCdn. destruct (c (_cdn st)). reflexivity. Qed.

Lemma merged_callGetPackageJson g st :
  merged (snd (callGetPackageJson g st)) = merged st.
Proof.
  destruct g as [settled | location |]; try reflexivity.
  unfold callGetPackageJson, bind, getState.
  destruct (packageJson_local st); [reflexivity|].
  unfold tryCatch.
  pose proof (merged_liftCdn
                (fetchPackageJson (pkg location) (version location)) st) as H.
  destruct (liftCdn _ st) as [[json | m] st']; simpl in *; exact H.
Qed.

Lemma merged_version location g st :
  merged (snd (_transformBareSpecifier_version location g st)) = merged st.
Proof.
  unfold _transformBareSpecifier_version.
  destruct (String.eqb (version location) EmptyString); [|reflexivity].
  unfold bind. pose proof (merged_callGetPackageJson g st) as H.
  destruct (callGetPackageJson g st) as [[json | m] st']; [|exact H].
  destruct (Js.orElse _ _); exact H.
Qed.

Lemma merged_path p v pa st :
  merged (snd (_transformBareSpecifier_path p v pa st)) = merged st.
Proof.
  unfold _transformBareSpecifier_path.
  destruct (String.eqb pa EmptyString); [|reflexivity].
  unfold bind. pose proof (merged_liftCdn (fetchPackageJson p v) st) as H.
  destruct (liftCdn _ st) as [[json | m] st']; exact H.
Qed.

End Rewritten.

(** X7.  Whenever [_transformBareSpecifier] returns, it has scheduled exactly
    one dependency, and the specifier it returns is the URL, relative to the
    referrer, of the file name under which [_handleDependency] yields that
    dependency once it is fetched. *)
Theorem rewritten_import_names_its_dependency (U : UtilOps) (P : Platform)
    (specifier referrer : string) (g : GetPackageJson) (st st' : Transformer)
    (new : string) :
  _transformBareSpecifier specifier referrer g st = (Ok new, st') ->
  exists location,
    merged st' = (merged st ++ [DependencyProducer location])%list
    /\ new = relativeUrlPath referrer
               ("node_modules/" ++ dependencyKey location)
    /\ forall st2 asset cdn2,
         dependencyKey location ∉ _alreadyHandled st2 ->
         cdn_fetch location (_cdn st2) = (Ok asset, cdn2) ->
         fileNames (fst (_handleDependency location st2))
         = ["node_modules/" ++ dependencyKey location].
Proof.
  unfold _transformBareSpecifier.
  destruct (parseNpmStyleSpecifier specifier) as [l|]; [|discriminate].
  unfold bind at 1.
  pose proof (merged_version l g st) as H1.
  destruct (_transformBareSpecifier_version l g st) as [[v | m] st1];
    [|discriminate].
  unfold bind at 1.
  pose proof (merged_path (pkg l) v (path l) st1) as H2.
  destruct (_transformBareSpecifier_path (pkg l) v (path l) st1)
    as [[p | m] st2]; [|discriminate].
  unfold bind at 1. simpl in H1, H2.
  assert (H3 : forall c : M Transformer NpmFileLocation,
             (forall s, merged (snd (c s)) = merged s) ->
             forall location st3, c st2 = (Ok location, st3) ->
             merged st3 = merged st).
  { intros c Hc location st3 Heq. pose proof (Hc st2) as H.
    rewrite Heq in H. simpl in H. congruence. }
  match goal with
  | |- context [(if ?b then ?x else ?y) st2] =>
      destruct ((if b then x else y) st2) as [[location | m] st3] eqn:Hcan;
      [|discriminate];
      assert (Hm : merged st3 = merged st)
  end.
  { destruct (_ || _) in Hcan.
    - apply (H3 (liftCdn (canonicalize (mkLoc (pkg l) v p)))
               (merged_liftCdn _) location st3 Hcan).
    - injection Hcan as <- <-. congruence. }
  unfold bind, merged_add, modifyState, ret. simpl.
  intros [= <- <-]. exists location. simpl. rewrite Hm.
  split; [reflexivity|]. split; [reflexivity|].
  intros st4 asset cdn4 Hfresh Hfetch. unfold _handleDependency.
  destruct (decide _) as [Hin | _]; [contradiction|].
  rewrite Hfetch.
  match goal with
  | |- context [_transformBareModuleSpecifiers ?f ?g0 ?s] =>
      destruct (_transformBareModuleSpecifiers_spec f g0 s) as (Hn & _)
  end.
  rewrite Hn. reflexivity.
Qed.

Lemma rewritten_import_names_its_dependency_witness :
  exists st',
    @_transformBareSpecifier specUtil Scenario.versionCdn "foo" "index.js"
      NoPackageJson (newTransformer Scenario.cdn0)
    = (Ok "./node_modules/foo@2.0.0/index.js", st')
    /\ merged st' = [DependencyProducer (mkLoc "foo" "2.0.0" "index.js")].
Proof.
  destruct (@_transformBareSpecifier specUtil Scenario.versionCdn "foo" "index.js"
              NoPackageJson (newTransformer Scenario.cdn0))
    as [[new | m] st'] eqn:Hrun; [|vm_compute in Hrun; discriminate].
  destruct (rewritten_import_names_its_dependency specUtil Scenario.versionCdn
              "foo" "index.js" NoPackageJson (newTransformer Scenario.cdn0)
              st' new Hrun) as (location & Hm & Hnew & _).
  exists st'. vm_compute in Hrun. injection Hrun as <- <-.
  split; [reflexivity|]. vm_compute. reflexivity.
Defined.

Section SingleImport.
Context {U : UtilOps} {P : Platform}.

Lemma startTransforms_literal visited referrer g st :
  startTransforms visited referrer g st
  = startTransforms (List.filter isLiteral visited) referrer g st.
Proof.
  revert st. induction visited as [|info rest IH]; intros st; [reflexivity|].
  simpl. unfold isLiteral at 1.
  destruct (Lexer.n info) as [old|] eqn:Hn; [|apply IH].
  simpl. rewrite Hn.
  destruct (_transformSpecifier old referrer g st) as [settled st'].
  rewrite IH. reflexivity.
Qed.

End SingleImport.

(** X9.  In a file with one literal specifier, that specifier alone is
    replaced, between its own offsets, by what [_transformSpecifier] returns
    for it, within quotes of its own when the import is dynamic; when the
    call throws, the file is yielded unchanged after one diagnostic that
    spans the specifier. *)
Theorem single_import_is_replaced_in_place (U : UtilOps) (P : Platform)
    (file : Out.File) (g : GetPackageJson) (st st' : Transformer)
    (specifiers : list Lexer.ImportSpecifier) (info : Lexer.ImportSpecifier)
    (old : string) (settled : Res string) :
  esModuleLexer_parse (Out.content file) = Ok specifiers ->
  List.filter isLiteral specifiers = [info] ->
  Lexer.n info = Some old ->
  _transformSpecifier old (Out.name file) g st = (settled, st') ->
  _transformBareModuleSpecifiers file g st
  = (match settled with
     | Ok new =>
         if String.eqb new old then [FileBuildOutput file]
         else
           [FileBuildOutput
              (Out.mkFile (Out.name file)
                 (Js.substring 0 (Lexer.s info) (Out.content file)
                    ++ (if Z.eqb (Lexer.d info) (-1) then new
                        else "'" ++ new ++ "'")
                    ++ Js.slice (Lexer.e info) (Out.content file))
                 (Out.contentType file))]
     | Throw m =>
         [DiagnosticBuildOutput (Out.name file)
            (Out.mkDiagnostic
               ("Could not resolve module " ++ Js.quote ++ old ++ Js.quote
                  ++ ": " ++ m)
               (Out.mkRange (posOf (Out.content file) (Lexer.s info))
                            (posOf (Out.content file) (Lexer.e info))));
          FileBuildOutput file]
     end, st').
Proof.
  intros Hparse Hone Hn Hsettled. unfold _transformBareModuleSpecifiers.
  rewrite Hparse, startTransforms_literal, List.filter_rev, Hone. simpl.
  rewrite Hn, Hsettled. simpl. rewrite Hn. simpl.
  destruct settled as [new | m]; simpl.
  - destruct (String.eqb new old); simpl; [destruct file; reflexivity|].
    destruct (Z.eqb (Lexer.d info) (-1)); reflexivity.
  - destruct file. reflexivity.
Qed.

Lemma single_import_is_replaced_in_place_witness :
  exists st',
    @_transformBareModuleSpecifiers specUtil Scenario.versionCdn
      (Out.mkFile "index.js" (Fixture.imports ["foo"]) None) NoPackageJson
      (newTransformer Scenario.cdn0)
    = ([ Fixture.projectFile "index.js"
           (Fixture.imports ["./node_modules/foo@2.0.0/index.js"]) ], st').
Proof.
  eexists.
  rewrite (single_import_is_replaced_in_place specUtil Scenario.versionCdn
             (Out.mkFile "index.js" (Fixture.imports ["foo"]) None)
             NoPackageJson (newTransformer Scenario.cdn0) _
             (snd (Fixture.importEntries ["foo"]))
             (Lexer.mk (Some "foo") 8 11 (-1)) "foo" _
             eq_refl eq_refl eq_refl eq_refl).
  vm_compute. reflexivity.
Defined.

Section FirstPackageJson.
Context {U : UtilOps} {P : Platform}.

Lemma _process_loop_settled (results : list BuildOutput)
    (v : option PackageJson) :
  snd (_process_loop results (Some v)) = Some v.
Proof.
  induction results as [|r rest IH]; [reflexivity|]. simpl.
  destruct (isJsFile r).
  - destruct (_process_loop rest (Some v)) as [[ys js] d]. exact IH.
  - destruct (isPackageJsonFile r) as [f|];
      [destruct (JSON_parse (Out.content f))|]; simpl;
      destruct (_process_loop rest (Some v)) as [[ys js] d]; exact IH.
Qed.

Lemma _process_loop_app (before after : list BuildOutput)
    (d : option (option PackageJson)) :
  snd (_process_loop (before ++ after) d)
  = snd (_process_loop after (snd (_process_loop before d))).
Proof.
  revert d. induction before as [|r rest IH]; intros d; [reflexivity|].
  simpl. destruct (isJsFile r).
  - specialize (IH d).
    destruct (_process_loop (rest ++ after) d) as [[ys js] d1].
    destruct (_process_loop rest d) as [[ys' js'] d2]. exact IH.
  - match goal with
    | |- context [_process_loop (rest ++ after) ?d0] =>
        specialize (IH d0);
        destruct (_process_loop (rest ++ after) d0) as [[ys js] d1];
        destruct (_process_loop rest d0) as [[ys' js'] d2]
    end.
    exact IH.
Qed.

End FirstPackageJson.

(** X11.  The package.json the project's files resolve their versions
    against is the first package.json artifact that parses: artifacts
    before it that do not parse are skipped, and artifacts after it cannot
    replace it, a deferred being resolved once.  All of them are yielded
    unchanged. *)
Theorem first_valid_package_json_wins (U : UtilOps) (P : Platform)
    (before after : list BuildOutput) (f : Out.File) (json : PackageJson) :
  unparsable before ->
  Out.name f = "package.json" ->
  JSON_parse (Out.content f) = Some json ->
  _process_packageJson (before ++ FileBuildOutput f :: after) = Some json
  /\ forall st,
       fst (_process (before ++ FileBuildOutput f :: after) st)
       = List.filter notJs (before ++ FileBuildOutput f :: after).
Proof.
  intros Hbad Hname Hjson. split.
  - unfold _process_packageJson.
    pose proof (_process_loop_app before (FileBuildOutput f :: after) None)
      as H.
    rewrite (_process_loop_deferred before None Hbad) in H.
    destruct (_process_loop (before ++ FileBuildOutput f :: after) None)
      as [[ys js] d].
    simpl in H. unfold isJsFile, isPackageJsonFile in H.
    rewrite Hname in H. simpl in H. rewrite Hjson in H. simpl in H.
    pose proof (_process_loop_settled after (Some json)) as Hs.
    destruct (_process_loop after (Some (Some json))) as [[ys' js'] d'].
    simpl in *. subst. reflexivity.
  - intros st. rewrite _process_unfold. reflexivity.
Qed.

Lemma first_valid_package_json_wins_witness :
  @_process_packageJson Scenario.versionCdn
    [ Fixture.projectFile "package.json" "INVALID JSON";
      Fixture.projectFile "package.json" Scenario.manifestText;
      Fixture.projectFile "package.json" "{}" ]
  = Some Scenario.manifest.
Proof.
  apply (first_valid_package_json_wins specUtil Scenario.versionCdn
           [Fixture.projectFile "package.json" "INVALID JSON"]
           [Fixture.projectFile "package.json" "{}"]
           (Out.mkFile "package.json" Scenario.manifestText None)
           Scenario.manifest).
  - intros f [[= <-] | []] _. reflexivity.
  - reflexivity.
  - reflexivity.
Defined.

(** X12.  [getPackageJson] never throws, and a second call returns what the
    first returned and leaves the state, the log of requests included, as
    it was: the package.json of a dependency is looked up at most once,
    also when the lookup fails.  The first call issues at most one
    request. *)
Theorem dependency_package_json_is_fetched_once (U : UtilOps) (P : Platform)
    (g : GetPackageJson) (st : Transformer) :
  exists v st1,
    callGetPackageJson g st = (Ok v, st1)
    /\ callGetPackageJson g st1 = (Ok v, st1)
    /\ (requests (_cdn st1) = requests (_cdn st)
        \/ exists u, requests (_cdn st1) = (requests (_cdn st) ++ [u])%list).
Proof.
  destruct g as [settled | location |].
  - exists settled, st. repeat split. left. reflexivity.
  - unfold callGetPackageJson, bind, getState.
    destruct (packageJson_local st) as [known|] eqn:Hlocal.
    + exists known, st. simpl. rewrite Hlocal. repeat split. left. reflexivity.
    + unfold tryCatch, liftCdn, fetchPackageJson, bind, _fetch, _fetch_start.
      destruct (resolveFromCache (_cdn st) _) as [l e].
      destruct (_fileCache (_cdn st) !! pkgVersionPath l) as [cached|].
      * destruct (JSON_parse (content (file cached))) as [json|];
          eexists _, _; simpl; (split; [reflexivity|]);
          (split; [reflexivity|]); left; reflexivity.
      * unfold _fetch_finish.
        destruct (fetch _) as [res | m].
        -- destruct (negb (status res =? 200)%nat).
           { eexists _, _; simpl; (split; [reflexivity|]);
               (split; [reflexivity|]); right; eexists; reflexivity. }
           destruct e.
           ++ simpl. destruct (JSON_parse (text res)) as [json|];
                eexists _, _; simpl; (split; [reflexivity|]);
                (split; [reflexivity|]); right; eexists; reflexivity.
           ++ destruct (_parseUnpkgUrl _ (res_url res)) as [canonical | m].
              ** simpl. destruct (JSON_parse (text res)) as [json|];
                   eexists _, _; simpl; (split; [reflexivity|]);
                   (split; [reflexivity|]); right; eexists; reflexivity.
              ** eexists _, _; simpl; (split; [reflexivity|]);
                   (split; [reflexivity|]); right; eexists; reflexivity.
        -- eexists _, _; simpl; (split; [reflexivity|]);
             (split; [reflexivity|]); right; eexists; reflexivity.
  - exists None, st. repeat split. left. reflexivity.
Qed.

(** X6.  A bare specifier that names an exact version and a path with an
    extension is rewritten by [_transformBareSpecifier] without any request:
    the CDN is left as it was, the dependency is scheduled, and the result
    is the relative URL of its file under node_modules. *)
Theorem qualified_import_needs_no_request (U : UtilOps) (P : Platform)
    (specifier referrer : string) (g : GetPackageJson) (st : Transformer)
    (location : NpmFileLocation) :
  parseNpmStyleSpecifier specifier = Some location ->
  isExactVersion (version location) = true ->
  path location <> EmptyString ->
  fileExtension (path location) <> EmptyString ->
  _transformBareSpecifier specifier referrer g st
  = (Ok (relativeUrlPath referrer ("node_modules/" ++ dependencyKey location)),
     mkTransformer (_cdn st) (_alreadyHandled st)
       (merged st ++ [DependencyProducer location])
       (packageJson_local st) (fetchLog st)).
Proof.
  intros Hparse Hexact Hpath Hext. unfold _transformBareSpecifier.
  rewrite Hparse.
  unfold _transformBareSpecifier_version, _transformBareSpecifier_path.
  assert (Hv : String.eqb (version location) EmptyString = false).
  { destruct (String.eqb_spec (version location) EmptyString) as [He | _];
      [|reflexivity].
    rewrite He in Hexact. discriminate Hexact. }
  rewrite Hv, (String_eqb_empty_false _ Hpath). unfold bind, ret. simpl.
  rewrite (String_eqb_empty_false _ Hext), Hexact. simpl.
  destruct location. reflexivity.
Qed.

Lemma qualified_import_needs_no_request_witness :
  requests
    (_cdn (snd (@_transformBareSpecifier specUtil Scenario.fooCdn
                  "foo@1.0.0/index.js" "index.js" NoPackageJson
                  (newTransformer Scenario.cdn0))))
  = []
  /\ fst (@_transformBareSpecifier specUtil Scenario.fooCdn
            "foo@1.0.0/index.js" "index.js" NoPackageJson
            (newTransformer Scenario.cdn0))
     = Ok "./node_modules/foo@1.0.0/index.js".
Proof.
  rewrite (qualified_import_needs_no_request specUtil Scenario.fooCdn
             "foo@1.0.0/index.js" "index.js" NoPackageJson
             (newTransformer Scenario.cdn0) Scenario.foo1).
  - split; reflexivity.
  - reflexivity.
  - reflexivity.
  - discriminate.
  - vm_compute. discriminate.
Defined.

(** X20.  For a package that is not named after a member every object
    inherits, [_transformBareSpecifier] treats a specifier without a version
    as it treats the same specifier with a version filled in, after the one
    call of [getPackageJson]: the version is the entry for the package in
    the [dependencies] of the package.json that call gives, and [latest]
    when there is no package.json, no [dependencies] or no entry.  A project
    file reads the project's package.json and a dependency reads its own:
    in the run below, bar is taken at ^2.0.0, as foo declares it, not at
    ^1.0.0, as the project does. *)
Theorem missing_version_is_read_from_package_json
    (U : UtilOps) (P : Platform) :
  (forall (specifier versioned referrer : string) (g g' : GetPackageJson)
          (st st1 : Transformer) (location : NpmFileLocation)
          (json : option PackageJson),
      let declared :=
        match json with
        | Some j =>
            match dependencies j with
            | Some deps => deps !! pkg location
            | None => None
            end
        | None => None
        end in
      let v := Js.orElse declared "latest" in
      parseNpmStyleSpecifier specifier = Some location ->
      version location = EmptyString ->
      callGetPackageJson g st = (Ok json, st1) ->
      Js.inherited (pkg location) = None ->
      v <> EmptyString ->
      parseNpmStyleSpecifier versioned
      = Some (mkLoc (pkg location) v (path location)) ->
      _transformBareSpecifier specifier referrer g st
      = _transformBareSpecifier versioned referrer g' st1)
  /\ outputs (@process specUtil Scenario.entryCdn 5 Scenario.cdn0
                Scenario.entryProject)
     = [ Fixture.projectFile "package.json" Scenario.entryManifestText;
         Fixture.projectFile "index.js"
           (Fixture.imports ["./node_modules/foo@1.0.0/esm/index.js"]);
         FileBuildOutput
           (Out.mkFile "node_modules/foo@1.0.0/esm/index.js"
              (Fixture.imports ["../../bar@2.3.4/lib/bar.js"])
              Fixture.javascript);
         FileBuildOutput
           (Out.mkFile "node_modules/bar@2.3.4/lib/bar.js" "bar2"
              Fixture.javascript) ].
Proof.
  split; [|vm_compute; reflexivity].
  intros specifier versioned referrer g g' st st1 location json declared v
    Hparse Hversion Hcall Hproto Hv Hparse'.
  unfold _transformBareSpecifier. rewrite Hparse, Hparse'.
  cbv beta iota. unfold bind.
  rewrite (version_given (mkLoc (pkg location) v (path location)) g' st1 Hv).
  rewrite (version_absent location g st st1 json Hversion Hcall).
  assert (Hd : Js.orElse (declaredDependency json (pkg location))
                 (Js.Str "latest") = Js.Str v).
  { unfold v, declared, declaredDependency.
    destruct json as [j|]; [|reflexivity].
    destruct (dependencies j) as [deps|]; [|reflexivity].
    destruct (deps !! pkg location); [reflexivity|].
    rewrite Hproto. reflexivity. }
  rewrite Hd. reflexivity.
Qed.

Lemma missing_version_is_read_from_package_json_witness :
  @_transformBareSpecifier specUtil Scenario.entryCdn "foo" "index.js"
    (ProjectPackageJson (Some Scenario.entryManifest))
    (newTransformer Scenario.cdn0)
  = @_transformBareSpecifier specUtil Scenario.entryCdn "foo@^1.0.0"
      "index.js" NoPackageJson (newTransformer Scenario.cdn0)
  /\ fst (@_transformBareSpecifier specUtil Scenario.entryCdn "foo" "index.js"
            (ProjectPackageJson (Some Scenario.entryManifest))
            (newTransformer Scenario.cdn0))
     = Ok "./node_modules/foo@1.0.0/esm/index.js".
Proof.
  destruct (missing_version_is_read_from_package_json specUtil
              Scenario.entryCdn) as [Hversion _].
  split; [|vm_compute; reflexivity].
  apply (Hversion "foo" "foo@^1.0.0" "index.js"
           (ProjectPackageJson (Some Scenario.entryManifest)) NoPackageJson
           (newTransformer Scenario.cdn0) (newTransformer Scenario.cdn0)
           (mkLoc "foo" EmptyString EmptyString)
           (Some Scenario.entryManifest)).
  - vm_compute. reflexivity.
  - reflexivity.
  - reflexivity.
  - vm_compute. reflexivity.
  - vm_compute. discriminate.
  - vm_compute. reflexivity.
Defined.

(** X21.  [_transformBareSpecifier] treats a specifier with a version and
    without a path as it treats the same specifier with a path filled in,
    after the one fetch of the package.json of the package at that version:
    the path is the [module] field of that package.json, else its [main]
    field, else [index.js]. *)
Theorem missing_path_is_read_from_package_json
    (U : UtilOps) (P : Platform)
    (specifier withPath referrer : string) (g g' : GetPackageJson)
    (st : Transformer) (location : NpmFileLocation)
    (packageJson : PackageJson) (cdn' : CachingCdn) :
  let p :=
    match module packageJson with
    | Some m => m
    | None =>
        match main packageJson with
        | Some m => m
        | None => "index.js"
        end
    end in
  parseNpmStyleSpecifier specifier = Some location ->
  version location <> EmptyString ->
  path location = EmptyString ->
  fetchPackageJson (pkg location) (version location) (_cdn st)
  = (Ok packageJson, cdn') ->
  p <> EmptyString ->
  parseNpmStyleSpecifier withPath
  = Some (mkLoc (pkg location) (version location) p) ->
  _transformBareSpecifier specifier referrer g st
  = _transformBareSpecifier withPath referrer g'
      (mkTransformer cdn' (_alreadyHandled st) (merged st)
         (packageJson_local st) (fetchLog st)).
Proof.
  intros p Hparse Hversion Hpath Hfetch Hp Hparse'.
  assert (Hp' : Js.orElse (Js.orElseOpt (module packageJson) (main packageJson))
                  "index.js" = p).
  { unfold p. destruct (module packageJson), (main packageJson); reflexivity. }
  unfold _transformBareSpecifier. rewrite Hparse, Hparse'.
  cbv beta iota. unfold bind.
  rewrite (version_given location g st Hversion).
  rewrite (version_given (mkLoc (pkg location) (version location) p) g' _
             Hversion).
  rewrite Hpath.
  rewrite (path_absent (pkg location) (version location) st packageJson cdn'
             Hfetch).
  rewrite Hp'. cbn [pkg version path].
  rewrite (path_given (pkg location) (version location) p _ Hp).
  reflexivity.
Qed.

Lemma missing_path_is_read_from_package_json_witness :
  exists cdn',
    requests cdn' = ["https://unpkg.com/bar@^2.0.0/package.json"]
    /\ @_transformBareSpecifier specUtil Scenario.entryCdn "bar@^2.0.0"
         "index.js" NoPackageJson (newTransformer Scenario.cdn0)
       = @_transformBareSpecifier specUtil Scenario.entryCdn
           "bar@^2.0.0/lib/bar.js" "index.js" NoPackageJson
           (mkTransformer cdn' ∅ [] None [])
    /\ fst (@_transformBareSpecifier specUtil Scenario.entryCdn "bar@^2.0.0"
              "index.js" NoPackageJson (newTransformer Scenario.cdn0))
       = Ok "./node_modules/bar@2.3.4/lib/bar.js".
Proof.
  destruct (@fetchPackageJson specUtil Scenario.entryCdn "bar" "^2.0.0"
              Scenario.cdn0) as [[json | m] cdn'] eqn:Hfetch;
    [|vm_compute in Hfetch; discriminate].
  exists cdn'.
  assert (Hjson : json = Scenario.barEntry)
    by (vm_compute in Hfetch; injection Hfetch as <- _; reflexivity).
  subst json. split; [|split].
  - vm_compute in Hfetch. injection Hfetch as <-. reflexivity.
  - apply (missing_path_is_read_from_package_json specUtil Scenario.entryCdn
             "bar@^2.0.0" "bar@^2.0.0/lib/bar.js" "index.js"
             NoPackageJson NoPackageJson (newTransformer Scenario.cdn0)
             (mkLoc "bar" "^2.0.0" EmptyString) Scenario.barEntry cdn').
    + vm_compute. reflexivity.
    + discriminate.
    + reflexivity.
    + exact Hfetch.
    + discriminate.
    + vm_compute. reflexivity.
  - vm_compute. reflexivity.
Defined.

(** ** TypesFetcher: what a crawl records *)

Section Grows.
Context {U : UtilOps} {P : Platform}.

Lemma grows_refl st : grows st st.
Proof.
  split; [reflexivity|]. split; [auto|]. exists []. rewrite app_nil_r.
  reflexivity.
Qed.

Lemma grows_trans st1 st2 st3 : grows st1 st2 -> grows st2 st3 -> grows st1 st3.
Proof.
  intros (H1 & R1 & m1 & T1) (H2 & R2 & m2 & T2).
  split; [etransitivity; eassumption|]. split; [auto|].
  exists (m1 ++ m2)%list. rewrite T2, T1, app_assoc. reflexivity.
Qed.

Lemma grows_same st st' :
  Types._handledSpecifiers st' = Types._handledSpecifiers st ->
  Types._specifierToFetchResult st' = Types._specifierToFetchResult st ->
  Types._entrypointTasks st' = Types._entrypointTasks st ->
  grows st st'.
Proof.
  intros Hh Hr Ht. unfold grows. rewrite Hh, Hr, Ht.
  split; [reflexivity|]. split; [auto|]. exists []. rewrite app_nil_r.
  reflexivity.
Qed.

Lemma growing_ret {A} (a : A) : growing (ret a).
Proof. intros st. apply grows_refl. Qed.

Lemma growing_throw {A} (m : string) : growing (@throw Types.TypesFetcher A m).
Proof. intros st. apply grows_refl. Qed.

Lemma growing_getState : growing (@getState Types.TypesFetcher).
Proof. intros st. apply grows_refl. Qed.

Lemma growing_bind {A B} (c : M Types.TypesFetcher A)
    (k : A -> M Types.TypesFetcher B) :
  growing c -> (forall a, growing (k a)) -> growing (bind c k).
Proof.
  intros Hc Hk st. unfold bind. specialize (Hc st).
  destruct (c st) as [[a | m] st']; simpl in Hc; [|exact Hc].
  apply (grows_trans st st'); [exact Hc | apply Hk].
Qed.

Lemma growing_tryCatch {A} (c : M Types.TypesFetcher A)
    (h : string -> M Types.TypesFetcher A) :
  growing c -> (forall m, growing (h m)) -> growing (tryCatch c h).
Proof.
  intros Hc Hh st. unfold tryCatch. specialize (Hc st).
  destruct (c st) as [[a | m] st']; simpl in Hc; [exact Hc|].
  apply (grows_trans st st'); [exact Hc | apply Hh].
Qed.

Lemma growing_liftCdn {A} (c : M CachingCdn A) : growing (Types.liftCdn c).
Proof.
  intros st. unfold Types.liftCdn. destruct (c (Types._cdn st)).
  apply grows_same; reflexivity.
Qed.

Lemma growing_addDependency from to : growing (Types._addDependency from to).
Proof.
  intros st. unfold Types._addDependency, modifyState.
  destruct (Types.addDependency _ _ _ _). apply grows_same; reflexivity.
Qed.

Lemma growing_setPackageJson2 cell v : growing (Types.setPackageJson2 cell v).
Proof. intros st. apply grows_same; reflexivity. Qed.

Lemma growing_newPackageJson2 : growing Types.newPackageJson2.
Proof. intros st. apply grows_same; reflexivity. Qed.

Lemma growing_claim key : growing (Types.claim key).
Proof.
  intros st. unfold Types.claim. destruct (decide _); [apply grows_refl|].
  simpl. split; [apply union_subseteq_l|]. split; [auto|].
  exists []. rewrite app_nil_r. reflexivity.
Qed.

Lemma growing_push r : growing (Types.pushEntrypointTask r).
Proof.
  intros st. simpl. split; [reflexivity|]. split; [auto|].
  exists [r]. reflexivity.
Qed.

Lemma growing_requireString v : growing (Types.requireString v).
Proof. intros st. destruct v; apply grows_refl. Qed.

#[local] Hint Resolve growing_ret growing_throw growing_getState
  growing_liftCdn growing_addDependency growing_setPackageJson2
  growing_newPackageJson2 growing_claim growing_push growing_requireString
  : growing.

Ltac growing :=
  repeat first
    [ progress (intros)
    | solve [auto with growing]
    | apply growing_bind
    | apply growing_tryCatch
    | match goal with
      | |- growing (match ?x with _ => _ end) => destruct x
      | |- growing (if ?b then _ else _) => destruct b
      end ].

Lemma growing_callGetPackageJson g : growing (Types.callGetPackageJson g).
Proof.
  destruct g as [value | message | cell p v]; simpl;
    [auto with growing | auto with growing |].
  apply growing_bind; [auto with growing|]. intros st.
  destruct (Types.packageJson2_locals st !! cell) as [[known|]|]; growing.
Qed.

Lemma Obj_get_set_new {V} (k k' : string) (v r : V) (o : list (string * V)) :
  Obj.get k o = None -> Obj.get k' o = Some r ->
  Obj.get k' (Obj.set k v o) = Some r.
Proof.
  intros Hnew Hold. rewrite Obj_get_set_ne; [exact Hold|].
  intros ->. rewrite Hnew in Hold. discriminate.
Qed.

(** [setFetchResult] for a specifier that has no result yet. *)
Lemma grows_setFetchResult specifier r st :
  Obj.get specifier (Types._specifierToFetchResult st) = None ->
  grows st (snd (Types.setFetchResult specifier r st)).
Proof.
  intros Hnew. simpl. split; [reflexivity|]. split.
  - intros k r0 Hold. apply Obj_get_set_new; assumption.
  - exists []. rewrite app_nil_r. reflexivity.
Qed.

Lemma results_liftCdn {A} (c : M CachingCdn A) st :
  Types._specifierToFetchResult (snd (Types.liftCdn c st))
  = Types._specifierToFetchResult st.
Proof. unfold Types.liftCdn. destruct (c (Types._cdn st)). reflexivity. Qed.

Lemma growing_fetchAndAddToOutputFiles location referrer :
  growing (Types._fetchAndAddToOutputFiles location referrer).
Proof.
  unfold Types._fetchAndAddToOutputFiles.
  apply growing_bind; [auto with growing|]. intros location'.
  apply growing_bind.
  { unfold Types.canonicalizeReferrer. growing. }
  intros referrer'. intros st. unfold bind at 1, getState at 1.
  destruct (Obj.get _ (Types._specifierToFetchResult st)) eqn:Hget;
    [apply grows_refl|].
  unfold bind at 1.
  pose proof (growing_addDependency referrer' location' st) as H1.
  assert (R1 : Types._specifierToFetchResult
                 (snd (Types._addDependency referrer' location' st))
               = Types._specifierToFetchResult st).
  { unfold Types._addDependency, modifyState.
    destruct (Types.addDependency _ _ _ _). reflexivity. }
  destruct (Types._addDependency referrer' location' st) as [[[] | m] st1];
    [|exact H1].
  simpl in H1, R1. unfold bind at 1, tryCatch, bind at 1.
  pose proof (growing_liftCdn (cdn_fetch location') st1) as H2.
  pose proof (results_liftCdn (cdn_fetch location') st1) as R2.
  destruct (Types.liftCdn (cdn_fetch location') st1) as [[f | m] st2];
    simpl in H2, R2 |- *.
  - unfold bind. simpl.
    apply (grows_trans st st1); [exact H1|].
    apply (grows_trans st1 st2); [exact H2|].
    apply (grows_setFetchResult _ _ st2). rewrite R2, R1. exact Hget.
  - unfold bind. simpl.
    apply (grows_trans st st1); [exact H1|].
    apply (grows_trans st1 st2); [exact H2|].
    apply (grows_setFetchResult _ _ st2). rewrite R2, R1. exact Hget.
Qed.

#[local] Hint Resolve growing_callGetPackageJson
  growing_fetchAndAddToOutputFiles : growing.

Lemma growingCrawl_cret {A} (a : A) : growingCrawl (Types.cret a).
Proof. intros st r st' [= <- <-]. apply grows_refl. Qed.

Lemma growingCrawl_lift {A} (c : M Types.TypesFetcher A) :
  growing c -> growingCrawl (Types.lift c).
Proof.
  intros Hc st r st' H. unfold Types.lift in H. specialize (Hc st).
  injection H as H. rewrite H in Hc. exact Hc.
Qed.

Lemma growingCrawl_cbind {A B} (c : Types.Crawl A) (k : A -> Types.Crawl B) :
  growingCrawl c -> (forall a, growingCrawl (k a)) ->
  growingCrawl (Types.cbind c k).
Proof.
  intros Hc Hk st r st'. unfold Types.cbind.
  destruct (c st) as [[[a | m] st1]|] eqn:H1; [| |discriminate].
  - intros H2. apply (grows_trans st st1);
      [exact (Hc _ _ _ H1) | exact (Hk a _ _ _ H2)].
  - intros [= <- <-]. exact (Hc _ _ _ H1).
Qed.

Lemma growingCrawl_settle (c : Types.Crawl unit) :
  growingCrawl c -> growingCrawl (Types.settle c).
Proof.
  intros Hc st r st'. unfold Types.settle.
  destruct (c st) as [[r1 st1]|] eqn:H1; [|discriminate].
  intros [= <- <-]. exact (Hc _ _ _ H1).
Qed.

Lemma growingCrawl_startAll {A} (f : A -> Types.Crawl (list (Res unit))) l :
  (forall a, growingCrawl (f a)) -> growingCrawl (Types.startAll f l).
Proof.
  intros Hf. induction l as [|a rest IH]; [apply growingCrawl_cret|].
  simpl. apply growingCrawl_cbind; [apply Hf|]. intros rs.
  apply growingCrawl_cbind; [exact IH|]. intros rs'. apply growingCrawl_cret.
Qed.

Lemma growingCrawl_awaitAll promises : growingCrawl (Types.awaitAll promises).
Proof. intros st r st' [= <- <-]. apply grows_refl. Qed.

Ltac growingCrawl :=
  repeat first
    [ progress (intros)
    | apply growingCrawl_cret
    | apply growingCrawl_awaitAll
    | assumption
    | apply growingCrawl_lift; growing
    | apply growingCrawl_settle
    | apply growingCrawl_cbind
    | match goal with
      | |- growingCrawl (match ?x with _ => _ end) => destruct x
      | |- growingCrawl (if ?b then _ else _) => destruct b
      | H : forall text referrer g, growingCrawl _ |- _ => apply H
      end ].

Section Recurse.
Variable recurse :
  string -> option NpmFileLocation -> Types.GetPackageJson -> Types.Crawl unit.
Hypothesis Hrec : forall text referrer g, growingCrawl (recurse text referrer g).

Lemma growingCrawl_handleBareSpecifier bare referrer g :
  growingCrawl (Types._handleBareSpecifier_with recurse bare referrer g).
Proof. unfold Types._handleBareSpecifier_with. growingCrawl. Qed.

Lemma growingCrawl_handleRelativeSpecifier relative referrer g :
  growingCrawl (Types._handleRelativeSpecifier_with recurse relative referrer g).
Proof. unfold Types._handleRelativeSpecifier_with. growingCrawl. Qed.

Lemma growingCrawl_addLibTypings lib g :
  growingCrawl (Types.addLibTypings_with recurse lib g).
Proof.
  unfold Types.addLibTypings_with.
  apply growingCrawl_cbind.
  - apply growingCrawl_settle. apply growingCrawl_handleBareSpecifier.
  - intros r. apply growingCrawl_lift. auto with growing.
Qed.

End Recurse.

Lemma growingCrawl_handleBareAndRelativeSpecifiers fuel :
  forall text referrer g,
    growingCrawl (Types._handleBareAndRelativeSpecifiers fuel text referrer g).
Proof.
  induction fuel as [|fuel IH]; intros text referrer g.
  - intros st r st' H. discriminate.
  - cbn [Types._handleBareAndRelativeSpecifiers].
    apply growingCrawl_cbind.
    + apply growingCrawl_startAll. intros specifier.
      destruct (classifySpecifier specifier).
      * apply growingCrawl_cret.
      * apply growingCrawl_cbind; [|intros; apply growingCrawl_cret].
        apply growingCrawl_settle, growingCrawl_handleBareSpecifier, IH.
      * apply growingCrawl_cbind; [|intros; apply growingCrawl_cret].
        apply growingCrawl_settle, growingCrawl_handleRelativeSpecifier, IH.
    + intros promises. apply growingCrawl_cbind;
        [|intros; apply growingCrawl_awaitAll].
      apply growingCrawl_startAll. intros lib.
      apply growingCrawl_cbind; [|intros; apply growingCrawl_cret].
      apply growingCrawl_addLibTypings, IH.
Qed.

Lemma growingCrawl_addBareModuleTypings fuel text g :
  growingCrawl (Types.addBareModuleTypings fuel text g).
Proof.
  unfold Types.addBareModuleTypings.
  apply growingCrawl_cbind.
  - apply growingCrawl_startAll. intros specifier.
    destruct (classifySpecifier specifier); try apply growingCrawl_cret.
    apply growingCrawl_cbind.
    + apply growingCrawl_settle. unfold Types._handleBareSpecifier.
      apply growingCrawl_handleBareSpecifier,
        growingCrawl_handleBareAndRelativeSpecifiers.
    + intros r. apply growingCrawl_cbind; [|intros; apply growingCrawl_cret].
      apply growingCrawl_lift. auto with growing.
  - intros _. apply growingCrawl_cbind; [|intros; apply growingCrawl_cret].
    apply growingCrawl_startAll. intros lib.
    apply growingCrawl_cbind; [|intros; apply growingCrawl_cret].
    unfold Types.addLibTypings.
    apply growingCrawl_addLibTypings,
      growingCrawl_handleBareAndRelativeSpecifiers.
Qed.

End Grows.

(** X14.  A crawl started by [addBareModuleTypings] or [addLibTypings]
    removes nothing from the handled specifiers, replaces or drops no fetch
    result recorded before, and only appends entry point tasks. *)
Theorem crawl_keeps_what_it_recorded (U : UtilOps) (P : Platform) :
  (forall fuel sourceText g st r st',
      Types.addBareModuleTypings fuel sourceText g st = Some (r, st') ->
      Types._handledSpecifiers st ⊆ Types._handledSpecifiers st'
      /\ (forall k result,
            Obj.get k (Types._specifierToFetchResult st) = Some result ->
            Obj.get k (Types._specifierToFetchResult st') = Some result)
      /\ exists more,
           Types._entrypointTasks st'
           = (Types._entrypointTasks st ++ more)%list)
  /\ (forall fuel lib g st r st',
      Types.addLibTypings fuel lib g st = Some (r, st') ->
      Types._handledSpecifiers st ⊆ Types._handledSpecifiers st'
      /\ (forall k result,
            Obj.get k (Types._specifierToFetchResult st) = Some result ->
            Obj.get k (Types._specifierToFetchResult st') = Some result)
      /\ exists more,
           Types._entrypointTasks st'
           = (Types._entrypointTasks st ++ more)%list).
Proof.
  split.
  - intros fuel sourceText g st r st' Hrun.
    exact (growingCrawl_addBareModuleTypings fuel sourceText g st r st' Hrun).
  - intros fuel lib g st r st' Hrun.
    exact (growingCrawl_addLibTypings _
             (growingCrawl_handleBareAndRelativeSpecifiers fuel)
             lib g st r st' Hrun).
Qed.

Lemma crawl_keeps_what_it_recorded_witness :
  exists r st',
    @Types.addBareModuleTypings specUtil Scenario.diamondCdn 3
      Scenario.diamondSource (Types.Supplied (Some Scenario.diamondManifest))
      Scenario.diamondFetcher
    = Some (r, st')
    /\ Obj.get "bar@2.3.4/index.d.ts" (Types._specifierToFetchResult st')
       = Some (Types.Fetched Scenario.bar2Dts).
Proof.
  destruct (@Types.addBareModuleTypings specUtil Scenario.diamondCdn 3
              Scenario.diamondSource
              (Types.Supplied (Some Scenario.diamondManifest))
              Scenario.diamondFetcher) as [[r st']|] eqn:Hrun;
    [|vm_compute in Hrun; discriminate].
  exists r, st'. split; [reflexivity|].
  destruct (crawl_keeps_what_it_recorded specUtil Scenario.diamondCdn)
    as [Hkeeps _].
  destruct (Hkeeps 3 Scenario.diamondSource
              (Types.Supplied (Some Scenario.diamondManifest))
              Scenario.diamondFetcher r st' Hrun) as (_ & Hresults & _).
  apply Hresults. vm_compute. reflexivity.
Defined.

Section Remembered.
Context {U : UtilOps} {P : Platform}.

Lemma cdn_fetch_exact_versions (location : NpmFileLocation) (cdn : CachingCdn) :
  isExactVersion (version location) = true ->
  _versionCache (snd (cdn_fetch location cdn)) = _versionCache cdn.
Proof.
  intros Hexact. unfold cdn_fetch, bind, _fetch, _fetch_start.
  rewrite (resolveFromCache_exact cdn location Hexact).
  destruct (_fileCache cdn !! pkgVersionPath location); [reflexivity|].
  unfold _fetch_finish.
  destruct (fetch _) as [res | m]; [|reflexivity].
  destruct (negb (status res =? 200)%nat); reflexivity.
Qed.

End Remembered.

(** X15.  [_fetchAndAddToOutputFiles] of a canonical location (an exact
    version and a path with an extension), for a referrer that is null or
    has a path with an extension and a version that is exact or known to
    the version cache, returns a result, never throws, and records it; the
    same call made again returns the same result and changes nothing, so
    that a fetch that failed is remembered as error 404 and the CDN is not
    asked again. *)
Theorem fetch_outcome_is_remembered (U : UtilOps) (P : Platform)
    (location : NpmFileLocation) (referrer : option NpmFileLocation)
    (st : Types.TypesFetcher) :
  isExactVersion (version location) = true ->
  fileExtension (path location) <> EmptyString ->
  (forall r, referrer = Some r ->
             fileExtension (path r) <> EmptyString
             /\ exists r', resolveFromCache (Types._cdn st) r = (r', true)) ->
  exists result st1,
    Types._fetchAndAddToOutputFiles location referrer st = (Ok result, st1)
    /\ Types._fetchAndAddToOutputFiles location referrer st1 = (Ok result, st1)
    /\ Obj.get (Types.specifierOf location) (Types._specifierToFetchResult st1)
       = Some result
    /\ (Obj.get (Types.specifierOf location) (Types._specifierToFetchResult st)
        = None ->
        result = match cdn_fetch location (Types._cdn st) with
                 | (Ok f, _) => Types.Fetched (content f)
                 | (Throw _, _) => Types.Failed 404
                 end).
Proof.
  intros Hexact Hext Href.
  assert (Hcan : forall cdn, canonicalize location cdn = (Ok location, cdn)).
  { intros cdn. apply canonicalize_resolved; [|exact Hext].
    apply resolveFromCache_exact. exact Hexact. }
  assert (Hcanr : exists referrer', forall s,
             _versionCache (Types._cdn s) = _versionCache (Types._cdn st) ->
             Types.canonicalizeReferrer referrer s = (Ok referrer', s)).
  { unfold Types.canonicalizeReferrer.
    destruct referrer as [r|]; [|exists None; reflexivity].
    destruct (Href r eq_refl) as [Hrx [r' Hres]].
    exists (Some r'). intros s Hs.
    destruct (resolveFromCache_keeps _ _ _ _ Hres) as [_ Hpath].
    unfold bind, Types.liftCdn.
    rewrite (canonicalize_resolved (Types._cdn s) r r').
    - destruct s. reflexivity.
    - rewrite (resolveFromCache_same_versions (Types._cdn st)); assumption.
    - rewrite Hpath. exact Hrx. }
  destruct Hcanr as [referrer' Hcanr].
  assert (Hstart : forall s,
             _versionCache (Types._cdn s) = _versionCache (Types._cdn st) ->
             Types._fetchAndAddToOutputFiles location referrer s
             = match Obj.get (Types.specifierOf location)
                       (Types._specifierToFetchResult s) with
               | Some settled => (Ok settled, s)
               | None =>
                   (_ <- Types._addDependency referrer' location ;;
                    r <- tryCatch
                           (f <- Types.liftCdn (cdn_fetch location) ;;
                            ret (Types.Fetched (content f)))
                           (fun _ => ret (Types.Failed 404)) ;;
                    _ <- Types.setFetchResult (Types.specifierOf location) r ;;
                    ret r) s
               end).
  { intros s Hs. unfold Types._fetchAndAddToOutputFiles.
    unfold bind at 1, Types.liftCdn at 1. rewrite Hcan.
    replace (Types.mkTypesFetcher (Types._cdn s) (Types._entrypointTasks s)
               (Types._handledSpecifiers s) (Types._specifierToFetchResult s)
               (Types._rootDependencies s) (Types._dependencyGraph s)
               (Types.packageJson2_locals s)) with s by (destruct s; reflexivity).
    unfold bind at 1. rewrite (Hcanr s Hs). unfold bind at 1, getState.
    destruct (Obj.get _ _); reflexivity. }
  rewrite (Hstart st eq_refl).
  destruct (Obj.get (Types.specifierOf location)
              (Types._specifierToFetchResult st)) as [settled|] eqn:Hget.
  - exists settled, st. rewrite (Hstart st eq_refl), Hget.
    split; [reflexivity|]. split; [reflexivity|]. split; [reflexivity|].
    discriminate.
  - pose proof (cdn_fetch_exact_versions location (Types._cdn st) Hexact)
      as Hversions.
    unfold bind at 1, Types._addDependency, modifyState.
    destruct (Types.addDependency referrer' location _ _) as [root graph].
    unfold bind at 1, tryCatch, bind at 1, Types.liftCdn. simpl.
    destruct (cdn_fetch location (Types._cdn st)) as [[f | m] cdn'];
      simpl in Hversions |- *; unfold bind; simpl;
      eexists _, _; (split; [reflexivity|]);
      rewrite Hstart by exact Hversions; simpl; rewrite Obj_get_set_eq;
      repeat split; reflexivity.
Qed.

Lemma fetch_outcome_is_remembered_witness :
  exists st1,
    resolveFromCache (Types._cdn Scenario.diamondFetcher)
      (mkLoc "foo" "latest" "index.d.ts")
    = (mkLoc "foo" "1.2.3" "index.d.ts", true)
    /\ @Types._fetchAndAddToOutputFiles specUtil Scenario.diamondCdn
         (mkLoc "bar" "2.3.4" "missing.d.ts")
         (Some (mkLoc "foo" "latest" "index.d.ts")) Scenario.diamondFetcher
       = (Ok (Types.Failed 404), st1)
    /\ @Types._fetchAndAddToOutputFiles specUtil Scenario.diamondCdn
         (mkLoc "bar" "2.3.4" "missing.d.ts")
         (Some (mkLoc "foo" "latest" "index.d.ts")) st1
       = (Ok (Types.Failed 404), st1)
    /\ last (requests (Types._cdn st1))
       = Some "https://unpkg.com/bar@2.3.4/missing.d.ts".
Proof.
  destruct (fetch_outcome_is_remembered specUtil Scenario.diamondCdn
              (mkLoc "bar" "2.3.4" "missing.d.ts")
              (Some (mkLoc "foo" "latest" "index.d.ts"))
              Scenario.diamondFetcher)
    as (result & st1 & Hfirst & Hagain & _ & Hresult).
  - reflexivity.
  - vm_compute. discriminate.
  - intros r [= <-]. split; [vm_compute; discriminate|].
    exists (mkLoc "foo" "1.2.3" "index.d.ts"). vm_compute. reflexivity.
  - specialize (Hresult ltac:(vm_compute; reflexivity)).
    vm_compute in Hresult. subst result.
    exists st1. split; [vm_compute; reflexivity|].
    split; [exact Hfirst|]. split; [exact Hagain|].
    vm_compute in Hfirst. injection Hfirst as <-. reflexivity.
Defined.


Section ReturnedFiles.
Context {U : UtilOps} {P : Platform}.

Lemma In_Obj_set {V} (k k' : string) (v v' : V) (o : list (string * V)) :
  In (k, v) (Obj.set k' v' o) -> (k, v) = (k', v') \/ In (k, v) o.
Proof.
  induction o as [|[k0 v0] rest IH]; simpl.
  - intros [H | []]. left. symmetry. exact H.
  - destruct (String.eqb k0 k'); simpl.
    + intros [H | H]; [left; symmetry; exact H | right; right; exact H].
    + intros [H | H]; [right; left; exact H|].
      destruct (IH H) as [H' | H']; [left; exact H' | right; right; exact H'].
Qed.

Lemma In_setAll ws results (k v : string) :
  In (k, v) (setAll ws results) -> In (k, v) ws \/ In (k, v) results.
Proof.
  revert results. induction ws as [|[k0 v0] ws IH]; intros results;
    [right; assumption|].
  unfold setAll. simpl. intros H. apply IH in H as [H | H].
  - left. right. exact H.
  - apply In_Obj_set in H as [H | H]; [left; left; symmetry; exact H|].
    right. exact H.
Qed.

Lemma In_writes filesByPv layout prefix (k v : string) :
  In (k, v) (writes filesByPv layout prefix) ->
  exists dir p ver path,
    grouped filesByPv (p ++ "@" ++ ver) path v
    /\ k = dir ++ p ++ "/" ++ path.
Proof.
  revert prefix.
  induction layout as [|p ver nested IHnested rest IHrest]; intros prefix;
    [intros []|].
  simpl. intros H. apply in_app_or in H as [H | H].
  - apply in_map_iff in H as ([path v0] & [= <- <-] & Hin).
    exists (if String.eqb prefix EmptyString then prefix else prefix ++ "/"),
      p, ver, path.
    split.
    + destruct (Obj.get (p ++ "@" ++ ver) filesByPv) as [arr|] eqn:Hget;
        [|destruct Hin].
      exists arr. split; [exact Hget | exact Hin].
    + simpl. rewrite !append_assoc. reflexivity.
  - apply in_app_or in H as [H | H]; [exact (IHnested _ H) | exact (IHrest _ H)].
Qed.

Lemma groupByPv_sources entries acc filesByPv pv filePath v :
  Types.groupByPv entries acc = Ok filesByPv ->
  grouped filesByPv pv filePath v ->
  grouped acc pv filePath v
  \/ exists specifier l,
       In (specifier, Types.Fetched v) entries
       /\ parseNpmStyleSpecifier specifier = Some l
       /\ pv = pkg l ++ "@" ++ version l
       /\ filePath = path l.
Proof.
  revert acc. induction entries as [|[specifier [text | e]] rest IH];
    intros acc Hgroup Hin; simpl in Hgroup.
  - injection Hgroup as <-. left. exact Hin.
  - destruct (parseNpmStyleSpecifier specifier) as [l|] eqn:Hparse;
      [|discriminate].
    destruct (IH _ Hgroup Hin) as [(arr & Hget & Harr) | (s & l' & Hs & Hrest)].
    + destruct (String.eqb_spec (pkg l ++ "@" ++ version l) pv) as [<- | Hne].
      * rewrite Obj_get_set_eq in Hget. injection Hget as <-.
        apply in_app_or in Harr as [Harr | [[= <- <-] | []]].
        -- left. destruct (Obj.get _ acc) as [arr0|] eqn:H0; [|destruct Harr].
           exists arr0. split; [exact H0 | exact Harr].
        -- right. exists specifier, l. repeat split; [left; reflexivity | exact Hparse].
      * rewrite Obj_get_set_ne in Hget by exact Hne.
        left. exists arr. split; assumption.
    + right. exists s, l'. destruct Hrest as (H1 & H2 & H3).
      repeat split; [right; exact Hs | assumption..].
  - destruct (IH _ Hgroup Hin) as [H | (s & l' & Hs & Hrest)]; [left; exact H|].
    right. exists s, l'. destruct Hrest as (H1 & H2 & H3).
    repeat split; [right; exact Hs | assumption..].
Qed.

End ReturnedFiles.

(** X17.  Every entry of the map [getFiles] returns holds the text of a
    specifier whose fetch succeeded, under a path that ends with a
    directory of that specifier's package and version followed by the
    specifier's own path, whatever the layout. *)
Theorem getFiles_returns_fetched_text_only (U : UtilOps) (P : Platform)
    (layoutFuel : nat) (st : Types.TypesFetcher)
    (files : list (string * string)) (k v : string) :
  Types.getFiles layoutFuel st = Ok files ->
  In (k, v) files ->
  exists specifier l dir p ver,
    In (specifier, Types.Fetched v) (Types._specifierToFetchResult st)
    /\ parseNpmStyleSpecifier specifier = Some l
    /\ p ++ "@" ++ ver = pkg l ++ "@" ++ version l
    /\ k = dir ++ p ++ "/" ++ path l.
Proof.
  unfold Types.getFiles. intros Hget Hin.
  destruct (Types.promiseAll _); [|discriminate].
  destruct (Types.groupByPv _ []) as [filesByPv|] eqn:Hgroup; [|discriminate].
  injection Hget as <-. rewrite _buildFiles_setAll in Hin.
  apply In_setAll in Hin as [Hin | []].
  apply In_writes in Hin as (dir & p & ver & path & Hg & ->).
  destruct (groupByPv_sources _ _ _ _ _ _ Hgroup Hg)
    as [(arr & Hnil & _) | (specifier & l & Hs & Hparse & Hpv & ->)];
    [discriminate Hnil|].
  exists specifier, l, dir, p, ver. auto.
Qed.

Lemma getFiles_returns_fetched_text_only_witness :
  exists specifier l dir p ver,
    In (specifier, Types.Fetched Scenario.bar2Dts)
      (Types._specifierToFetchResult Scenario.diamondFetcher)
    /\ SpecUtil.parseNpmStyleSpecifier specifier = Some l
    /\ p ++ "@" ++ ver = pkg l ++ "@" ++ version l
    /\ "foo/node_modules/bar/index.d.ts" = dir ++ p ++ "/" ++ path l.
Proof.
  destruct (@Types.getFiles specUtil 1 Scenario.diamondFetcher)
    as [files | m] eqn:Hget; [|vm_compute in Hget; discriminate].
  apply (getFiles_returns_fetched_text_only specUtil Scenario.diamondCdn 1
           Scenario.diamondFetcher files _ _ Hget).
  vm_compute in Hget. injection Hget as <-.
  right. right. right. left. reflexivity.
Defined.

Section CrawledOnce.
Context {U : UtilOps} {P : Platform}.

Lemma claim_again key st st' :
  key ∈ Types._handledSpecifiers st ->
  grows st st' ->
  Types.claim key st' = (Ok false, st').
Proof.
  intros Hin (Hsub & _). unfold Types.claim.
  destruct (decide _) as [_ | Hn]; [reflexivity|].
  exfalso. apply Hn, Hsub, Hin.
Qed.

Lemma claim_handled key st :
  key ∈ Types._handledSpecifiers (snd (Types.claim key st)).
Proof.
  unfold Types.claim. destruct (decide _) as [Hin | _]; [exact Hin|].
  simpl. apply elem_of_union_r, elem_of_singleton. reflexivity.
Qed.

End CrawledOnce.

(** X16.  Once [_handleBareSpecifier] has finished for a bare specifier of
    the project, the same call made again, at whatever depth, returns
    at once and leaves the fetcher as it is. *)
Theorem bare_specifier_is_crawled_once (U : UtilOps) (P : Platform)
    (fuel fuel' : nat) (bare : string) (referrer : option NpmFileLocation)
    (value : option PackageJson) (st st' : Types.TypesFetcher)
    (r : Res unit) :
  Types._handleBareSpecifier fuel bare referrer (Types.Supplied value) st
  = Some (r, st') ->
  Types._handleBareSpecifier fuel' bare referrer (Types.Supplied value) st'
  = Some (Ok tt, st').
Proof.
  unfold Types._handleBareSpecifier, Types._handleBareSpecifier_with.
  destruct (parseNpmStyleSpecifier bare) as [npm|];
    [|intros [= <- <-]; reflexivity].
  set (found := if String.eqb (version npm) EmptyString
                then Js.orElse (Types.declaredDependency value (pkg npm))
                       (Js.Str "latest")
                else Js.Str (version npm)).
  assert (Hv : forall s,
             Types.lift
               (if String.eqb (version npm) EmptyString
                then
                  json <- Types.callGetPackageJson (Types.Supplied value) ;;
                  ret (Js.orElse (Types.declaredDependency json (pkg npm))
                         (Js.Str "latest"))
                else ret (Js.Str (version npm))) s
             = Some (Ok found, s)).
  { intros s. unfold found, Types.lift.
    destruct (String.eqb (version npm) EmptyString); reflexivity. }
  unfold Types.cbind at 1. rewrite Hv.
  unfold Types.cbind at 1, Types.lift at 1.
  set (key := pkg npm ++ "@" ++ Js.text found ++ "/" ++ path npm).
  pose proof (claim_handled key st) as Hkey.
  destruct (Types.claim key st) as [[fresh | m] st1] eqn:Hclaim.
  2:{ unfold Types.claim in Hclaim. destruct (decide _); discriminate. }
  simpl in Hkey. intros Hrest.
  assert (Hgrow : grows st1 st').
  { destruct fresh; simpl in Hrest.
    - revert Hrest.
      match goal with
      | |- ?c st1 = Some (r, st') -> _ =>
          assert (Hc : growingCrawl c);
          [|intros Hrest; exact (Hc st1 r st' Hrest)]
      end.
      pose proof (growingCrawl_handleBareAndRelativeSpecifiers fuel) as Hrec.
      apply growingCrawl_cbind.
      + apply growingCrawl_lift.
        destruct (String.eqb (path npm) EmptyString).
        * apply growing_tryCatch; [|intros; apply growing_ret].
          apply growing_bind; [apply growing_requireString|]. intros _.
          apply growing_bind; [apply growing_fetchAndAddToOutputFiles|].
          intros res. apply growing_bind; [|intros; apply growing_ret].
          destruct res as [text | e]; [|apply growing_ret].
          destruct (JSON_parse text); [apply growing_ret | apply growing_throw].
        * apply growing_ret.
      + intros [dtsPath|]; [|apply growingCrawl_cret].
        apply growingCrawl_cbind;
          [apply growingCrawl_lift, growing_claim|].
        intros [|]; simpl; [|apply growingCrawl_cret].
        apply growingCrawl_cbind.
        * apply growingCrawl_lift, growing_tryCatch;
            [|intros; apply growing_ret].
          apply growing_bind; [apply growing_requireString|]. intros _.
          apply growing_bind; [apply growing_fetchAndAddToOutputFiles|].
          intros; apply growing_ret.
        * intros [[text | e]|]; try apply growingCrawl_cret.
          apply growingCrawl_cbind;
            [apply growingCrawl_lift, growing_newPackageJson2|].
          intros cell. apply Hrec.
    - injection Hrest as <- <-. apply grows_refl. }
  unfold Types.cbind at 1. rewrite Hv.
  unfold Types.cbind at 1, Types.lift at 1.
  fold key. rewrite (claim_again key st1 st' Hkey Hgrow). reflexivity.
Qed.

Lemma bare_specifier_is_crawled_once_witness :
  exists st',
    @Types._handleBareSpecifier specUtil Scenario.missingCdn 2 "foo" None
      (Types.Supplied None) (Types.newTypesFetcher Scenario.cdn0)
    = Some (Ok tt, st')
    /\ requests (Types._cdn st')
       = [ "https://unpkg.com/foo@latest/package.json";
           "https://unpkg.com/foo@1.0.0/index.d.ts" ]
    /\ @Types._handleBareSpecifier specUtil Scenario.missingCdn 2 "foo" None
         (Types.Supplied None) st'
       = Some (Ok tt, st').
Proof.
  destruct (@Types._handleBareSpecifier specUtil Scenario.missingCdn 2 "foo"
              None (Types.Supplied None) (Types.newTypesFetcher Scenario.cdn0))
    as [[r st']|] eqn:Hrun; [|vm_compute in Hrun; discriminate].
  pose proof (bare_specifier_is_crawled_once specUtil Scenario.missingCdn 2 2
                "foo" None None _ st' r Hrun) as Hagain.
  exists st'. vm_compute in Hrun. injection Hrun as <- <-.
  split; [reflexivity|]. split; [reflexivity | exact Hagain].
Defined.

(** ** TypesFetcher: the crawl finishes, and [getFiles] *)

Section Finishes.
Context {U : UtilOps} {P : Platform}.
Variable T : nat.

Lemma handledCount_mono st st' :
  Types._handledSpecifiers st ⊆ Types._handledSpecifiers st' ->
  handledCount st <= handledCount st'.
Proof. intros H. unfold handledCount. apply subseteq_size. exact H. Qed.

Lemma tracks_le {A} t t' (cut real : Types.Crawl A) :
  t <= t' -> tracks T t cut real -> tracks T t' cut real.
Proof. intros Hle H st Hst. apply H. lia. Qed.

Lemma tracks_cret {A} t (a : A) : tracks T t (Types.cret a) (Types.cret a).
Proof. intros st _. exists (Ok a), st. split; [reflexivity|]. split; [reflexivity|]. left. reflexivity. Qed.

Lemma tracks_awaitAll t promises :
  tracks T t (Types.awaitAll promises) (Types.awaitAll promises).
Proof.
  intros st _. eexists _, st. split; [reflexivity|].
  split; [reflexivity|]. left. reflexivity.
Qed.

Lemma tracks_lift {A} t (c : M Types.TypesFetcher A) :
  growing c -> tracks T t (Types.lift c) (Types.lift c).
Proof.
  intros Hc st _. destruct (c st) as [r st'] eqn:Hrun.
  exists r, st'. unfold Types.lift. rewrite Hrun.
  split; [reflexivity|]. split; [|left; reflexivity].
  pose proof (Hc st) as (Hsub & _). rewrite Hrun in Hsub. exact Hsub.
Qed.

Lemma tracks_cbind {A B} t (c1 c2 : Types.Crawl A) (k1 k2 : A -> Types.Crawl B) :
  tracks T t c1 c2 -> (forall a, tracks T t (k1 a) (k2 a)) ->
  tracks T t (Types.cbind c1 k1) (Types.cbind c2 k2).
Proof.
  intros Hc Hk st Hst.
  destruct (Hc st Hst) as (r1 & st1 & Hcut & Hsub & Hreal).
  unfold Types.cbind. rewrite Hcut.
  destruct r1 as [a | m].
  - assert (Hst1 : t <= handledCount st1).
    { pose proof (handledCount_mono _ _ Hsub). lia. }
    destruct (Hk a st1 Hst1) as (r & st' & Hcut' & Hsub' & Hreal').
    exists r, st'. split; [exact Hcut'|].
    split; [etransitivity; eassumption|].
    destruct Hreal as [-> | [-> Hbig]].
    + exact Hreal'.
    + right. split; [reflexivity|].
      pose proof (handledCount_mono _ _ Hsub'). lia.
  - exists (Throw m), st1. split; [reflexivity|]. split; [exact Hsub|].
    destruct Hreal as [-> | [-> Hbig]]; [left; reflexivity | right; auto].
Qed.

Lemma tracks_settle t (c1 c2 : Types.Crawl unit) :
  tracks T t c1 c2 -> tracks T t (Types.settle c1) (Types.settle c2).
Proof.
  intros Hc st Hst. destruct (Hc st Hst) as (r & st' & Hcut & Hsub & Hreal).
  exists (Ok r), st'. unfold Types.settle. rewrite Hcut.
  split; [reflexivity|]. split; [exact Hsub|].
  destruct Hreal as [-> | [-> Hbig]]; [left; reflexivity | right; auto].
Qed.


Lemma tracks_claim {A} t key (k1 k2 : bool -> Types.Crawl A) :
  tracks T (S t) (k1 true) (k2 true) ->
  tracks T t (k1 false) (k2 false) ->
  tracks T t (Types.cbind (Types.lift (Types.claim key)) k1)
             (Types.cbind (Types.lift (Types.claim key)) k2).
Proof.
  intros Htrue Hfalse st Hst.
  unfold Types.cbind, Types.lift, Types.claim.
  destruct (decide (key ∈ Types._handledSpecifiers st)) as [Hin | Hnew].
  - apply Hfalse. exact Hst.
  - match goal with
    | |- context [k1 true ?s] => set (claimed := s)
    end.
    assert (Hcount : S t <= handledCount claimed).
    { unfold handledCount, claimed. simpl.
      rewrite size_union by (apply disjoint_singleton_r; exact Hnew).
      rewrite size_singleton. unfold handledCount in Hst. lia. }
    destruct (Htrue claimed Hcount) as (r & st' & Hcut & Hsub & Hreal).
    exists r, st'. split; [exact Hcut|]. split; [|exact Hreal].
    etransitivity; [|exact Hsub]. unfold claimed. simpl.
    apply union_subseteq_l.
Qed.

End Finishes.

Section Tracking.
Context {U : UtilOps} {P : Platform}.
Variable T : nat.

Ltac grows_m :=
  repeat first
    [ progress (intros)
    | apply growing_ret | apply growing_throw | apply growing_getState
    | apply growing_liftCdn | apply growing_addDependency
    | apply growing_setPackageJson2 | apply growing_newPackageJson2
    | apply growing_claim | apply growing_push | apply growing_requireString
    | apply growing_callGetPackageJson | apply growing_fetchAndAddToOutputFiles
    | apply growing_bind
    | apply growing_tryCatch
    | match goal with
      | |- growing (match ?x with _ => _ end) => destruct x
      | |- growing (if ?b then _ else _) => destruct b
      end ].

Ltac tracks :=
  repeat first
    [ progress (intros)
    | apply tracks_cret
    | apply tracks_awaitAll
    | apply tracks_claim; cbn [negb]
    | apply tracks_lift; solve [grows_m]
    | apply tracks_settle
    | apply tracks_cbind
    | match goal with
      | |- tracks _ _ (match ?x with _ => _ end) (match ?x with _ => _ end) =>
          destruct x
      | |- tracks _ _ (if ?b then _ else _) (if ?b then _ else _) => destruct b
      | H : forall text referrer g, tracks _ ?t _ _ |- tracks _ ?t' _ _ =>
          apply (tracks_le T t t'); [lia | apply H]
      end ].

Section Recurse.
Variables recurse1 recurse2 :
  string -> option NpmFileLocation -> Types.GetPackageJson -> Types.Crawl unit.
Variable t : nat.
Hypothesis Hrec : forall text referrer g,
  tracks T (S t) (recurse1 text referrer g) (recurse2 text referrer g).






End Recurse.




End Tracking.

Section CrawlFinishes.
Context {U : UtilOps} {P : Platform}.



End CrawlFinishes.


(** An import of a package the CDN does not have: the fetch fails inside
    [canonicalize], at line 338, before the try of
    [_fetchAndAddToOutputFiles]; the request was made, [_handleBareSpecifier]
    catches the exception, and no result, 404 or other, is recorded for the
    specifier. *)
Lemma missing_package_is_not_recorded :
  exists st',
    @Types.addBareModuleTypings specUtil Scenario.absentCdn 2
      Scenario.absentSource (Types.Supplied None)
      (Types.newTypesFetcher Scenario.cdn0)
    = Some (Ok tt, st')
    /\ requests (Types._cdn st') = ["https://unpkg.com/nope@latest/package.json"]
    /\ Types._specifierToFetchResult st' = []
    /\ Types._entrypointTasks st' = [Ok tt]
    /\ @Types.getFiles specUtil 2 st' = Ok [].
Proof. vm_compute. eexists. repeat split. Qed.



(** ** The editor and the service worker *)

Section Strings.

Lemma slice_append (a b : string) : Js.slice (String.length a) (a ++ b) = b.
Proof.
  unfold Js.slice. induction a as [|c a IH].
  - simpl. rewrite Nat.sub_0_r.
    induction b as [|x b IHb]; [reflexivity|]. simpl.
    destruct b; [reflexivity|]. f_equal. exact IHb.
  - change (String c a ++ b) with (String c (a ++ b)). simpl. exact IH.
Qed.

Lemma substring_append (a b : string) :
  Js.substring 0 (String.length a) (a ++ b) = a.
Proof.
  unfold Js.substring. rewrite Nat.sub_0_r. induction a as [|c a IH].
  - destruct b; reflexivity.
  - change (String c a ++ b) with (String c (a ++ b)). simpl.
    rewrite IH. reflexivity.
Qed.

Lemma indexOf_append (c : ascii) (a b : string) :
  Editor.indexOf c a = None ->
  Editor.indexOf c (a ++ String c b) = Some (String.length a).
Proof.
  induction a as [|x a IH]; intros Hno.
  - simpl. rewrite Ascii.eqb_refl. reflexivity.
  - change (String x a ++ String c b) with (String x (a ++ String c b)).
    simpl in *. destruct (Ascii.eqb x c); [discriminate|].
    destruct (Editor.indexOf c a); [discriminate|].
    rewrite IH by reflexivity. reflexivity.
Qed.

Lemma length_append (a b : string) :
  String.length (a ++ b) = String.length a + String.length b.
Proof.
  induction a as [|x a IH]; [reflexivity|].
  change (String x a ++ b) with (String x (a ++ b)). simpl. rewrite IH.
  reflexivity.
Qed.

End Strings.

(** X18.  The MIME type [typeEnumToMimeType] gives for a file type is read
    back as that file type by [mimeTypeToTypeEnum], which ignores the
    parameters after the first semicolon; both map undefined to
    undefined. *)
Theorem file_type_survives_the_mime_type :
  (forall type mimeType,
      Editor.typeEnumToMimeType (Some type) = Some mimeType ->
      Editor.mimeTypeToTypeEnum (Some mimeType) = Some type)
  /\ (forall mimeType parameters,
      Editor.indexOf ";"%char mimeType = None ->
      Editor.mimeTypeToTypeEnum (Some (mimeType ++ ";" ++ parameters))
      = Editor.mimeTypeToTypeEnum (Some mimeType))
  /\ Editor.mimeTypeToTypeEnum None = None
  /\ Editor.typeEnumToMimeType None = None.
Proof.
  split; [|split; [|split; reflexivity]].
  - intros type mimeType. unfold Editor.typeEnumToMimeType.
    destruct (String.eqb_spec type "ts") as [-> | _];
      [intros [= <-]; reflexivity|].
    destruct (String.eqb_spec type "js") as [-> | _];
      [intros [= <-]; reflexivity|].
    destruct (String.eqb_spec type "html") as [-> | _];
      [intros [= <-]; reflexivity|].
    destruct (String.eqb_spec type "css") as [-> | _];
      [intros [= <-]; reflexivity | discriminate].
  - intros mimeType parameters Hno. unfold Editor.mimeTypeToTypeEnum.
    change (mimeType ++ ";" ++ parameters)
      with (mimeType ++ String ";"%char parameters).
    rewrite (indexOf_append ";"%char mimeType parameters Hno), Hno.
    rewrite substring_append. reflexivity.
Qed.

Lemma file_type_survives_the_mime_type_witness :
  Editor.mimeTypeToTypeEnum (Editor.typeEnumToMimeType (Some "js")) = Some "js"
  /\ Editor.mimeTypeToTypeEnum (Some "text/html; charset=utf-8") = Some "html".
Proof.
  destruct file_type_survives_the_mime_type as (Hround & Hparams & _).
  split.
  - apply (Hround "js"). reflexivity.
  - exact (Hparams "text/html" " charset=utf-8" eq_refl).
Defined.

(** X19.  A URL made of the scope, a session id without a slash, a slash
    and a file path is parsed back by the service worker into that session
    id and that path, and is answered; a URL with no slash after the scope,
    or outside the scope, is not answered. *)
Theorem sample_file_url_is_parsed_back (scope sessionId filePath : string) :
  Editor.indexOf "/"%char sessionId = None ->
  ServiceWorker.parseSampleFileUrl scope
    (scope ++ sessionId ++ "/" ++ filePath)
  = (Some sessionId, Some filePath)
  /\ ServiceWorker.answered scope (scope ++ sessionId ++ "/" ++ filePath)
     = Some (sessionId, filePath)
  /\ ServiceWorker.answered scope (scope ++ sessionId) = None
  /\ forall url, Js.startsWith url scope = false ->
                 ServiceWorker.answered scope url = None.
Proof.
  intros Hno.
  assert (Hparse : ServiceWorker.parseSampleFileUrl scope
                     (scope ++ sessionId ++ "/" ++ filePath)
                   = (Some sessionId, Some filePath)).
  { unfold ServiceWorker.parseSampleFileUrl. rewrite slice_append.
    change (sessionId ++ "/" ++ filePath)
      with (sessionId ++ String "/"%char filePath).
    rewrite (indexOf_append "/"%char sessionId filePath Hno).
    rewrite substring_append.
    change (sessionId ++ String "/"%char filePath)
      with (sessionId ++ "/" ++ filePath).
    rewrite <- append_assoc.
    replace (String.length sessionId + 1) with (String.length (sessionId ++ "/"))
      by (rewrite length_append; reflexivity).
    rewrite slice_append. reflexivity. }
  split; [exact Hparse|]. split; [|split].
  - unfold ServiceWorker.answered. rewrite Hparse.
    unfold Js.startsWith.
    assert (H : String.prefix scope (scope ++ sessionId ++ "/" ++ filePath)
                = true).
    { clear. induction scope as [|c s IH].
      - destruct (sessionId ++ "/" ++ filePath); reflexivity.
      - change (String c s ++ sessionId ++ "/" ++ filePath)
          with (String c (s ++ sessionId ++ "/" ++ filePath)).
        simpl. destruct (ascii_dec c c); [exact IH | contradiction]. }
    rewrite H. reflexivity.
  - unfold ServiceWorker.answered, ServiceWorker.parseSampleFileUrl.
    rewrite slice_append, Hno. destruct (Js.startsWith _ _); reflexivity.
  - intros url Hout. unfold ServiceWorker.answered. rewrite Hout. reflexivity.
Qed.

Lemma sample_file_url_is_parsed_back_witness :
  ServiceWorker.answered "https://example.com/playground/"
    "https://example.com/playground/abc123/src/index.html"
  = Some ("abc123", "src/index.html").
Proof.
  apply (sample_file_url_is_parsed_back "https://example.com/playground/"
           "abc123" "src/index.html").
  reflexivity.
Defined.
